(** * The music catalogue models of [app/music/models.py]

    A shallow embedding of the Django models declared in
    [app/music/models.py] (Author, Musician, Album, Song, Profile and the
    two through models), of the validation that [ValidatedModel.save]
    runs before every write, and of the relational wiring (foreign keys
    with their [on_delete] policy, the [unique_song] constraint and the
    many-to-many managers).

    The file declares the models; what a declaration means is fixed by
    the framework.  The first part of this development therefore writes
    down the behaviour of the framework hooks that the declarations call
    upon ([Model.full_clean], [Field.clean], the validators, the deletion
    collector, the related manager), each definition citing the hook it
    stands for.  The second part transcribes the declarations of
    [models.py] field by field. *)

From Stdlib Require Import ZArith QArith Lia.
From stdpp Require Import gmap strings list fin_maps.

#[local] Open Scope string_scope.
#[local] Open Scope list_scope.
#[local] Open Scope Z_scope.

(** ** Python values *)

(** A finite [decimal.Decimal] as [as_tuple()] shows it: a sign, the
    coefficient's digits (most significant first) and an exponent.
    [DecimalField.to_python] rejects the values that are not finite, so
    those never reach a validator. *)
Record Decimal := mkDecimal {
  sign : bool;
  digits : list Z;
  exponent : Z;
}.

#[export] Instance Decimal_eq_dec : EqDecision Decimal.
Proof. solve_decision. Defined.

(** The coefficient: the integer the digit tuple spells. *)
Definition coefficient (d : Decimal) : Z :=
  fold_left (fun acc x => 10 * acc + x) (digits d) 0.

(** The number a decimal denotes, [(-1)^sign * coefficient * 10^exponent]. *)
Definition Decimal_value (d : Decimal) : Q :=
  (inject_Z (if sign d then - coefficient d else coefficient d)
   * Qpower (inject_Z 10) (exponent d))%Q.

(** Python's [value >= n] for a decimal and an integer. *)
Definition Decimal_ge (d : Decimal) (n : Z) : bool :=
  Qle_bool (inject_Z n) (Decimal_value d).

(** [datetime.datetime]: the calendar year and the rest of the time stamp. *)
Record datetime := mkDatetime {
  year : Z;
  month : Z;
  day : Z;
  second_of_day : Z;
}.

#[export] Instance datetime_eq_dec : EqDecision datetime.
Proof. solve_decision. Defined.

(** Python truthiness of an optional integer: [None] and [0] are false. *)
Definition truthy (v : option Z) : bool :=
  match v with
  | None => false
  | Some n => negb (n =? 0)
  end.

(** ** The rows

    One record per model of [models.py], one component per column, in
    the order of the declarations.  Every attribute of a Python instance
    may hold [None]; a foreign key holds the primary key it refers to
    (the [_id] attribute).  The many-to-many managers are not columns:
    their rows live in the through models. *)

Module Author.
Record t := mk {
  name : option string;
  website : option string;
  first_appearance : option Z;
  last_appearance : option Z;
}.
End Author.

Module Musician.
Record t := mk {
  name : option string;
  nationality : option string;
  instrument : option string;
  author : option Z;
}.
Definition set_author (v : option Z) (self : t) : t :=
  mk (name self) (nationality self) (instrument self) v.
End Musician.

Module Album.
Record t := mk {
  title : option string;
  year_of_release : option Z;
  produced_by : option string;
}.
End Album.

Module Song.
Record t := mk {
  audio : option string;
  title : option string;
  author : option Z;
  album : option Z;
  duration : option Z;
  style : option string;
  playbacks : option Z;
  price : option Decimal;
  deal_of_the_day : option bool;
  created : option datetime;
  created_by : option Z;
  last_modified : option datetime;
  last_modified_by : option Z;
}.
Definition set_author (v : option Z) (self : t) : t :=
  mk (audio self) (title self) v (album self) (duration self) (style self)
     (playbacks self) (price self) (deal_of_the_day self) (created self)
     (created_by self) (last_modified self) (last_modified_by self).
Definition set_album (v : option Z) (self : t) : t :=
  mk (audio self) (title self) (author self) v (duration self) (style self)
     (playbacks self) (price self) (deal_of_the_day self) (created self)
     (created_by self) (last_modified self) (last_modified_by self).
Definition set_created (v : option datetime) (self : t) : t :=
  mk (audio self) (title self) (author self) (album self) (duration self)
     (style self) (playbacks self) (price self) (deal_of_the_day self) v
     (created_by self) (last_modified self) (last_modified_by self).
Definition set_created_by (v : option Z) (self : t) : t :=
  mk (audio self) (title self) (author self) (album self) (duration self)
     (style self) (playbacks self) (price self) (deal_of_the_day self)
     (created self) v (last_modified self) (last_modified_by self).
Definition set_last_modified (v : option datetime) (self : t) : t :=
  mk (audio self) (title self) (author self) (album self) (duration self)
     (style self) (playbacks self) (price self) (deal_of_the_day self)
     (created self) (created_by self) v (last_modified_by self).
Definition set_last_modified_by (v : option Z) (self : t) : t :=
  mk (audio self) (title self) (author self) (album self) (duration self)
     (style self) (playbacks self) (price self) (deal_of_the_day self)
     (created self) (created_by self) (last_modified self) v.
End Song.

Module Profile.
Record t := mk {
  user : option Z;
  daily_start_time : option Z;
  daily_finish_time : option Z;
  preferred_style : option string;
  preferred_song : option Z;
}.
Definition set_user (v : option Z) (self : t) : t :=
  mk v (daily_start_time self) (daily_finish_time self) (preferred_style self)
     (preferred_song self).
Definition set_preferred_song (v : option Z) (self : t) : t :=
  mk (user self) (daily_start_time self) (daily_finish_time self)
     (preferred_style self) v.
End Profile.

(** [end] is a keyword here, so the column [end] is spelled [end_]. *)
Module RelationshipAuthorMusician.
Record t := mk {
  author : option Z;
  musician : option Z;
  start : option Z;
  end_ : option Z;
}.
Definition set_author (v : option Z) (self : t) : t :=
  mk v (musician self) (start self) (end_ self).
Definition set_musician (v : option Z) (self : t) : t :=
  mk (author self) v (start self) (end_ self).
End RelationshipAuthorMusician.

Module RelationshipAuthorSong.
Record t := mk {
  author : option Z;
  song : option Z;
}.
Definition set_author (v : option Z) (self : t) : t := mk v (song self).
Definition set_song (v : option Z) (self : t) : t := mk (author self) v.
End RelationshipAuthorSong.

(** ** The world a request runs in *)

(** The integer column types whose range the database backend fixes. *)
Inductive InternalType :=
| AutoInteger
| SmallInteger
| PositiveInteger.

(** [django.db.connection]: what validation asks the backend. *)
Record DatabaseWrapper := mkConnection {
  integer_field_range : InternalType -> Z * Z;
}.

(** The clock, the settings and the tables.  [users] is the table of
    [settings.AUTH_USER_MODEL], of which only the primary keys matter
    here; [url_regex] stands for the match against the regular
    expression of [django.core.validators.URLValidator]. *)
Record State := mkState {
  today : datetime;
  connection : DatabaseWrapper;
  url_regex : string -> bool;
  users : gset Z;
  authors : gmap Z Author.t;
  musicians : gmap Z Musician.t;
  albums : gmap Z Album.t;
  songs : gmap Z Song.t;
  profiles : gmap Z Profile.t;
  author_musicians : gmap Z RelationshipAuthorMusician.t;
  author_songs : gmap Z RelationshipAuthorSong.t;
}.

(** Writing one table leaves the clock, the settings and the other
    tables as they are. *)
Definition set_authors (v : gmap Z Author.t) (st : State) : State :=
  mkState (today st) (connection st) (url_regex st)
    (users st) v (musicians st) (albums st) (songs st) (profiles st)
    (author_musicians st) (author_songs st).

Definition set_musicians (v : gmap Z Musician.t) (st : State) : State :=
  mkState (today st) (connection st) (url_regex st)
    (users st) (authors st) v (albums st) (songs st) (profiles st)
    (author_musicians st) (author_songs st).

Definition set_albums (v : gmap Z Album.t) (st : State) : State :=
  mkState (today st) (connection st) (url_regex st)
    (users st) (authors st) (musicians st) v (songs st) (profiles st)
    (author_musicians st) (author_songs st).

Definition set_songs (v : gmap Z Song.t) (st : State) : State :=
  mkState (today st) (connection st) (url_regex st)
    (users st) (authors st) (musicians st) (albums st) v (profiles st)
    (author_musicians st) (author_songs st).

Definition set_profiles (v : gmap Z Profile.t) (st : State) : State :=
  mkState (today st) (connection st) (url_regex st)
    (users st) (authors st) (musicians st) (albums st) (songs st) v
    (author_musicians st) (author_songs st).

Definition set_author_musicians (v : gmap Z RelationshipAuthorMusician.t)
    (st : State) : State :=
  mkState (today st) (connection st) (url_regex st)
    (users st) (authors st) (musicians st) (albums st) (songs st)
    (profiles st) v (author_songs st).

Definition set_author_songs (v : gmap Z RelationshipAuthorSong.t)
    (st : State) : State :=
  mkState (today st) (connection st) (url_regex st)
    (users st) (authors st) (musicians st) (albums st) (songs st)
    (profiles st) (author_musicians st) v.

(** ** Exceptions and the monad of a request *)

(** One entry of a [ValidationError]: the bare message of an error that
    [models.py] raises itself, or the [code] of a framework check with
    the limit it reports, if it has one. *)
Inductive Error :=
| Message (message : string)
| Code (code : string) (limit : option Z).

(** The key of the errors that belong to no single field. *)
Definition NON_FIELD_ERRORS : string := "__all__".

(** [ValidationError.error_dict], as the list of its (field, error) items. *)
Abbreviation ErrorDict := (list (string * Error)).

Inductive Exception :=
| ValidationError (errors : ErrorDict)
| IntegrityError.

Inductive Result (A : Type) :=
| Return (a : A)
| Raise (e : Exception).
Arguments Return {A} a.
Arguments Raise {A} e.

(** A computation reads and writes the state and returns or raises. *)
Definition Request (A : Type) : Type := State -> Result A * State.

#[export] Instance Request_ret : MRet Request :=
  fun A (a : A) st => (Return a, st).

(** Sequencing: an exception of the first computation ends the request
    in the state the computation left. *)
#[export] Instance Request_bind : MBind Request :=
  fun A B (k : A -> Request B) (m : Request A) st =>
    match m st with
    | (Return a, st') => k a st'
    | (Raise e, st') => (Raise e, st')
    end.

(** ** Validators ([django.core.validators]) *)

(** A validator is called with the value and reads the world; it yields
    the errors it raises, none when the value passes. *)
Abbreviation Validator T := (State -> T -> list Error).

(** The [limit_value] of a validator: a constant or a callable that is
    called at each validation. *)
Inductive Limit :=
| Constant (n : Z)
| Callable (f : State -> Z).

Definition limit_value (l : Limit) (st : State) : Z :=
  match l with
  | Constant n => n
  | Callable f => f st
  end.

Inductive IntValidator :=
| MinValueValidator (l : Limit)
| MaxValueValidator (l : Limit).

(** [BaseValidator.__call__] with [compare] of the two subclasses:
    [a < b] for the minimum, [a > b] for the maximum. *)
Definition call (v : IntValidator) : Validator Z :=
  fun st value =>
    match v with
    | MinValueValidator l =>
        if value <? limit_value l st
        then [Code "min_value" (Some (limit_value l st))] else []
    | MaxValueValidator l =>
        if limit_value l st <? value
        then [Code "max_value" (Some (limit_value l st))] else []
    end.

(** The two validators [IntegerField.validators] appends for the range
    of the column, each one unless a declared validator is already at
    least as strict. *)
Definition range_validators (kind : InternalType) (declared : list IntValidator)
  : list (Validator Z) :=
  [ (fun st value =>
       let lo := (integer_field_range (connection st) kind).1 in
       if existsb (fun v => match v with
                            | MinValueValidator l => lo <=? limit_value l st
                            | MaxValueValidator _ => false
                            end) declared
       then [] else call (MinValueValidator (Constant lo)) st value);
    (fun st value =>
       let hi := (integer_field_range (connection st) kind).2 in
       if existsb (fun v => match v with
                            | MaxValueValidator l => limit_value l st <=? hi
                            | MinValueValidator _ => false
                            end) declared
       then [] else call (MaxValueValidator (Constant hi)) st value) ].

(** A Python [str] is held here as the bytes of its UTF-8 encoding, in
    which the bytes [10xxxxxx] continue a character and every other
    byte begins one. *)
Definition continues (c : Ascii.ascii) : bool :=
  match c with
  | Ascii.Ascii _ _ _ _ _ _ b6 b7 => b7 && negb b6
  end.

(** The characters that begin in the bytes of [s]. *)
Fixpoint characters (s : string) : nat :=
  match s with
  | EmptyString => 0
  | String c rest => (if continues c then 0 else 1) + characters rest
  end.

(** Python's [len] of a [str]: the number of its characters, not of
    its bytes.  The first byte begins a character in any case. *)
Definition len (s : string) : nat :=
  match s with
  | EmptyString => 0
  | String _ rest => S (characters rest)
  end.

(** [MaxLengthValidator]: [len(value) > limit] raises. *)
Definition MaxLengthValidator (limit : Z) : Validator string :=
  fun _ value =>
    if limit <? Z.of_nat (len value)
    then [Code "max_length" (Some limit)] else [].

Definition URLValidator : Validator string :=
  fun st value => if url_regex st value then [] else [Code "invalid" None].

(** [DecimalValidator.__call__]: the three checks raise in this order. *)
Definition DecimalValidator (maxd places : Z) : Validator Decimal :=
  fun _ value =>
    let n := Z.of_nat (length (digits value)) in
    let e := exponent value in
    let '(ndigits, decimals) :=
      if 0 <=? e
      then (if decide (digits value = [0]) then n else n + e, 0)
      else if n <? Z.abs e then (Z.abs e, Z.abs e) else (n, Z.abs e) in
    let whole_digits := ndigits - decimals in
    if maxd <? ndigits then [Code "max_digits" None]
    else if places <? decimals then [Code "max_decimal_places" None]
    else if maxd - places <? whole_digits then [Code "max_whole_digits" None]
    else [].

(** ** Fields ([django.db.models.fields]) *)

(** What [on_delete] may say in [models.py]. *)
Inductive OnDelete :=
| CASCADE
| SET_NULL.

(** The far end of a foreign key of model [M]: whether the table it
    points to has a row with the given key, the deletion policy, and the
    assignment [SET_NULL] performs on a referring row. *)
Record RemoteField (M T : Type) := mkRemote {
  to : State -> T -> bool;
  on_delete : OnDelete;
  assign : option T -> M -> M;
}.
Arguments to {M T}.
Arguments on_delete {M T}.
Arguments assign {M T}.

(** A field of model [M] holding values of type [T]: the attribute it
    reads, its options, and what its [clean] checks. *)
Record Field (M T : Type) := mkField {
  field_name : string;
  get : M -> option T;
  null : bool;
  blank : bool;
  editable : bool;
  unique : bool;
  empty_value : T -> bool;
  to_python : option T -> list Error;
  choices : option (list (T * string));
  remote_field : option (RemoteField M T);
  validators : list (Validator T);
}.
Arguments field_name {M T}.
Arguments get {M T}.
Arguments null {M T}.
Arguments blank {M T}.
Arguments editable {M T}.
Arguments unique {M T}.
Arguments empty_value {M T}.
Arguments to_python {M T}.
Arguments choices {M T}.
Arguments remote_field {M T}.
Arguments validators {M T}.

Section Field.
Context {M T : Type} `{EqDecision T}.

(** [value in self.empty_values]: [None], and the empty string. *)
Definition is_empty (f : Field M T) (value : option T) : bool :=
  match value with
  | None => true
  | Some x => empty_value f x
  end.

(** [Field.validate], followed by the existence check that
    [ForeignKey.validate] adds.  The first failing check raises. *)
Definition validate (f : Field M T) (st : State) (value : option T) : list Error :=
  if negb (editable f) then []
  else
    match choices f, value with
    | Some options, Some x =>
        if is_empty f value then
          (if negb (blank f) then [Code "blank" None] else [])
        else if existsb (fun kv => bool_decide (x = kv.1)) options then []
        else [Code "invalid_choice" None]
    | _, None =>
        if negb (null f) then [Code "null" None]
        else if negb (blank f) then [Code "blank" None]
        else []
    | None, Some x =>
        if negb (blank f) && empty_value f x then [Code "blank" None]
        else
          match remote_field f with
          | Some r => if to r st x then [] else [Code "invalid" None]
          | None => []
          end
    end.

(** [Field.run_validators]: every validator runs, the errors add up. *)
Definition run_validators (f : Field M T) (st : State) (value : option T) : list Error :=
  match value with
  | Some x => if empty_value f x then [] else flat_map (fun v => v st x) (validators f)
  | None => []
  end.

(** [Field.clean]: conversion, then [validate], then the validators;
    a failing stage raises and ends the field's cleaning. *)
Definition Field_clean (f : Field M T) (st : State) (value : option T) : list Error :=
  match to_python f value with
  | [] =>
      match validate f st value with
      | [] => run_validators f st value
      | errors => errors
      end
  | errors => errors
  end.

(** One round of the loop of [Model.clean_fields]: a blank field with
    an empty value is skipped, the errors of the others are filed
    under the field's name. *)
Definition clean_field (f : Field M T) (st : State) (self : M) : ErrorDict :=
  let raw_value := get f self in
  if blank f && is_empty f raw_value then []
  else map (pair (field_name f)) (Field_clean f st raw_value).
End Field.

(** The field classes [models.py] uses, with the options it sets.  The
    two booleans a class takes are its options [null] and [blank], in
    this order. *)

Definition CharField {M} (name : string) (get : M -> option string)
    (maxlen : Z) (null blank : bool) (choices : option (list (string * string)))
  : Field M string :=
  {| field_name := name; get := get; null := null; blank := blank;
     editable := true; unique := false;
     empty_value := fun s => bool_decide (s = "");
     to_python := fun _ => []; choices := choices; remote_field := None;
     validators := [MaxLengthValidator maxlen] |}.

(** [URLField]: a [CharField] of [max_length] 200 by default, with the
    URL validator first. *)
Definition URLField {M} (name : string) (get : M -> option string)
    (null blank : bool) : Field M string :=
  {| field_name := name; get := get; null := null; blank := blank;
     editable := true; unique := false;
     empty_value := fun s => bool_decide (s = "");
     to_python := fun _ => []; choices := None; remote_field := None;
     validators := [URLValidator; MaxLengthValidator 200] |}.

(** [FileField]: the attribute is the file's name; an instance without a
    file compares equal to the empty string. *)
Definition FileField {M} (name : string) (get : M -> option string)
  : Field M string :=
  {| field_name := name; get := get; null := false; blank := false;
     editable := true; unique := false;
     empty_value := fun s => bool_decide (s = "");
     to_python := fun _ => []; choices := None; remote_field := None;
     validators := [] |}.

Definition IntegerField {M} (kind : InternalType) (name : string)
    (get : M -> option Z) (null blank : bool) (declared : list IntValidator)
  : Field M Z :=
  {| field_name := name; get := get; null := null; blank := blank;
     editable := true; unique := false;
     empty_value := fun _ => false;
     to_python := fun _ => []; choices := None; remote_field := None;
     validators := map call declared ++ range_validators kind declared |}.

Definition SmallIntegerField {M} := @IntegerField M SmallInteger.
Definition PositiveIntegerField {M} := @IntegerField M PositiveInteger.

(** [DecimalField]: its own [DecimalValidator] comes after the declared
    validators. *)
Definition DecimalField {M} (name : string) (get : M -> option Decimal)
    (places maxd : Z) (declared : list (Validator Decimal)) : Field M Decimal :=
  {| field_name := name; get := get; null := false; blank := false;
     editable := true; unique := false;
     empty_value := fun _ => false;
     to_python := fun _ => []; choices := None; remote_field := None;
     validators := declared ++ [DecimalValidator maxd places] |}.

(** [BooleanField] without [null=True]: [to_python] refuses [None]. *)
Definition BooleanField {M} (name : string) (get : M -> option bool)
  : Field M bool :=
  {| field_name := name; get := get; null := false; blank := false;
     editable := true; unique := false;
     empty_value := fun _ => false;
     to_python := fun v => if v is None then [Code "invalid" None] else [];
     choices := None; remote_field := None; validators := [] |}.

(** [DurationField] and [TimeField]: required, no validator. *)
Definition DurationField {M} (name : string) (get : M -> option Z) : Field M Z :=
  {| field_name := name; get := get; null := false; blank := false;
     editable := true; unique := false;
     empty_value := fun _ => false;
     to_python := fun _ => []; choices := None; remote_field := None;
     validators := [] |}.

Definition TimeField {M} := @DurationField M.

(** [DateTimeField] with [auto_now] or [auto_now_add]: these options
    make the field [blank] and not [editable]. *)
Definition DateTimeField {M} (name : string) (get : M -> option datetime)
  : Field M datetime :=
  {| field_name := name; get := get; null := false; blank := true;
     editable := false; unique := false;
     empty_value := fun _ => false;
     to_python := fun _ => []; choices := None; remote_field := None;
     validators := [] |}.

(** [ForeignKey(to, on_delete=...)] on the [_id] attribute. *)
Definition ForeignKey {M} (name : string) (get : M -> option Z)
    (assign : option Z -> M -> M) (to : State -> gset Z) (on_delete : OnDelete)
    (null blank : bool) : Field M Z :=
  {| field_name := name; get := get; null := null; blank := blank;
     editable := true; unique := false;
     empty_value := fun _ => false;
     to_python := fun _ => []; choices := None;
     remote_field :=
       Some {| to := fun st k => bool_decide (k ∈ to st);
               on_delete := on_delete; assign := assign |};
     validators := [] |}.

(** [OneToOneField]: a foreign key that is [unique]. *)
Definition OneToOneField {M} (name : string) (get : M -> option Z)
    (assign : option Z -> M -> M) (to : State -> gset Z) (on_delete : OnDelete)
  : Field M Z :=
  {| field_name := name; get := get; null := false; blank := false;
     editable := true; unique := true;
     empty_value := fun _ => false;
     to_python := fun _ => []; choices := None;
     remote_field :=
       Some {| to := fun st k => bool_decide (k ∈ to st);
               on_delete := on_delete; assign := assign |};
     validators := [] |}.

(** ** Models ([django.db.models.Model]) *)

(** A field of any value type, as [_meta.fields] lists them. *)
Inductive AnyField (M : Type) :=
| field {T : Type} `{EqDecision T} (f : Field M T).
Arguments field {M T _} f.

Definition name_of {M} (a : AnyField M) : string :=
  match a with field f => field_name f end.

Definition is_null {M} (a : AnyField M) (self : M) : bool :=
  match a with field f => bool_decide (get f self = None) end.

(** The two rows hold the same value in the column. *)
Definition same_value {M} (a : AnyField M) (r self : M) : bool :=
  match a with field f => bool_decide (get f r = get f self) end.

Record UniqueConstraint := mkUniqueConstraint {
  fields : list string;
  name : string;
}.

(** What a model class declares: its table, its columns other than the
    automatic [id], [Meta.constraints], its [clean] method and what the
    columns do in [pre_save]. *)
Class Model (M : Type) := {
  objects : State -> gmap Z M;
  write : gmap Z M -> State -> State;
  _meta_fields : list (AnyField M);
  constraints : list UniqueConstraint;
  clean : M -> list Error;
  pre_save : State -> bool -> M -> M;
}.

(** A Python instance: the primary key, [_state.adding] (true until the
    instance is saved or when it was not loaded from the database) and
    the other attributes. *)
Record Instance (M : Type) := mkInstance {
  pk : option Z;
  adding : bool;
  attrs : M;
}.
Arguments mkInstance {M}.
Arguments pk {M}.
Arguments adding {M}.
Arguments attrs {M}.

Section Model.
Context {M : Type} `{Model M}.

(** The automatic primary key column [id]: blank, and an integer
    field with the range of the backend's auto field. *)
Definition id_field : Field (Instance M) Z :=
  IntegerField AutoInteger "id" pk false true [].

(** [Model.clean_fields]: every column is cleaned, [id] first. *)
Definition clean_fields (st : State) (self : Instance M) : ErrorDict :=
  clean_field id_field st self
  ++ flat_map (fun a => match a with field f => clean_field f st (attrs self) end)
       _meta_fields.

(** [_meta.get_field(name)]. *)
Definition get_field (n : string) : option (AnyField M) :=
  List.find (fun a => bool_decide (name_of a = n)) _meta_fields.

(** The rows a uniqueness lookup searches: all of the table, less the
    instance's own row when the instance is not being added. *)
Definition other_rows (st : State) (self : Instance M) : gmap Z M :=
  match pk self with
  | Some k => if adding self then objects st else delete k (objects st)
  | None => objects st
  end.

(** Some row holds, in each of the named columns, the value the
    instance holds. *)
Definition row_exists (names : list string) (rows : gmap Z M) (self : M) : bool :=
  existsb
    (fun kr => forallb
                 (fun n => match get_field n with
                           | Some a => same_value a kr.2 self
                           | None => false
                           end) names)
    (map_to_list rows).

(** No lookup is made when a column is excluded or holds [None]:
    NULL is distinct from NULL in SQL. *)
Definition lookup_skipped (names exclude : list string) (self : M) : bool :=
  existsb
    (fun n => bool_decide (n ∈ exclude)
              || match get_field n with
                 | Some a => is_null a self
                 | None => true
                 end) names.

(** [Model.validate_unique]: the primary key of an instance that is
    being added, then every [unique] column. *)
Definition validate_unique (st : State) (self : Instance M) (exclude : list string)
  : ErrorDict :=
  (match pk self with
   | Some k =>
       if adding self && negb (bool_decide ("id" ∈ exclude))
          && bool_decide (k ∈ dom (objects st))
       then [("id", Code "unique" None)] else []
   | None => []
   end)
  ++ flat_map
       (fun a =>
          if match a with field f => unique f end
             && negb (lookup_skipped [name_of a] exclude (attrs self))
             && row_exists [name_of a] (other_rows st self) (attrs self)
          then [(name_of a, Code "unique" None)] else [])
       _meta_fields.

(** [UniqueConstraint.validate] for a constraint on columns. *)
Definition UniqueConstraint_validate (c : UniqueConstraint) (st : State)
    (self : Instance M) (exclude : list string) : ErrorDict :=
  if lookup_skipped (fields c) exclude (attrs self) then []
  else if row_exists (fields c) (other_rows st self) (attrs self)
       then [(NON_FIELD_ERRORS, Code "unique_together" None)]
       else [].

(** [Model.validate_constraints]. *)
Definition validate_constraints (st : State) (self : Instance M)
    (exclude : list string) : ErrorDict :=
  flat_map (fun c => UniqueConstraint_validate c st self exclude) constraints.

(** [Model.full_clean]: the four stages all run; the columns that
    failed are excluded from the uniqueness and constraint checks; the
    collected errors are raised together. *)
Definition full_clean_errors (st : State) (self : Instance M) : ErrorDict :=
  let errors1 := clean_fields st self in
  let errors2 := errors1 ++ map (pair NON_FIELD_ERRORS) (clean (attrs self)) in
  let errors3 := errors2 ++ validate_unique st self (map fst errors2) in
  errors3 ++ validate_constraints st self (map fst errors3).

Definition full_clean (self : Instance M) : Request () :=
  fun st =>
    match full_clean_errors st self with
    | [] => (Return (), st)
    | errors => (Raise (ValidationError errors), st)
    end.

(** What the database enforces on the row written under key [k]: NOT
    NULL, the foreign keys, the unique columns and the unique
    constraints, the last two with SQL's reading of NULL. *)
Definition integrity (st : State) (k : Z) (row : M) : bool :=
  let rows := delete k (objects st) in
  forallb
    (fun a =>
       match a with
       | field f =>
           match get f row with
           | None => null f
           | Some x =>
               match remote_field f with
               | Some r => to r st x
               | None => true
               end
               && negb (unique f && row_exists [field_name f] rows row)
           end
       end) _meta_fields
  && forallb
       (fun c => lookup_skipped (fields c) [] row
                 || negb (row_exists (fields c) rows row))
       constraints.

(** [Model.save] of the framework ([super().save()] in [models.py])
    with its default arguments: an UPDATE of the row of the primary
    key if there is one, an INSERT otherwise, under a new key when the
    instance has none.  The write that breaks the schema raises. *)
Definition Model_save (self : Instance M) : Request (Instance M) :=
  fun st =>
    let k := match pk self with
             | Some k => k
             | None => fresh (dom (objects st))
             end in
    let add := negb (bool_decide (k ∈ dom (objects st))) in
    let row := pre_save st add (attrs self) in
    if integrity st k row
    then (Return (mkInstance (Some k) false row),
          write (<[k := row]> (objects st)) st)
    else (Raise IntegrityError, st).

End Model.

(** [class ValidatedModel(models.Model)]: the abstract base of the seven
    models, which automatically validates the model. *)
Module ValidatedModel.
Section ValidatedModel.
Context {M : Type} `{Model M}.

(** [save]: call validation on save, that is [self.full_clean()], then
    [super().save] with the caller's arguments. *)
Definition save (self : Instance M) : Request (Instance M) :=
  full_clean self ;; Model_save self.
End ValidatedModel.
End ValidatedModel.

(** * The declarations of [models.py] *)

(** [less_than_five]: raise an error if the value is 5 or greater. *)
Definition less_than_five : Validator Decimal :=
  fun _ value =>
    if Decimal_ge value 5
    then [Message "The price must be lower than 5 euros."]
    else [].

(** [get_current_year]: [datetime.datetime.today().year]. *)
Definition get_current_year (st : State) : Z := year (today st).

(** ** class Author *)

Definition Author_name : Field Author.t string :=
  CharField "name" Author.name 255 false false None.

Definition Author_website : Field Author.t string :=
  URLField "website" Author.website true true.

Definition Author_first_appearance : Field Author.t Z :=
  SmallIntegerField "first_appearance" Author.first_appearance true true
    [MinValueValidator (Constant 1000);
     MaxValueValidator (Callable get_current_year)].

Definition Author_last_appearance : Field Author.t Z :=
  SmallIntegerField "last_appearance" Author.last_appearance true true
    [MinValueValidator (Constant 1000);
     MaxValueValidator (Callable get_current_year)].

(** [Author.clean]: the comparison is reached only when both years are
    true in Python's sense, that is neither [None] nor [0]. *)
Definition Author_clean (self : Author.t) : list Error :=
  if truthy (Author.first_appearance self) && truthy (Author.last_appearance self)
     && match Author.first_appearance self, Author.last_appearance self with
        | Some first, Some last => last <? first
        | _, _ => false
        end
  then [Message "The year of first appearance must be equal or lower to the year of last appearance."]
  else [].

#[export] Instance Author_Model : Model Author.t := {|
  objects := authors;
  write := set_authors;
  _meta_fields := [field Author_name; field Author_website;
                   field Author_first_appearance; field Author_last_appearance];
  constraints := [];
  clean := Author_clean;
  pre_save := fun _ _ self => self;
|}.

(** ** class Musician *)

Definition INSTRUMENTS : list (string * string) :=
  [("piano", "Piano"); ("eguitar", "Electric Guitar");
   ("cguitar", "Classical Guitar"); ("aguitar", "Acoustic Guitar");
   ("ebass", "Electric Bass"); ("bass", "Bass"); ("drums", "Drums");
   ("voice", "Voice"); ("violin", "Violin"); ("harp", "Harp");
   ("handpan", "Handpan"); ("tambourine", "Tambourine"); ("sax", "Saxophone");
   ("trumpet", "Trumpet"); ("trombone", "Trombone"); ("flute", "Flute");
   ("clarinet", "Clarinet"); ("ukulele", "Ukulele")].

Definition Musician_name : Field Musician.t string :=
  CharField "name" Musician.name 150 false false None.

Definition Musician_nationality : Field Musician.t string :=
  CharField "nationality" Musician.nationality 2 false false None.

Definition Musician_instrument : Field Musician.t string :=
  CharField "instrument" Musician.instrument 25 false false (Some INSTRUMENTS).

Definition Musician_author : Field Musician.t Z :=
  ForeignKey "author" Musician.author Musician.set_author
    (fun st => dom (authors st)) CASCADE false false.

#[export] Instance Musician_Model : Model Musician.t := {|
  objects := musicians;
  write := set_musicians;
  _meta_fields := [field Musician_name; field Musician_nationality;
                   field Musician_instrument; field Musician_author];
  constraints := [];
  clean := fun _ => [];
  pre_save := fun _ _ self => self;
|}.

(** ** class Album *)

Definition Album_title : Field Album.t string :=
  CharField "title" Album.title 255 false false None.

Definition Album_year_of_release : Field Album.t Z :=
  SmallIntegerField "year_of_release" Album.year_of_release false false
    [MinValueValidator (Constant 1000);
     MaxValueValidator (Callable get_current_year)].

Definition Album_produced_by : Field Album.t string :=
  CharField "produced_by" Album.produced_by 255 true true None.

#[export] Instance Album_Model : Model Album.t := {|
  objects := albums;
  write := set_albums;
  _meta_fields := [field Album_title; field Album_year_of_release;
                   field Album_produced_by];
  constraints := [];
  clean := fun _ => [];
  pre_save := fun _ _ self => self;
|}.

(** ** class Song *)

Definition STYLES : list (string * string) :=
  [("Indie", "Indie"); ("Pop", "Pop"); ("Rock", "Rock"); ("Funky", "Funky");
   ("Reggaeton", "Reggaeton"); ("Classic", "Classic");
   ("Orquestra", "Orquestra"); ("Folk", "Folk")].

Definition Song_audio : Field Song.t string :=
  FileField "audio" Song.audio.

Definition Song_title : Field Song.t string :=
  CharField "title" Song.title 250 false false None.

Definition Song_author : Field Song.t Z :=
  ForeignKey "author" Song.author Song.set_author
    (fun st => dom (authors st)) SET_NULL true true.

Definition Song_album : Field Song.t Z :=
  ForeignKey "album" Song.album Song.set_album
    (fun st => dom (albums st)) CASCADE true true.

Definition Song_duration : Field Song.t Z :=
  DurationField "duration" Song.duration.

Definition Song_style : Field Song.t string :=
  CharField "style" Song.style 20 true true (Some STYLES).

Definition Song_playbacks : Field Song.t Z :=
  PositiveIntegerField "playbacks" Song.playbacks true true [].

Definition Song_price : Field Song.t Decimal :=
  DecimalField "price" Song.price 2 4 [less_than_five].

Definition Song_deal_of_the_day : Field Song.t bool :=
  BooleanField "deal_of_the_day" Song.deal_of_the_day.

Definition Song_created : Field Song.t datetime :=
  DateTimeField "created" Song.created.

Definition Song_created_by : Field Song.t Z :=
  ForeignKey "created_by" Song.created_by Song.set_created_by
    users SET_NULL true true.

Definition Song_last_modified : Field Song.t datetime :=
  DateTimeField "last_modified" Song.last_modified.

Definition Song_last_modified_by : Field Song.t Z :=
  ForeignKey "last_modified_by" Song.last_modified_by Song.set_last_modified_by
    users SET_NULL true true.

(** [Song.Meta.constraints]. *)
Definition unique_song : UniqueConstraint :=
  {| fields := ["title"; "author"; "album"; "duration"]; name := "unique_song" |}.

(** [auto_now_add] stamps [created] when the row is inserted, [auto_now]
    stamps [last_modified] at every save. *)
Definition Song_pre_save (st : State) (add : bool) (self : Song.t) : Song.t :=
  Song.set_last_modified (Some (today st))
    (if add then Song.set_created (Some (today st)) self else self).

#[export] Instance Song_Model : Model Song.t := {|
  objects := songs;
  write := set_songs;
  _meta_fields := [field Song_audio; field Song_title; field Song_author;
                   field Song_album; field Song_duration; field Song_style;
                   field Song_playbacks; field Song_price;
                   field Song_deal_of_the_day; field Song_created;
                   field Song_created_by; field Song_last_modified;
                   field Song_last_modified_by];
  constraints := [unique_song];
  clean := fun _ => [];
  pre_save := Song_pre_save;
|}.

(** ** class Profile *)

Definition Profile_user : Field Profile.t Z :=
  OneToOneField "user" Profile.user Profile.set_user users CASCADE.

Definition Profile_daily_start_time : Field Profile.t Z :=
  TimeField "daily_start_time" Profile.daily_start_time.

Definition Profile_daily_finish_time : Field Profile.t Z :=
  TimeField "daily_finish_time" Profile.daily_finish_time.

Definition Profile_preferred_style : Field Profile.t string :=
  CharField "preferred_style" Profile.preferred_style 30 false false (Some STYLES).

Definition Profile_preferred_song : Field Profile.t Z :=
  ForeignKey "preferred_song" Profile.preferred_song Profile.set_preferred_song
    (fun st => dom (songs st)) SET_NULL true true.

#[export] Instance Profile_Model : Model Profile.t := {|
  objects := profiles;
  write := set_profiles;
  _meta_fields := [field Profile_user; field Profile_daily_start_time;
                   field Profile_daily_finish_time; field Profile_preferred_style;
                   field Profile_preferred_song];
  constraints := [];
  clean := fun _ => [];
  pre_save := fun _ _ self => self;
|}.

(** ** class RelationshipAuthorMusician *)

Definition RelationshipAuthorMusician_author
  : Field RelationshipAuthorMusician.t Z :=
  ForeignKey "author" RelationshipAuthorMusician.author
    RelationshipAuthorMusician.set_author
    (fun st => dom (authors st)) CASCADE false false.

Definition RelationshipAuthorMusician_musician
  : Field RelationshipAuthorMusician.t Z :=
  ForeignKey "musician" RelationshipAuthorMusician.musician
    RelationshipAuthorMusician.set_musician
    (fun st => dom (musicians st)) CASCADE false false.

Definition RelationshipAuthorMusician_start
  : Field RelationshipAuthorMusician.t Z :=
  SmallIntegerField "start" RelationshipAuthorMusician.start true true [].

Definition RelationshipAuthorMusician_end
  : Field RelationshipAuthorMusician.t Z :=
  SmallIntegerField "end" RelationshipAuthorMusician.end_ true true [].

#[export] Instance RelationshipAuthorMusician_Model
  : Model RelationshipAuthorMusician.t := {|
  objects := author_musicians;
  write := set_author_musicians;
  _meta_fields := [field RelationshipAuthorMusician_author;
                   field RelationshipAuthorMusician_musician;
                   field RelationshipAuthorMusician_start;
                   field RelationshipAuthorMusician_end];
  constraints := [];
  clean := fun _ => [];
  pre_save := fun _ _ self => self;
|}.

(** ** class RelationshipAuthorSong *)

Definition RelationshipAuthorSong_author : Field RelationshipAuthorSong.t Z :=
  ForeignKey "author" RelationshipAuthorSong.author
    RelationshipAuthorSong.set_author
    (fun st => dom (authors st)) CASCADE false false.

Definition RelationshipAuthorSong_song : Field RelationshipAuthorSong.t Z :=
  ForeignKey "song" RelationshipAuthorSong.song
    RelationshipAuthorSong.set_song
    (fun st => dom (songs st)) CASCADE false false.

#[export] Instance RelationshipAuthorSong_Model
  : Model RelationshipAuthorSong.t := {|
  objects := author_songs;
  write := set_author_songs;
  _meta_fields := [field RelationshipAuthorSong_author;
                   field RelationshipAuthorSong_song];
  constraints := [];
  clean := fun _ => [];
  pre_save := fun _ _ self => self;
|}.

(** * Deletion ([django.db.models.deletion.Collector]) *)

(** The row refers, through the foreign key, to one of the keys. *)
Definition refers {M} (f : Field M Z) (keys : gset Z) (row : M) : bool :=
  match get f row with
  | Some k => bool_decide (k ∈ keys)
  | None => false
  end.

(** [CASCADE]: the keys of the rows that go with the rows they refer
    to.  A foreign key of another policy collects none. *)
Definition cascade {M} (f : Field M Z) (keys : gset Z) (table : gmap Z M) : gset Z :=
  match remote_field f with
  | Some r =>
      match on_delete r with
      | CASCADE => dom (filter (fun kr => refers f keys kr.2 = true) table)
      | SET_NULL => ∅
      end
  | None => ∅
  end.

(** [SET_NULL]: the update that clears the column in the rows that
    refer to a deleted row.  A foreign key of another policy updates
    nothing. *)
Definition field_update {M} (f : Field M Z) (keys : gset Z) (table : gmap Z M)
  : gmap Z M :=
  match remote_field f with
  | Some r =>
      match on_delete r with
      | SET_NULL =>
          (fun row => if refers f keys row then assign r None row else row)
            <$> table
      | CASCADE => table
      end
  | None => table
  end.

(** The DELETE of the collected keys. *)
Definition delete_batch {M} (keys : gset Z) (table : gmap Z M) : gmap Z M :=
  filter (fun kr => kr.1 ∉ keys) table.

(** The keys to delete, table by table. *)
Record Collected := mkCollected {
  del_users : gset Z;
  del_authors : gset Z;
  del_musicians : gset Z;
  del_albums : gset Z;
  del_songs : gset Z;
  del_profiles : gset Z;
  del_author_musicians : gset Z;
  del_author_songs : gset Z;
}.

(** [Collector.collect]: from the rows asked for, follow every foreign
    key that points at a collected row.  The models that are referred to
    come before those that refer to them, so one pass reaches all. *)
Definition collect (seed : Collected) (st : State) : Collected :=
  let us := del_users seed in
  let au := del_authors seed in
  let al := del_albums seed in
  let mu := del_musicians seed ∪ cascade Musician_author au (musicians st) in
  let so := del_songs seed
            ∪ cascade Song_author au (songs st)
            ∪ cascade Song_album al (songs st)
            ∪ cascade Song_created_by us (songs st)
            ∪ cascade Song_last_modified_by us (songs st) in
  let pr := del_profiles seed
            ∪ cascade Profile_user us (profiles st)
            ∪ cascade Profile_preferred_song so (profiles st) in
  let am := del_author_musicians seed
            ∪ cascade RelationshipAuthorMusician_author au (author_musicians st)
            ∪ cascade RelationshipAuthorMusician_musician mu (author_musicians st) in
  let aso := del_author_songs seed
             ∪ cascade RelationshipAuthorSong_author au (author_songs st)
             ∪ cascade RelationshipAuthorSong_song so (author_songs st) in
  mkCollected us au mu al so pr am aso.

(** [Collector.delete]: the field updates, then the deletions. *)
Definition Collector_delete (c : Collected) (st : State) : State :=
  mkState (today st) (connection st) (url_regex st)
    (users st ∖ del_users c)
    (delete_batch (del_authors c) (authors st))
    (delete_batch (del_musicians c)
       (field_update Musician_author (del_authors c) (musicians st)))
    (delete_batch (del_albums c) (albums st))
    (delete_batch (del_songs c)
       (field_update Song_last_modified_by (del_users c)
          (field_update Song_created_by (del_users c)
             (field_update Song_album (del_albums c)
                (field_update Song_author (del_authors c) (songs st))))))
    (delete_batch (del_profiles c)
       (field_update Profile_preferred_song (del_songs c)
          (field_update Profile_user (del_users c) (profiles st))))
    (delete_batch (del_author_musicians c)
       (field_update RelationshipAuthorMusician_musician (del_musicians c)
          (field_update RelationshipAuthorMusician_author (del_authors c)
             (author_musicians st))))
    (delete_batch (del_author_songs c)
       (field_update RelationshipAuthorSong_song (del_songs c)
          (field_update RelationshipAuthorSong_author (del_authors c)
             (author_songs st)))).

(** [Model.delete] of the row of key [k], for each model. *)
Definition Author_delete (k : Z) : Request () :=
  fun st =>
    let seed := mkCollected ∅ {[k]} ∅ ∅ ∅ ∅ ∅ ∅ in
    (Return (), Collector_delete (collect seed st) st).

Definition Musician_delete (k : Z) : Request () :=
  fun st =>
    let seed := mkCollected ∅ ∅ {[k]} ∅ ∅ ∅ ∅ ∅ in
    (Return (), Collector_delete (collect seed st) st).

Definition Album_delete (k : Z) : Request () :=
  fun st =>
    let seed := mkCollected ∅ ∅ ∅ {[k]} ∅ ∅ ∅ ∅ in
    (Return (), Collector_delete (collect seed st) st).

Definition Song_delete (k : Z) : Request () :=
  fun st =>
    let seed := mkCollected ∅ ∅ ∅ ∅ {[k]} ∅ ∅ ∅ in
    (Return (), Collector_delete (collect seed st) st).

(** The deletion of a user of [settings.AUTH_USER_MODEL]. *)
Definition User_delete (k : Z) : Request () :=
  fun st =>
    let seed := mkCollected {[k]} ∅ ∅ ∅ ∅ ∅ ∅ ∅ in
    (Return (), Collector_delete (collect seed st) st).

(** * Many-to-many managers ([ManyRelatedManager]) *)

Section ManyRelatedManager.
Context {TM : Type} `{Model TM}.

(** The manager of one instance: the two foreign keys of the through
    model, how a through row is built from the two keys, and the
    primary key of the instance the manager belongs to. *)
Record ManyRelatedManager := mkManager {
  source_field : Field TM Z;
  target_field : Field TM Z;
  through : Z -> Z -> TM;
  related_val : Z;
}.

(** INSERT of one row under a new key. *)
Definition insert (obj : TM) : Request () :=
  fun st =>
    let k := fresh (dom (objects st)) in
    let row := pre_save st true obj in
    if integrity st k row
    then (Return (), write (<[k := row]> (objects st)) st)
    else (Raise IntegrityError, st).

(** [QuerySet.bulk_create]: the rows are inserted without a call of
    their [save] method. *)
Fixpoint bulk_create (objs : list TM) : Request () :=
  match objs with
  | [] => mret ()
  | obj :: rest => insert obj ;; bulk_create rest
  end.

(** [transaction.atomic]: an exception undoes what was written. *)
Definition atomic {A} (m : Request A) : Request A :=
  fun st =>
    match m st with
    | (Raise e, _) => (Raise e, st)
    | r => r
    end.

(** [_get_missing_target_ids]: the targets not yet related to the
    instance. *)
Definition missing_target_ids (m : ManyRelatedManager) (target_ids : gset Z)
    (st : State) : gset Z :=
  let vals :=
    omap (fun row =>
            if bool_decide (get (source_field m) row = Some (related_val m))
            then match get (target_field m) row with
                 | Some t => if bool_decide (t ∈ target_ids) then Some t else None
                 | None => None
                 end
            else None)
      (map_to_list (objects st)).*2 in
  target_ids ∖ list_to_set vals.

(** [manager.add(ids)]: the ids become a set, and one through row
    is created for each that is not related yet. *)
Definition add (m : ManyRelatedManager) (ids : list Z) : Request () :=
  fun st =>
    let target_ids : gset Z := list_to_set ids in
    atomic
      (bulk_create
         (map (through m (related_val m))
            (elements (missing_target_ids m target_ids st)))) st.

(** [manager.all()]: the join of the target table with the through
    rows of the instance; the result holds the primary key of one
    target per through row. *)
Definition all (m : ManyRelatedManager) (st : State) : list Z :=
  omap (fun row =>
          if bool_decide (get (source_field m) row = Some (related_val m))
          then match get (target_field m) row, remote_field (target_field m) with
               | Some t, Some r => if to r st t then Some t else None
               | _, _ => None
               end
          else None)
    (map_to_list (objects st)).*2.
End ManyRelatedManager.
Arguments ManyRelatedManager TM : clear implicits.

(** [song.authors], declared by
    [ManyToManyField(to=Author, through='RelationshipAuthorSong')], for
    the song of primary key [song]. *)
Definition Song_authors (song : Z) : ManyRelatedManager RelationshipAuthorSong.t :=
  {| source_field := RelationshipAuthorSong_song;
     target_field := RelationshipAuthorSong_author;
     through := fun s a => RelationshipAuthorSong.mk (Some a) (Some s);
     related_val := song |}.

(** [author.song_authors], the reverse manager ([related_name]). *)
Definition Author_song_authors (author : Z)
  : ManyRelatedManager RelationshipAuthorSong.t :=
  {| source_field := RelationshipAuthorSong_author;
     target_field := RelationshipAuthorSong_song;
     through := fun a s => RelationshipAuthorSong.mk (Some a) (Some s);
     related_val := author |}.

(** [musician.authors], through [RelationshipAuthorMusician]; the years
    of a row that [add] creates are left unset. *)
Definition Musician_authors (musician : Z)
  : ManyRelatedManager RelationshipAuthorMusician.t :=
  {| source_field := RelationshipAuthorMusician_musician;
     target_field := RelationshipAuthorMusician_author;
     through := fun m a => RelationshipAuthorMusician.mk (Some a) (Some m) None None;
     related_val := musician |}.

(** [author.authors], the reverse manager: the musicians of an author. *)
Definition Author_authors (author : Z)
  : ManyRelatedManager RelationshipAuthorMusician.t :=
  {| source_field := RelationshipAuthorMusician_author;
     target_field := RelationshipAuthorMusician_musician;
     through := fun a m => RelationshipAuthorMusician.mk (Some a) (Some m) None None;
     related_val := author |}.

(** * A concrete world

    The backend ranges are those the SQLite backend reports; the clock
    stands in May 2024.  The catalogue holds the authors and songs of
    the shell sessions quoted at the end of [models.py]. *)

Definition sqlite : DatabaseWrapper :=
  {| integer_field_range := fun kind =>
       match kind with
       | PositiveInteger => (0, 9223372036854775807)
       | _ => (-9223372036854775808, 9223372036854775807)
       end |}.

Definition may_2024 : datetime := mkDatetime 2024 5 17 36000.

Definition empty_world : State :=
  mkState may_2024 sqlite (fun _ => true) ∅ ∅ ∅ ∅ ∅ ∅ ∅ ∅.

Definition band (n : string) : Author.t := Author.mk (Some n) None None None.

Definition track (t : string) (author album : option Z) : Song.t :=
  Song.mk (Some "audio/track.mp3") (Some t) author album (Some 215000000)
    (Some "Rock") None (Some (mkDecimal false [4; 9; 9] (-2))) (Some false)
    None None None None.

Definition catalogue : State :=
  mkState may_2024 sqlite (fun _ => true) ∅
    (list_to_map [(10, band "Ten"); (30, band "Thirty"); (40, band "Forty")])
    (list_to_map
       [(1, Musician.mk (Some "Noah Garcia") (Some "US") (Some "clarinet") (Some 30));
        (2, Musician.mk (Some "Liam Perez") (Some "ES") (Some "piano") (Some 10))])
    (list_to_map [(7, Album.mk (Some "Seven") (Some 2000) None)])
    (list_to_map
       [(15, track "Fifteen" (Some 30) None);
        (16, track "Sixteen" (Some 30) (Some 7));
        (17, track "Seventeen" None (Some 7))])
    ∅
    (list_to_map [(1, RelationshipAuthorMusician.mk (Some 10) (Some 1) None None)])
    (list_to_map [(1, RelationshipAuthorSong.mk (Some 10) (Some 15))]).

(** A song without an album, a through row with years far from the
    calendar, and a musician with a one-letter nationality. *)
Definition eighteen : Song.t := track "Eighteen" (Some 30) None.

Definition early_member : RelationshipAuthorMusician.t :=
  RelationshipAuthorMusician.mk (Some 10) (Some 2) (Some 999) (Some 3000).

Definition one_letter : Musician.t :=
  Musician.mk (Some "Arnold Hutticher") (Some "D") (Some "trombone") (Some 40).

(** * A world with users

    The catalogue has no users and its songs carry no dates. *)

(** The clock moves; the tables stay. *)
Definition set_today (t : datetime) (st : State) : State :=
  mkState t (connection st) (url_regex st) (users st) (authors st)
    (musicians st) (albums st) (songs st) (profiles st)
    (author_musicians st) (author_songs st).

(** A world with two users, the first of whom has a profile. *)
Definition listeners : State :=
  mkState may_2024 sqlite (fun _ => true) {[1; 2]}
    (authors catalogue) (musicians catalogue) (albums catalogue)
    (songs catalogue)
    {[1 := Profile.mk (Some 1) (Some 32400) (Some 50400) (Some "Rock") None]}
    (author_musicians catalogue) (author_songs catalogue).

(** The listeners' world with every song stamped as an INSERT stamps
    it. *)
Definition library : State :=
  set_songs (Song_pre_save listeners true <$> songs listeners) listeners.

(** * The schema as an invariant *)

Section Schema.
Context {M : Type} `{Model M}.

(** The row [r] holds the values of [self] in the named columns: the
    test [row_exists] makes of each row. *)
Definition matches (names : list string) (r self : M) : bool :=
  forallb (fun n => match get_field n with
                    | Some a => same_value a r self
                    | None => false
                    end) names.

(** Every row of the model's table passes what the database enforces
    on it. *)
Definition rows_sound (st : State) : Prop :=
  forall k row, objects st !! k = Some row -> integrity st k row = true.

(** The rows a foreign key of the model may refer to stay from [st] to
    [st']. *)
Definition targets_stay (st st' : State) : Prop :=
  Forall (fun a : AnyField M =>
            match a with
            | field f =>
                forall r x, remote_field f = Some r ->
                            to r st x = true -> to r st' x = true
            end) _meta_fields.

(** The lookup of a unique column compares the column itself. *)
Definition unique_lookups : Prop :=
  Forall (fun a : AnyField M =>
            match a with
            | field f =>
                unique f = true ->
                forall r self, matches [field_name f] r self = true ->
                               get f r = get f self
            end) _meta_fields.
End Schema.

(** The schema holds of every row of the seven tables: no column that
    is NOT NULL is empty, every foreign key names a stored row, no two
    profiles have the same user, and no two songs hold the same values
    in the four columns of [unique_song] unless one of the four is
    NULL. *)
Definition sound (st : State) : Prop :=
  rows_sound (M := Author.t) st
  /\ rows_sound (M := Musician.t) st
  /\ rows_sound (M := Album.t) st
  /\ rows_sound (M := Song.t) st
  /\ rows_sound (M := Profile.t) st
  /\ rows_sound (M := RelationshipAuthorMusician.t) st
  /\ rows_sound (M := RelationshipAuthorSong.t) st.

(** No row that can be referred to goes from [st] to [st']. *)
Definition grows (st st' : State) : Prop :=
  users st ⊆ users st'
  /\ dom (authors st) ⊆ dom (authors st')
  /\ dom (musicians st) ⊆ dom (musicians st')
  /\ dom (albums st) ⊆ dom (albums st')
  /\ dom (songs st) ⊆ dom (songs st').

(** What the three [SET_NULL] foreign keys of Song make of a row when
    the authors [au] and the users [us] are deleted. *)
Definition Song_cleared (au us : gset Z) (row : Song.t) : Song.t :=
  let row1 :=
    if refers Song_author au row then Song.set_author None row else row in
  let row2 :=
    if refers Song_created_by us row1
    then Song.set_created_by None row1 else row1 in
  if refers Song_last_modified_by us row2
  then Song.set_last_modified_by None row2 else row2.

(** What the [SET_NULL] foreign key of Profile makes of a row when the
    songs [so] are deleted. *)
Definition Profile_cleared (so : gset Z) (row : Profile.t) : Profile.t :=
  if refers Profile_preferred_song so row
  then Profile.set_preferred_song None row else row.

(** * A query across a relation *)

(** [Musician.objects.filter(authors__id=author).values('name',
    'instrument')]: the join of the musicians with the through rows of
    the author, one entry per through row. *)
Definition Musician_filter_authors_id_values (author : Z) (st : State)
  : list (option string * option string) :=
  omap (fun row =>
          if bool_decide (RelationshipAuthorMusician.author row = Some author)
          then match RelationshipAuthorMusician.musician row with
               | Some m =>
                   (fun player => (Musician.name player,
                                   Musician.instrument player))
                     <$> musicians st !! m
               | None => None
               end
          else None)
    (map_to_list (author_musicians st)).*2.

(** * Properties *)

(** ** Lists of errors *)

Lemma elem_of_flat_map {A B} (f : A -> list B) (l : list A) (y : B) :
  y ∈ flat_map f l <-> exists x, x ∈ l /\ y ∈ f x.
Proof.
  rewrite list_elem_of_In, in_flat_map.
  split; intros (x & Hx & Hy); exists x.
  - by rewrite !list_elem_of_In.
  - by rewrite <- !list_elem_of_In.
Qed.

Lemma flat_map_nil_inv {A B} (f : A -> list B) (l : list A) (x : A) :
  flat_map f l = [] -> x ∈ l -> f x = [].
Proof.
  intros Hnil Hx. destruct (f x) as [|y ys] eqn:Hfx; [done|].
  assert (y ∈ flat_map f l) as Hy.
  { apply elem_of_flat_map. exists x. split; [done|]. rewrite Hfx. left. }
  rewrite Hnil in Hy. by apply not_elem_of_nil in Hy.
Qed.

Lemma elem_of_not_nil {A} (x : A) (l : list A) : x ∈ l -> l <> [].
Proof. intros Hx ->. by apply not_elem_of_nil in Hx. Qed.

(** ** What [save] does with the outcome of [full_clean] *)

Section SaveFacts.
Context {M : Type} `{Model M}.
Implicit Types (self : Instance M) (st : State).

Lemma save_raises self st :
  full_clean_errors st self <> [] ->
  ValidatedModel.save self st
  = (Raise (ValidationError (full_clean_errors st self)), st).
Proof.
  intros Hne. unfold ValidatedModel.save, mbind, Request_bind, full_clean.
  by destruct (full_clean_errors st self).
Qed.

Lemma save_writes self st :
  full_clean_errors st self = [] -> ValidatedModel.save self st = Model_save self st.
Proof.
  intros Hnil. unfold ValidatedModel.save, mbind, Request_bind, full_clean.
  by rewrite Hnil.
Qed.

Lemma clean_fields_in_full_clean self st e :
  e ∈ clean_fields st self -> e ∈ full_clean_errors st self.
Proof.
  intros He. unfold full_clean_errors. cbv zeta. rewrite !elem_of_app. auto.
Qed.

Lemma clean_in_full_clean self st e :
  e ∈ clean (attrs self) -> (NON_FIELD_ERRORS, e) ∈ full_clean_errors st self.
Proof.
  intros He. unfold full_clean_errors.
  assert ((NON_FIELD_ERRORS, e) ∈ map (pair NON_FIELD_ERRORS) (clean (attrs self))).
  { apply list_elem_of_In, in_map. by apply list_elem_of_In. }
  cbv zeta. rewrite !elem_of_app. auto.
Qed.

Lemma validate_unique_in_full_clean self st e :
  e ∈ validate_unique st self
        (map fst (clean_fields st self
                  ++ map (pair NON_FIELD_ERRORS) (clean (attrs self)))) ->
  e ∈ full_clean_errors st self.
Proof.
  intros He. unfold full_clean_errors. cbv zeta. rewrite !elem_of_app. auto.
Qed.

Lemma field_in_clean_fields {T} `{EqDecision T} (f : Field M T) self st e :
  field f ∈ _meta_fields ->
  e ∈ clean_field f st (attrs self) -> e ∈ clean_fields st self.
Proof.
  intros Hf He. unfold clean_fields. apply elem_of_app. right.
  apply elem_of_flat_map. by exists (field f).
Qed.

(** A failing column makes [save] raise and leave the state alone. *)
Lemma save_rejects_field {T} `{EqDecision T} (f : Field M T) self st e :
  field f ∈ _meta_fields ->
  e ∈ clean_field f st (attrs self) ->
  exists errors,
    e ∈ errors /\ ValidatedModel.save self st = (Raise (ValidationError errors), st).
Proof.
  intros Hf He. exists (full_clean_errors st self).
  assert (e ∈ full_clean_errors st self) as Hin
    by eauto using clean_fields_in_full_clean, field_in_clean_fields.
  split; [done|]. apply save_raises. by eapply elem_of_not_nil.
Qed.
End SaveFacts.

(** C1.  For every model and every instance, [save] runs the field
    checks, [clean], the uniqueness checks and the constraint checks
    before it writes: the errors of each stage are among those of
    [full_clean]; if there is any, [save] raises a [ValidationError]
    carrying them and the state is the one before the call; only when
    there is none does the framework's write run. *)
Theorem save_validates_before_writing {M : Type} `{Model M}
    (self : Instance M) (st : State) :
  (forall e, e ∈ clean_fields st self -> e ∈ full_clean_errors st self)
  /\ (forall e, e ∈ clean (attrs self) ->
                (NON_FIELD_ERRORS, e) ∈ full_clean_errors st self)
  /\ (forall e,
        e ∈ validate_unique st self
              (map fst (clean_fields st self
                        ++ map (pair NON_FIELD_ERRORS) (clean (attrs self)))) ->
        e ∈ full_clean_errors st self)
  /\ (full_clean_errors st self <> [] ->
      ValidatedModel.save self st
      = (Raise (ValidationError (full_clean_errors st self)), st))
  /\ (full_clean_errors st self = [] -> ValidatedModel.save self st = Model_save self st).
Proof.
  split; [|split; [|split; [|split]]].
  - intros e. apply clean_fields_in_full_clean.
  - intros e. apply clean_in_full_clean.
  - intros e. apply validate_unique_in_full_clean.
  - apply save_raises.
  - apply save_writes.
Qed.

(** ** Columns *)

(** A declared validator of an integer column that raises for the value
    makes the column's cleaning fail with that error. *)
Lemma IntegerField_rejects {M} kind name (get : M -> option Z) null blank
    declared (v : IntValidator) st (self : M) value e :
  get self = Some value ->
  v ∈ declared ->
  e ∈ call v st value ->
  (name, e) ∈ clean_field (IntegerField kind name get null blank declared) st self.
Proof.
  intros Hget Hv He.
  unfold clean_field, Field_clean, validate, run_validators, is_empty.
  simpl. rewrite Hget. simpl. rewrite !andb_false_r. simpl.
  apply list_elem_of_In, in_map, list_elem_of_In.
  apply elem_of_flat_map. exists (call v). split; [|done].
  apply elem_of_app. left.
  apply list_elem_of_In, in_map. by apply list_elem_of_In.
Qed.

(** An integer column accepts a value that its declared validators
    accept and that lies in the range of the backend. *)
Lemma IntegerField_accepts {M} kind name (get : M -> option Z) null blank
    declared st (self : M) value :
  get self = Some value ->
  (forall v, v ∈ declared -> call v st value = []) ->
  (integer_field_range (connection st) kind).1 <= value ->
  value <= (integer_field_range (connection st) kind).2 ->
  clean_field (IntegerField kind name get null blank declared) st self = [].
Proof.
  intros Hget Hdecl Hlo Hhi.
  unfold clean_field, Field_clean, validate, run_validators, is_empty.
  simpl. rewrite Hget. simpl. rewrite !andb_false_r. simpl.
  rewrite flat_map_app.
  assert (flat_map (fun v : Validator Z => v st value) (map call declared) = []) as ->.
  { induction declared as [|d ds IH]; [done|]. simpl.
    rewrite (Hdecl d) by left. simpl. apply IH.
    intros v Hv. apply Hdecl. by right. }
  simpl.
  destruct (existsb _ declared); simpl.
  - destruct (existsb _ declared); simpl; [done|].
    by rewrite (proj2 (Z.ltb_ge _ _) Hhi).
  - rewrite (proj2 (Z.ltb_ge _ _) Hlo). simpl.
    destruct (existsb _ declared); simpl; [done|].
    by rewrite (proj2 (Z.ltb_ge _ _) Hhi).
Qed.

Lemma year_validators_reject (st : State) (v : Z) :
  v < 1000 \/ get_current_year st < v ->
  exists d e,
    d ∈ [MinValueValidator (Constant 1000);
         MaxValueValidator (Callable get_current_year)]
    /\ e ∈ call d st v.
Proof.
  intros [Hlo | Hhi].
  - exists (MinValueValidator (Constant 1000)), (Code "min_value" (Some 1000)).
    split; [left|]. simpl. rewrite (proj2 (Z.ltb_lt _ _) Hlo). left.
  - exists (MaxValueValidator (Callable get_current_year)),
      (Code "max_value" (Some (get_current_year st))).
    split; [right; left|]. simpl. rewrite (proj2 (Z.ltb_lt _ _) Hhi). left.
Qed.

Lemma year_validators_accept (st : State) (v : Z) :
  1000 <= v <= get_current_year st ->
  forall d,
    d ∈ [MinValueValidator (Constant 1000);
         MaxValueValidator (Callable get_current_year)] ->
    call d st v = [].
Proof.
  intros [Hlo Hhi] d Hd.
  apply elem_of_cons in Hd as [-> | Hd]; [|apply elem_of_cons in Hd as [-> | Hd]].
  - simpl. by rewrite (proj2 (Z.ltb_ge _ _) Hlo).
  - simpl. by rewrite (proj2 (Z.ltb_ge _ _) Hhi).
  - by apply not_elem_of_nil in Hd.
Qed.

(** A year above the clock's year and at least 1000, within the
    backend's range, leaves the error of the maximum alone in the
    column. *)
Lemma year_column_refused {M} name (get : M -> option Z) null blank
    st (self : M) value :
  get self = Some value ->
  1000 <= value ->
  year (today st) < value ->
  (integer_field_range (connection st) SmallInteger).1 <= value ->
  value <= (integer_field_range (connection st) SmallInteger).2 ->
  clean_field
    (SmallIntegerField name get null blank
       [MinValueValidator (Constant 1000);
        MaxValueValidator (Callable get_current_year)]) st self
  = [(name, Code "max_value" (Some (year (today st))))].
Proof.
  intros Hget Hmin Hnow Hlo Hhi.
  unfold clean_field, Field_clean, validate, run_validators, is_empty.
  simpl. rewrite Hget. simpl. rewrite !andb_false_r. simpl.
  unfold get_current_year.
  rewrite (proj2 (Z.ltb_ge _ _) Hmin), (proj2 (Z.ltb_lt _ _) Hnow). simpl.
  destruct (_ <=? 1000); simpl.
  - destruct (_ <=? _); simpl; [done|].
    by rewrite (proj2 (Z.ltb_ge _ _) Hhi).
  - rewrite (proj2 (Z.ltb_ge _ _) Hlo). simpl.
    destruct (_ <=? _); simpl; [done|].
    by rewrite (proj2 (Z.ltb_ge _ _) Hhi).
Qed.

(** Membership of a column in [_meta.fields], by inspection of the list. *)
Ltac in_meta_fields := apply list_elem_of_In; simpl; tauto.

(** C2.  At validation time in state [st], a year [v] below 1000 or
    above the year of [today st], the clock of that state, makes the
    save of an Author holding it as [first_appearance] or as
    [last_appearance], and of an Album holding it as [year_of_release],
    raise a [ValidationError] and leave the state as it was.  A year
    between 1000 and the clock's year (both included) passes the two
    declared validators, and the whole column is clean when the value
    also fits the backend's small integers.  The upper limit moves with
    the clock: a year above the year of [today st] is refused in [st],
    with that year as the limit of the error, and the three columns
    take it in the state that differs from [st] by the clock alone,
    once the clock shows a time [later] of that year or after it. *)
Theorem year_fields_bounded (st : State) (v : Z) :
  (v < 1000 \/ year (today st) < v ->
   (forall self : Instance Author.t,
      Author.first_appearance (attrs self) = Some v ->
      exists errors,
        ValidatedModel.save self st = (Raise (ValidationError errors), st))
   /\ (forall self : Instance Author.t,
         Author.last_appearance (attrs self) = Some v ->
         exists errors,
           ValidatedModel.save self st = (Raise (ValidationError errors), st))
   /\ (forall self : Instance Album.t,
         Album.year_of_release (attrs self) = Some v ->
         exists errors,
           ValidatedModel.save self st = (Raise (ValidationError errors), st)))
  /\ (1000 <= v <= year (today st) ->
      call (MinValueValidator (Constant 1000)) st v = []
      /\ call (MaxValueValidator (Callable get_current_year)) st v = []
      /\ ((integer_field_range (connection st) SmallInteger).1 <= v
          <= (integer_field_range (connection st) SmallInteger).2 ->
          (forall author, Author.first_appearance author = Some v ->
                          clean_field Author_first_appearance st author = [])
          /\ (forall author, Author.last_appearance author = Some v ->
                             clean_field Author_last_appearance st author = [])
          /\ (forall album, Album.year_of_release album = Some v ->
                            clean_field Album_year_of_release st album = [])))
  /\ (forall later : datetime,
        1000 <= v ->
        year (today st) < v <= year later ->
        call (MaxValueValidator (Callable get_current_year)) st v
        = [Code "max_value" (Some (year (today st)))]
        /\ call (MaxValueValidator (Callable get_current_year))
             (set_today later st) v = []
        /\ ((integer_field_range (connection st) SmallInteger).1 <= v
            <= (integer_field_range (connection st) SmallInteger).2 ->
            (forall author,
               Author.first_appearance author = Some v ->
               clean_field Author_first_appearance st author
               = [("first_appearance",
                   Code "max_value" (Some (year (today st))))]
               /\ clean_field Author_first_appearance (set_today later st)
                    author = [])
            /\ (forall author,
                  Author.last_appearance author = Some v ->
                  clean_field Author_last_appearance st author
                  = [("last_appearance",
                      Code "max_value" (Some (year (today st))))]
                  /\ clean_field Author_last_appearance (set_today later st)
                       author = [])
            /\ (forall album,
                  Album.year_of_release album = Some v ->
                  clean_field Album_year_of_release st album
                  = [("year_of_release",
                      Code "max_value" (Some (year (today st))))]
                  /\ clean_field Album_year_of_release (set_today later st)
                       album = []))).
Proof.
  split; [|split].
  - intros Hout.
    destruct (year_validators_reject st v Hout) as (d & e & Hd & He).
    split; [|split]; intros self Hv.
    + destruct (save_rejects_field Author_first_appearance self st
                  ("first_appearance", e)) as (errors & _ & Hsave);
        [in_meta_fields | by eapply IntegerField_rejects | by exists errors].
    + destruct (save_rejects_field Author_last_appearance self st
                  ("last_appearance", e)) as (errors & _ & Hsave);
        [in_meta_fields | by eapply IntegerField_rejects | by exists errors].
    + destruct (save_rejects_field Album_year_of_release self st
                  ("year_of_release", e)) as (errors & _ & Hsave);
        [in_meta_fields | by eapply IntegerField_rejects | by exists errors].
  - intros Hin. pose proof (year_validators_accept st v Hin) as Hacc.
    split; [apply Hacc; left|]. split; [apply Hacc; right; left|].
    intros [Hlo Hhi].
    split; [|split]; intros row Hv;
      by apply (IntegerField_accepts _ _ _ _ _ _ st row v).
  - intros later Hmin [Hnow Hlater].
    assert (Hcall : call (MaxValueValidator (Callable get_current_year)) st v
                    = [Code "max_value" (Some (year (today st)))]).
    { simpl. unfold get_current_year.
      by rewrite (proj2 (Z.ltb_lt _ _) Hnow). }
    split; [exact Hcall|]. split.
    { simpl. unfold get_current_year. simpl.
      by rewrite (proj2 (Z.ltb_ge _ _) Hlater). }
    intros [Hlo Hhi].
    pose proof (year_validators_accept (set_today later st) v
                  (conj Hmin Hlater)) as Hacc.
    split; [|split]; intros row Hv; (split;
      [ apply (year_column_refused _ _ _ _ st row v Hv); lia
      | by apply (IntegerField_accepts _ _ _ _ _ _ (set_today later st) row v) ]).
Qed.

(** In May 2024 the year 999 and the year 2025 are refused on an
    Author's first appearance; with the clock in January 2025 and
    nothing else changed, the column takes 2025 and the Author is
    saved. *)
Lemma year_fields_bounded_witness :
  let queen (y : Z) :=
    mkInstance None true (Author.mk (Some "Queen") None (Some y) None) in
  let new_year := set_today (mkDatetime 2025 1 1 0) empty_world in
  (exists errors,
      ValidatedModel.save (queen 999) empty_world
      = (Raise (ValidationError errors), empty_world))
  /\ (exists errors,
        ValidatedModel.save (queen 2025) empty_world
        = (Raise (ValidationError errors), empty_world))
  /\ clean_field Author_first_appearance empty_world (attrs (queen 2025))
     = [("first_appearance", Code "max_value" (Some 2024))]
  /\ clean_field Author_first_appearance new_year (attrs (queen 2025)) = []
  /\ exists k,
       (ValidatedModel.save (queen 2025) new_year).1
       = Return (mkInstance (Some k) false (attrs (queen 2025))).
Proof.
  intros queen new_year.
  destruct (year_fields_bounded empty_world 999) as (Hlow & _).
  destruct (year_fields_bounded empty_world 2025) as (Hhigh & _ & Hclock).
  split.
  { apply (proj1 (Hlow (or_introl eq_refl))). reflexivity. }
  split.
  { apply (proj1 (Hhigh (or_intror eq_refl))). reflexivity. }
  destruct (Hclock (mkDatetime 2025 1 1 0)) as (_ & _ & Hcolumns);
    [by vm_compute | split; by vm_compute|].
  destruct Hcolumns as (Hfirst & _); [split; by vm_compute|].
  destruct (Hfirst (attrs (queen 2025)) eq_refl) as [Hnow Hthen].
  split; [exact Hnow|]. split; [exact Hthen|]. eexists. by vm_compute.
Defined.

(** C3.  An Author whose two appearance years are set with the first
    above the last cannot be saved: [save] raises a [ValidationError]
    and the state stays as it was.  The ordering check of [Author.clean]
    raises nothing when one of the two years is not set. *)
Theorem author_appearance_order (st : State) (self : Instance Author.t) :
  (forall first last,
     Author.first_appearance (attrs self) = Some first ->
     Author.last_appearance (attrs self) = Some last ->
     last < first ->
     exists errors,
       ValidatedModel.save self st = (Raise (ValidationError errors), st))
  /\ (Author.first_appearance (attrs self) = None
      \/ Author.last_appearance (attrs self) = None ->
      Author_clean (attrs self) = []).
Proof.
  split.
  - intros first last Hfirst Hlast Hlt.
    destruct (decide (first = 0)) as [-> | Hf0].
    { destruct (save_rejects_field Author_first_appearance self st
                  ("first_appearance", Code "min_value" (Some 1000)))
        as (errors & _ & Hsave); [in_meta_fields | | by exists errors].
      eapply IntegerField_rejects; [done | left | simpl; left]. }
    destruct (decide (last = 0)) as [-> | Hl0].
    { destruct (save_rejects_field Author_last_appearance self st
                  ("last_appearance", Code "min_value" (Some 1000)))
        as (errors & _ & Hsave); [in_meta_fields | | by exists errors].
      eapply IntegerField_rejects; [done | left | simpl; left]. }
    exists (full_clean_errors st self). apply save_raises.
    eapply elem_of_not_nil, clean_in_full_clean.
    simpl. unfold Author_clean, truthy. rewrite Hfirst, Hlast.
    rewrite (proj2 (Z.eqb_neq _ _) Hf0), (proj2 (Z.eqb_neq _ _) Hl0).
    rewrite (proj2 (Z.ltb_lt _ _) Hlt). simpl. left.
  - intros [Hnone | Hnone]; unfold Author_clean; rewrite Hnone; simpl; [done|].
    by rewrite andb_false_r.
Qed.

(** An Author first seen in 1991 and last seen in 1970 is refused. *)
Lemma author_appearance_order_witness :
  exists errors,
    ValidatedModel.save (mkInstance None true
            (Author.mk (Some "Queen") None (Some 1991) (Some 1970)))
      empty_world
    = (Raise (ValidationError errors), empty_world).
Proof.
  apply (proj1 (author_appearance_order empty_world _) 1991 1970);
    [reflexivity | reflexivity | lia].
Defined.

(** A declared validator of a decimal column that raises for the value
    makes the column's cleaning fail with that error. *)
Lemma DecimalField_rejects {M} name (get : M -> option Decimal) places maxd
    declared (v : Validator Decimal) st (self : M) value e :
  get self = Some value ->
  v ∈ declared ->
  e ∈ v st value ->
  (name, e) ∈ clean_field (DecimalField name get places maxd declared) st self.
Proof.
  intros Hget Hv He.
  unfold clean_field, Field_clean, validate, run_validators, is_empty.
  simpl. rewrite Hget. simpl.
  apply list_elem_of_In, in_map, list_elem_of_In.
  apply elem_of_flat_map. exists v. split; [|done].
  apply elem_of_app. by left.
Qed.

(** C4.  A Song whose price is 5 or more cannot be saved: [save] raises
    a [ValidationError] that files the message of [less_than_five]
    under [price], and the state stays as it was.  [less_than_five]
    raises nothing for a price between 0.00 and 4.99. *)
Theorem song_price_below_five (st : State) (price : Decimal) :
  ((5 <= Decimal_value price)%Q ->
   forall self : Instance Song.t,
     Song.price (attrs self) = Some price ->
     exists errors,
       ("price", Message "The price must be lower than 5 euros.") ∈ errors
       /\ ValidatedModel.save self st = (Raise (ValidationError errors), st))
  /\ ((0 <= Decimal_value price)%Q ->
      (Decimal_value price <= 499 # 100)%Q ->
      less_than_five st price = []).
Proof.
  split.
  - intros Hge self Hprice.
    apply (save_rejects_field Song_price); [in_meta_fields|].
    eapply DecimalField_rejects; [done | left |].
    unfold less_than_five, Decimal_ge.
    rewrite (proj2 (Qle_bool_iff (inject_Z 5) _) Hge). left.
  - intros _ Hle. unfold less_than_five, Decimal_ge.
    destruct (Qle_bool (inject_Z 5) (Decimal_value price)) eqn:Hge; [|done].
    apply Qle_bool_iff in Hge.
    pose proof (Qle_trans _ _ _ Hge Hle) as Habs.
    unfold Qle in Habs. simpl in Habs. lia.
Qed.

(** A Song offered at 5.00 is refused; 4.99 passes the price rule. *)
Lemma song_price_below_five_witness :
  (exists errors,
     ("price", Message "The price must be lower than 5 euros.") ∈ errors
     /\ ValidatedModel.save (mkInstance None true
                (Song.mk (Some "audio/track.mp3") (Some "Fifteen") None None
                   (Some 215000000) None None
                   (Some (mkDecimal false [5; 0; 0] (-2))) (Some false)
                   None None None None))
          empty_world
        = (Raise (ValidationError errors), empty_world))
  /\ less_than_five empty_world (mkDecimal false [4; 9; 9] (-2)) = [].
Proof.
  split.
  - apply (proj1 (song_price_below_five empty_world
                    (mkDecimal false [5; 0; 0] (-2)))); [|reflexivity].
    apply Qle_bool_iff. reflexivity.
  - apply (proj2 (song_price_below_five empty_world
                    (mkDecimal false [4; 9; 9] (-2))));
      apply Qle_bool_iff; reflexivity.
Defined.

(** ** The [unique_song] constraint *)

(** The lookup of [unique_song] is skipped when one of its four columns
    is excluded or holds [None]. *)
Lemma unique_song_lookup_skipped (exclude : list string) (self : Song.t) :
  lookup_skipped (fields unique_song) exclude self
  = (bool_decide ("title" ∈ exclude) || bool_decide (Song.title self = None))
    || ((bool_decide ("author" ∈ exclude) || bool_decide (Song.author self = None))
        || ((bool_decide ("album" ∈ exclude) || bool_decide (Song.album self = None))
            || ((bool_decide ("duration" ∈ exclude)
                 || bool_decide (Song.duration self = None))
                || false))).
Proof. reflexivity. Qed.

(** A row answers the lookup of [unique_song] when it agrees with the
    instance on the four columns. *)
Lemma unique_song_row_exists (rows : gmap Z Song.t) (self : Song.t) :
  row_exists (fields unique_song) rows self
  = existsb
      (fun kr : Z * Song.t =>
         bool_decide (Song.title kr.2 = Song.title self)
         && (bool_decide (Song.author kr.2 = Song.author self)
             && (bool_decide (Song.album kr.2 = Song.album self)
                 && (bool_decide (Song.duration kr.2 = Song.duration self)
                     && true))))
      (map_to_list rows).
Proof. reflexivity. Qed.

(** A required column that holds [None] is not clean. *)
Lemma Song_title_required (st : State) (self : Song.t) :
  clean_field Song_title st self = [] -> Song.title self <> None.
Proof.
  intros Hclean Hnone. unfold clean_field, Field_clean, validate in Hclean.
  simpl in Hclean. rewrite Hnone in Hclean. discriminate.
Qed.

Lemma Song_duration_required (st : State) (self : Song.t) :
  clean_field Song_duration st self = [] -> Song.duration self <> None.
Proof.
  intros Hclean Hnone. unfold clean_field, Field_clean, validate in Hclean.
  simpl in Hclean. rewrite Hnone in Hclean. discriminate.
Qed.

(** The stored row [k] is among the rows a lookup for another instance
    searches. *)
Lemma other_rows_lookup {M} `{Model M} (st : State) (self : Instance M)
    (k : Z) (row : M) :
  objects st !! k = Some row ->
  pk self <> Some k ->
  other_rows st self !! k = Some row.
Proof.
  intros Hrow Hpk. unfold other_rows.
  destruct (pk self) as [k'|]; [|done].
  destruct (adding self); [done|].
  rewrite lookup_delete_ne; [done | congruence].
Qed.

(** C5, as amended.  Once a Song row is stored, the save of another
    Song instance with the same title, author, album and duration is
    refused when neither its author nor its album is [None]: [save]
    raises a [ValidationError] and the state stays as it was. *)
Theorem unique_song_rejects_second (st : State) (self : Instance Song.t)
    (k : Z) (row : Song.t) :
  songs st !! k = Some row ->
  pk self <> Some k ->
  Song.title row = Song.title (attrs self) ->
  Song.author row = Song.author (attrs self) ->
  Song.album row = Song.album (attrs self) ->
  Song.duration row = Song.duration (attrs self) ->
  Song.author (attrs self) <> None ->
  Song.album (attrs self) <> None ->
  exists errors, ValidatedModel.save self st = (Raise (ValidationError errors), st).
Proof.
  intros Hrow Hpk Htitle Hauthor Halbum Hduration Hau Hal.
  exists (full_clean_errors st self). apply save_raises. intros Hnil.
  unfold full_clean_errors in Hnil. cbv zeta in Hnil.
  apply app_eq_nil in Hnil as [Hnil Hconstraints].
  rewrite Hnil in Hconstraints.
  apply app_eq_nil in Hnil as [Hnil _].
  apply app_eq_nil in Hnil as [Hfields _].
  unfold clean_fields in Hfields. apply app_eq_nil in Hfields as [_ Hfields].
  assert (Song.title (attrs self) <> None) as Hti.
  { apply (Song_title_required st).
    apply (flat_map_nil_inv _ _ (field Song_title) Hfields). in_meta_fields. }
  assert (Song.duration (attrs self) <> None) as Hdu.
  { apply (Song_duration_required st).
    apply (flat_map_nil_inv _ _ (field Song_duration) Hfields). in_meta_fields. }
  unfold validate_constraints in Hconstraints. simpl in Hconstraints.
  rewrite app_nil_r in Hconstraints.
  unfold UniqueConstraint_validate in Hconstraints.
  rewrite unique_song_lookup_skipped, unique_song_row_exists in Hconstraints.
  rewrite !(bool_decide_eq_false_2 (_ ∈ [])) in Hconstraints
    by apply not_elem_of_nil.
  rewrite !bool_decide_eq_false_2 in Hconstraints by done.
  simpl in Hconstraints.
  assert (existsb
            (fun kr : Z * Song.t =>
               bool_decide (Song.title kr.2 = Song.title (attrs self))
               && (bool_decide (Song.author kr.2 = Song.author (attrs self))
                   && (bool_decide (Song.album kr.2 = Song.album (attrs self))
                       && (bool_decide
                             (Song.duration kr.2 = Song.duration (attrs self))
                           && true))))
            (map_to_list (other_rows st self)) = true) as Hexists.
  { apply existsb_exists. exists (k, row). split.
    - apply list_elem_of_In, elem_of_map_to_list.
      by apply (other_rows_lookup st self k row).
    - simpl. by rewrite !bool_decide_eq_true_2. }
  rewrite Hexists in Hconstraints. discriminate.
Qed.

(** A second "Sixteen" by author 30 on album 7 is refused. *)
Lemma unique_song_rejects_second_witness :
  exists errors,
    ValidatedModel.save
      (mkInstance None true (track "Sixteen" (Some 30) (Some 7))) catalogue
    = (Raise (ValidationError errors), catalogue).
Proof.
  apply (unique_song_rejects_second catalogue _ 16
           (track "Sixteen" (Some 30) (Some 7)));
    [reflexivity | discriminate | reflexivity | reflexivity | reflexivity
    | reflexivity | discriminate | discriminate].
Defined.

(** The constraint raises nothing for an instance without author or
    without album, whatever the table holds. *)
Lemma unique_song_skips_null (st : State) (self : Instance Song.t)
    (exclude : list string) :
  Song.author (attrs self) = None \/ Song.album (attrs self) = None ->
  UniqueConstraint_validate unique_song st self exclude = [].
Proof.
  intros Hnull. unfold UniqueConstraint_validate.
  rewrite unique_song_lookup_skipped.
  destruct Hnull as [-> | ->]; simpl; by rewrite ?orb_true_r.
Qed.

(** C5, the claim as stated fails: the same song without an album is
    saved twice, under the keys 18 and 19, and both rows are in the table
    afterwards with the same title, author, album and duration. *)
Lemma unique_song_null_album_saved_twice :
  let first := ValidatedModel.save (mkInstance None true eighteen) catalogue in
  let second := ValidatedModel.save (mkInstance None true eighteen) first.2 in
  let stored := Song_pre_save catalogue true eighteen in
  first.1 = Return (mkInstance (Some 18) false stored)
  /\ second.1 = Return (mkInstance (Some 19) false stored)
  /\ songs second.2 !! 18 = Some stored
  /\ songs second.2 !! 19 = Some stored
  /\ Song.album stored = None.
Proof. vm_compute. repeat split. Qed.

(** ** The through model [RelationshipAuthorMusician] *)

Lemma ForeignKey_accepts {M} name (get : M -> option Z) assign
    (to : State -> gset Z) policy null blank st (self : M) (k : Z) :
  get self = Some k ->
  k ∈ to st ->
  clean_field (ForeignKey name get assign to policy null blank) st self = [].
Proof.
  intros Hget Hk.
  unfold clean_field, Field_clean, validate, run_validators, is_empty.
  simpl. rewrite Hget. simpl. rewrite !andb_false_r. simpl.
  by rewrite (bool_decide_eq_true_2 _ Hk).
Qed.

(** A blank integer column that is not set is skipped. *)
Lemma IntegerField_skips_unset {M} kind name (get : M -> option Z) null
    declared st (self : M) :
  get self = None ->
  clean_field (IntegerField kind name get null true declared) st self = [].
Proof. intros Hget. unfold clean_field, is_empty. simpl. by rewrite Hget. Qed.

(** A year column without declared validators is clean whenever it is
    unset or fits the backend's small integers. *)
Lemma undeclared_year_clean {M} name (get : M -> option Z) st (self : M) :
  (forall y, get self = Some y ->
             (integer_field_range (connection st) SmallInteger).1 <= y
             <= (integer_field_range (connection st) SmallInteger).2) ->
  clean_field (SmallIntegerField name get true true []) st self = [].
Proof.
  intros Hrange. destruct (get self) as [y|] eqn:Hget.
  - destruct (Hrange y eq_refl) as [Hlo Hhi].
    apply (IntegerField_accepts _ _ _ _ _ _ st self y); try done.
    intros v Hv. by apply not_elem_of_nil in Hv.
  - by apply IntegerField_skips_unset.
Qed.

(** C8, as amended.  The [start] and [end] columns of
    RelationshipAuthorMusician declare no validator, so no year rule
    applies to them: a new instance whose author and musician exist is
    saved, under a new key and as it is, for every [start] and [end]
    that is unset or fits the backend's small integers, whether or not
    it lies between 1000 and the current year. *)
Theorem relationship_years_unchecked (st : State)
    (self : Instance RelationshipAuthorMusician.t) (a m : Z) :
  pk self = None ->
  RelationshipAuthorMusician.author (attrs self) = Some a ->
  a ∈ dom (authors st) ->
  RelationshipAuthorMusician.musician (attrs self) = Some m ->
  m ∈ dom (musicians st) ->
  (forall y, RelationshipAuthorMusician.start (attrs self) = Some y ->
             (integer_field_range (connection st) SmallInteger).1 <= y
             <= (integer_field_range (connection st) SmallInteger).2) ->
  (forall y, RelationshipAuthorMusician.end_ (attrs self) = Some y ->
             (integer_field_range (connection st) SmallInteger).1 <= y
             <= (integer_field_range (connection st) SmallInteger).2) ->
  let k := fresh (dom (author_musicians st)) in
  ValidatedModel.save self st
  = (Return (mkInstance (Some k) false (attrs self)),
     set_author_musicians (<[k := attrs self]> (author_musicians st)) st).
Proof.
  intros Hpk Hauthor Ha Hmusician Hm Hstart Hend k.
  assert (clean_field id_field st self = []) as Hid.
  { unfold clean_field, is_empty. simpl. by rewrite Hpk. }
  assert (clean_field RelationshipAuthorMusician_author st (attrs self) = [])
    as Hf1 by (by apply (ForeignKey_accepts _ _ _ _ _ _ _ st (attrs self) a)).
  assert (clean_field RelationshipAuthorMusician_musician st (attrs self) = [])
    as Hf2 by (by apply (ForeignKey_accepts _ _ _ _ _ _ _ st (attrs self) m)).
  assert (clean_field RelationshipAuthorMusician_start st (attrs self) = [])
    as Hf3 by (by apply undeclared_year_clean).
  assert (clean_field RelationshipAuthorMusician_end st (attrs self) = [])
    as Hf4 by (by apply undeclared_year_clean).
  assert (full_clean_errors st self = []) as Hclean.
  { unfold full_clean_errors, clean_fields.
    cbn [_meta_fields RelationshipAuthorMusician_Model flat_map].
    rewrite Hid, Hf1, Hf2, Hf3, Hf4.
    unfold validate_unique. rewrite Hpk. reflexivity. }
  rewrite (save_writes self st Hclean).
  unfold Model_save. rewrite Hpk. simpl. fold k.
  assert (integrity st k (attrs self) = true) as ->; [|done].
  unfold integrity. simpl. rewrite Hauthor, Hmusician. simpl.
  rewrite (bool_decide_eq_true_2 _ Ha), (bool_decide_eq_true_2 _ Hm). simpl.
  by destruct (RelationshipAuthorMusician.start (attrs self)),
       (RelationshipAuthorMusician.end_ (attrs self)).
Qed.

(** Musician 2 joins author 10 from 999 to 3000. *)
Lemma relationship_years_unchecked_witness :
  ValidatedModel.save (mkInstance None true early_member) catalogue
  = (Return (mkInstance (Some 2) false early_member),
     set_author_musicians (<[2 := early_member]> (author_musicians catalogue))
       catalogue).
Proof.
  apply (relationship_years_unchecked catalogue
           (mkInstance None true early_member) 10 2);
    [reflexivity | reflexivity | by vm_compute | reflexivity | by vm_compute
    | intros y [= <-]; by vm_compute | intros y [= <-]; by vm_compute].
Defined.

(** C8, the claim as stated fails: in May 2024 a relationship that
    starts in 999 and ends in 3000 is saved. *)
Lemma relationship_years_outside_saved :
  RelationshipAuthorMusician.start early_member = Some 999
  /\ RelationshipAuthorMusician.end_ early_member = Some 3000
  /\ get_current_year catalogue = 2024
  /\ (ValidatedModel.save (mkInstance None true early_member) catalogue).1
     = Return (mkInstance (Some 2) false early_member)
  /\ author_musicians
       (ValidatedModel.save (mkInstance None true early_member) catalogue).2
     !! 2
     = Some early_member.
Proof. vm_compute. repeat split. Qed.

(** ** [Musician.nationality] *)

(** What cleaning the nationality column yields for a value that is set:
    [blank] for the empty string, [max_length] above two characters,
    nothing otherwise. *)
Lemma Musician_nationality_clean (st : State) (self : Musician.t) (code : string) :
  Musician.nationality self = Some code ->
  clean_field Musician_nationality st self
  = if bool_decide (code = "") then [("nationality", Code "blank" None)]
    else if 2 <? Z.of_nat (len code)
         then [("nationality", Code "max_length" (Some 2))]
         else [].
Proof.
  intros Hcode.
  unfold clean_field, Field_clean, validate, run_validators, is_empty.
  simpl. rewrite Hcode. simpl.
  destruct (bool_decide (code = "")); simpl; [done|].
  unfold MaxLengthValidator. by destruct (2 <? Z.of_nat (len code)).
Qed.

(** C9, as amended.  The nationality column bounds the length from
    above only: a Musician whose nationality is unset, empty or longer
    than two characters cannot be saved ([save] raises a
    [ValidationError] and the state stays as it was), and a nationality
    of one or of two characters passes the checks of the column.  So a
    Musician that [save] has written has a nationality of one or two
    characters. *)
Theorem musician_nationality_length (st : State) (self : Instance Musician.t) :
  (Musician.nationality (attrs self) = None ->
   exists errors,
     ValidatedModel.save self st = (Raise (ValidationError errors), st))
  /\ (forall code,
        Musician.nationality (attrs self) = Some code ->
        (len code = 0 \/ 2 < len code)%nat ->
        exists errors,
          ValidatedModel.save self st = (Raise (ValidationError errors), st))
  /\ (forall code,
        Musician.nationality (attrs self) = Some code ->
        (1 <= len code <= 2)%nat ->
        clean_field Musician_nationality st (attrs self) = [])
  /\ (forall saved st',
        ValidatedModel.save self st = (Return saved, st') ->
        exists code,
          Musician.nationality (attrs self) = Some code
          /\ (1 <= len code <= 2)%nat).
Proof.
  assert (Musician.nationality (attrs self) = None ->
          exists errors,
            ValidatedModel.save self st = (Raise (ValidationError errors), st))
    as Hunset.
  { intros Hnone.
    destruct (save_rejects_field Musician_nationality self st
                ("nationality", Code "null" None))
      as (errors & _ & Hsave); [in_meta_fields | | by exists errors].
    unfold clean_field, Field_clean, validate. simpl. rewrite Hnone. left. }
  assert (forall code,
            Musician.nationality (attrs self) = Some code ->
            (len code = 0 \/ 2 < len code)%nat ->
            exists errors,
              ValidatedModel.save self st = (Raise (ValidationError errors), st))
    as Hlength.
  { intros code Hcode Hlen.
    assert (exists e, e ∈ clean_field Musician_nationality st (attrs self))
      as [e He].
    { rewrite (Musician_nationality_clean st _ code Hcode).
      destruct Hlen as [Hzero | Hlong].
      - destruct code; [|discriminate]. eexists. simpl. left.
      - destruct (bool_decide (code = "")); [eexists; left|].
        rewrite (proj2 (Z.ltb_lt 2 (Z.of_nat (len code))))
          by lia.
        eexists. left. }
    destruct (save_rejects_field Musician_nationality self st e)
      as (errors & _ & Hsave); [in_meta_fields | done | by exists errors]. }
  split; [exact Hunset|]. split; [exact Hlength|]. split.
  - intros code Hcode [Hmin Hmax].
    rewrite (Musician_nationality_clean st _ code Hcode).
    rewrite bool_decide_eq_false_2 by (intros ->; simpl in Hmin; lia).
    by rewrite (proj2 (Z.ltb_ge 2 (Z.of_nat (len code)))) by lia.
  - intros saved st' Hsaved.
    destruct (Musician.nationality (attrs self)) as [code|] eqn:Hcode.
    + exists code. split; [done|].
      destruct (decide (len code = 0 \/ 2 < len code)%nat)
        as [Hbad | Hgood]; [|lia].
      destruct (Hlength code eq_refl Hbad) as [errors Hraise]. congruence.
    + destruct (Hunset eq_refl) as [errors Hraise]. congruence.
Qed.

(** The three-letter code DEU is refused; the one-letter D is let
    through by the column, and so are the two letters of ÉÉ, which
    take four bytes. *)
Lemma musician_nationality_length_witness :
  (exists errors,
     ValidatedModel.save (mkInstance None true
             (Musician.mk (Some "Arnold Hutticher") (Some "DEU")
                (Some "trombone") (Some 40)))
       catalogue
     = (Raise (ValidationError errors), catalogue))
  /\ clean_field Musician_nationality catalogue one_letter = []
  /\ clean_field Musician_nationality catalogue
       (Musician.mk (Some "Arnold Hutticher") (Some "ÉÉ") (Some "trombone")
          (Some 40)) = []
  /\ len "ÉÉ" = 2%nat
  /\ String.length "ÉÉ" = 4%nat
  /\ exists k,
       (ValidatedModel.save
          (mkInstance None true
             (Musician.mk (Some "Arnold Hutticher") (Some "ÉÉ")
                (Some "trombone") (Some 40))) catalogue).1
       = Return (mkInstance (Some k) false
                   (Musician.mk (Some "Arnold Hutticher") (Some "ÉÉ")
                      (Some "trombone") (Some 40))).
Proof.
  split; [|split; [|split]].
  - apply (proj1 (proj2 (musician_nationality_length catalogue _)) "DEU");
      [reflexivity | right; simpl; lia].
  - apply (proj1 (proj2 (proj2 (musician_nationality_length catalogue
                                  (mkInstance None true one_letter)))) "D");
      [reflexivity | simpl; lia].
  - apply (proj1 (proj2 (proj2 (musician_nationality_length catalogue
                                  (mkInstance None true
                                     (Musician.mk (Some "Arnold Hutticher")
                                        (Some "ÉÉ") (Some "trombone")
                                        (Some 40)))))) "ÉÉ");
      [reflexivity | simpl; lia].
  - split; [reflexivity|]. split; [reflexivity|]. eexists. by vm_compute.
Defined.

(** C9, the claim as stated fails: a Musician whose nationality has a
    single character is saved. *)
Lemma musician_one_letter_saved :
  Musician.nationality one_letter = Some "D"
  /\ len "D" = 1%nat
  /\ (ValidatedModel.save (mkInstance None true one_letter) catalogue).1
     = Return (mkInstance (Some 3) false one_letter)
  /\ musicians (ValidatedModel.save (mkInstance None true one_letter) catalogue).2 !! 3
     = Some one_letter.
Proof. vm_compute. repeat split. Qed.

(** ** Deletion *)

Section CollectorFacts.
Context {M : Type}.
Implicit Types (f : Field M Z) (table : gmap Z M).

Lemma refers_empty f (row : M) : refers f ∅ row = false.
Proof.
  unfold refers. destruct (get f row); [|done].
  by apply bool_decide_eq_false_2, not_elem_of_empty.
Qed.

Lemma refers_singleton f (k : Z) (row : M) :
  refers f {[k]} row = true <-> get f row = Some k.
Proof.
  unfold refers. destruct (get f row) as [k'|]; [|done].
  rewrite bool_decide_eq_true, elem_of_singleton. split; congruence.
Qed.

Lemma cascade_empty f table : cascade f ∅ table = ∅.
Proof.
  unfold cascade. destruct (remote_field f) as [r|]; [|done].
  destruct (on_delete r); [|done].
  apply dom_empty_iff_L, map_empty. intros i.
  apply map_lookup_filter_None. right. intros x _. simpl.
  by rewrite refers_empty.
Qed.

Lemma field_update_empty f table : field_update f ∅ table = table.
Proof.
  unfold field_update. destruct (remote_field f) as [r|]; [|done].
  destruct (on_delete r); [done|].
  apply map_eq. intros i. rewrite lookup_fmap.
  destruct (table !! i); simpl; [|done]. by rewrite refers_empty.
Qed.

Lemma delete_batch_empty table : delete_batch ∅ table = table.
Proof.
  unfold delete_batch. apply map_filter_id.
  intros i x _. simpl. apply not_elem_of_empty.
Qed.

(** Deleting the rows that a predicate collects leaves the others. *)
Lemma delete_batch_collected (P : Z * M -> Prop) `{forall x, Decision (P x)}
    table :
  delete_batch (dom (filter P table)) table
  = filter (fun kr => ~ P kr) table.
Proof.
  unfold delete_batch. apply map_filter_ext. intros i x Hix. simpl.
  rewrite elem_of_dom. split.
  - intros Hnot HP. apply Hnot. exists x. by apply map_lookup_filter_Some.
  - intros HnP [y Hy]. apply map_lookup_filter_Some in Hy as [Hy HP].
    simplify_eq. by apply HnP.
Qed.

(** A [CASCADE] foreign key deletes exactly the rows that refer to
    the deleted key. *)
Lemma delete_batch_cascade f (r : RemoteField M Z) (k : Z) table :
  remote_field f = Some r ->
  on_delete r = CASCADE ->
  delete_batch (cascade f {[k]} table) table
  = filter (fun kr => get f kr.2 <> Some k) table.
Proof.
  intros Hr Hpolicy. unfold cascade. rewrite Hr, Hpolicy.
  rewrite delete_batch_collected. apply map_filter_ext.
  intros i x _. simpl. by rewrite refers_singleton.
Qed.

(** A [SET_NULL] foreign key clears the column of exactly the rows
    that refer to the deleted key. *)
Lemma field_update_set_null f (r : RemoteField M Z) (k : Z) table :
  remote_field f = Some r ->
  on_delete r = SET_NULL ->
  field_update f {[k]} table
  = (fun row => if bool_decide (get f row = Some k)
                then assign r None row else row) <$> table.
Proof.
  intros Hr Hpolicy. unfold field_update. rewrite Hr, Hpolicy.
  apply map_fmap_ext. intros i row _.
  destruct (refers f {[k]} row) eqn:Href.
  - apply refers_singleton in Href. by rewrite bool_decide_eq_true_2.
  - rewrite bool_decide_eq_false_2; [done|].
    intros Hget. apply refers_singleton in Hget. congruence.
Qed.
End CollectorFacts.

Lemma cascade_set_null {M} (f : Field M Z) (r : RemoteField M Z)
    (keys : gset Z) (table : gmap Z M) :
  remote_field f = Some r -> on_delete r = SET_NULL -> cascade f keys table = ∅.
Proof. intros Hr Hpolicy. unfold cascade. by rewrite Hr, Hpolicy. Qed.

Lemma field_update_cascade {M} (f : Field M Z) (r : RemoteField M Z)
    (keys : gset Z) (table : gmap Z M) :
  remote_field f = Some r -> on_delete r = CASCADE ->
  field_update f keys table = table.
Proof. intros Hr Hpolicy. unfold field_update. by rewrite Hr, Hpolicy. Qed.

(** The songs after the deletion of author [k]: no row goes, and the
    rows of that author have their [author] cleared. *)
Lemma Author_delete_songs (st : State) (k : Z) :
  songs (Author_delete k st).2
  = (fun row => if bool_decide (Song.author row = Some k)
                then Song.set_author None row else row) <$> songs st.
Proof.
  unfold Author_delete, Collector_delete, collect.
  cbn [snd songs del_songs del_users del_authors del_albums].
  erewrite (cascade_set_null Song_author) by reflexivity.
  rewrite !cascade_empty, !union_empty_l_L, delete_batch_empty.
  rewrite !field_update_empty.
  by erewrite (field_update_set_null Song_author) by reflexivity.
Qed.

(** The songs after the deletion of album [k]: those of the album go,
    the others stay as they are. *)
Lemma Album_delete_songs (st : State) (k : Z) :
  songs (Album_delete k st).2
  = filter (fun kr => Song.album kr.2 <> Some k) (songs st).
Proof.
  unfold Album_delete, Collector_delete, collect.
  cbn [snd songs del_songs del_users del_authors del_albums].
  rewrite !cascade_empty, !union_empty_l_L, !union_empty_r_L.
  rewrite !field_update_empty.
  erewrite (field_update_cascade Song_album) by reflexivity.
  by erewrite (delete_batch_cascade Song_album) by reflexivity.
Qed.

(** The musicians after the deletion of author [k]. *)
Lemma Author_delete_musicians (st : State) (k : Z) :
  musicians (Author_delete k st).2
  = filter (fun kr => Musician.author kr.2 <> Some k) (musicians st).
Proof.
  unfold Author_delete, Collector_delete, collect.
  cbn [snd musicians del_musicians del_authors].
  rewrite union_empty_l_L.
  erewrite (field_update_cascade Musician_author) by reflexivity.
  by erewrite (delete_batch_cascade Musician_author) by reflexivity.
Qed.

(** C6.  The deletion of author [k] keeps every Song row: a row whose
    [author] is [k] has that column set to [None] and every other
    column as before, the other rows are untouched.  The deletion of
    album [k] removes exactly the Song rows whose [album] is [k]. *)
Theorem song_author_set_null_album_cascade (st : State) (k : Z) :
  songs (Author_delete k st).2
  = (fun row =>
       if bool_decide (Song.author row = Some k)
       then Song.mk (Song.audio row) (Song.title row) None (Song.album row)
              (Song.duration row) (Song.style row) (Song.playbacks row)
              (Song.price row) (Song.deal_of_the_day row) (Song.created row)
              (Song.created_by row) (Song.last_modified row)
              (Song.last_modified_by row)
       else row) <$> songs st
  /\ songs (Album_delete k st).2
     = filter (fun kr => Song.album kr.2 <> Some k) (songs st).
Proof. split; [apply Author_delete_songs | apply Album_delete_songs]. Qed.

(** C10.  The deletion of author [k] removes exactly the Musician rows
    whose [author] is [k], whereas no Song row is removed by it. *)
Theorem musician_author_cascade (st : State) (k : Z) :
  musicians (Author_delete k st).2
  = filter (fun kr => Musician.author kr.2 <> Some k) (musicians st)
  /\ dom (songs (Author_delete k st).2) = dom (songs st).
Proof.
  split; [apply Author_delete_musicians|].
  rewrite Author_delete_songs. apply dom_fmap_L.
Qed.

(** In the catalogue, author 30 has songs 15 and 16 and musician 1:
    after the author's deletion the three songs are there, none with
    author 30, and musician 1 is gone. *)
Example author_30_deleted :
  let st := (Author_delete 30 catalogue).2 in
  Song.author <$> songs st !! 15 = Some None
  /\ Song.title <$> songs st !! 15 = Some (Some "Fifteen")
  /\ Song.author <$> songs st !! 16 = Some None
  /\ Song.album <$> songs st !! 16 = Some (Some 7)
  /\ songs st !! 17 = songs catalogue !! 17
  /\ musicians st !! 1 = None
  /\ musicians st !! 2 = musicians catalogue !! 2.
Proof. vm_compute. repeat split. Qed.

(** Album 7 holds songs 16 and 17: both go with it, song 15 stays. *)
Example album_7_deleted :
  let st := (Album_delete 7 catalogue).2 in
  songs st !! 15 = songs catalogue !! 15
  /\ songs st !! 16 = None
  /\ songs st !! 17 = None.
Proof. vm_compute. repeat split. Qed.

(** ** The manager [song.authors] *)

Section SongAuthors.
Variable song : Z.

(** The through row that relates author [a] to the song. *)
Let link (a : Z) : RelationshipAuthorSong.t :=
  RelationshipAuthorSong.mk (Some a) (Some song).

(** What [all] keeps of a through row in state [st]. *)
Let related (st : State) (row : RelationshipAuthorSong.t) : option Z :=
  if bool_decide (RelationshipAuthorSong.song row = Some song)
  then match RelationshipAuthorSong.author row with
       | Some a => if bool_decide (a ∈ dom (authors st)) then Some a else None
       | None => None
       end
  else None.

Lemma Song_authors_all (st : State) :
  all (Song_authors song) st = omap (related st) (map_to_list (author_songs st)).*2.
Proof. reflexivity. Qed.

Lemma related_link (st : State) (ids : list Z) :
  (forall a, a ∈ ids -> a ∈ dom (authors st)) ->
  omap (related st) (map link ids) = ids.
Proof.
  induction ids as [|a ids IH]; intros Hids; [done|].
  simpl. unfold related at 1. simpl.
  rewrite bool_decide_eq_true_2 by done.
  rewrite bool_decide_eq_true_2 by (apply Hids; left).
  f_equal. apply IH. intros b Hb. apply Hids. by right.
Qed.

Lemma insert_link (st : State) (a : Z) :
  a ∈ dom (authors st) ->
  song ∈ dom (songs st) ->
  insert (link a) st
  = (Return (),
     set_author_songs
       (<[fresh (dom (author_songs st)) := link a]> (author_songs st)) st).
Proof.
  intros Ha Hs. unfold insert. simpl.
  assert (integrity st (fresh (dom (author_songs st))) (link a) = true) as ->;
    [|done].
  unfold integrity. simpl. by rewrite !bool_decide_eq_true_2.
Qed.

(** [bulk_create] of links to existing authors writes the through
    table only, and adds one row per link. *)
Lemma bulk_create_links (ids : list Z) (st : State) :
  (forall a, a ∈ ids -> a ∈ dom (authors st)) ->
  song ∈ dom (songs st) ->
  exists table,
    bulk_create (map link ids) st = (Return (), set_author_songs table st)
    /\ (map_to_list table).*2
       ≡ₚ map link ids ++ (map_to_list (author_songs st)).*2.
Proof.
  revert st. induction ids as [|a ids IH]; intros st Hids Hs.
  - exists (author_songs st). split; [by destruct st|done].
  - simpl. unfold mbind, Request_bind.
    rewrite insert_link by (done || apply Hids; left).
    set (k := fresh (dom (author_songs st))).
    destruct (IH (set_author_songs (<[k := link a]> (author_songs st)) st))
      as (table & Hrun & Hperm).
    { intros b Hb. apply Hids. by right. }
    { done. }
    exists table. split; [exact Hrun|].
    rewrite Hperm. simpl.
    rewrite map_to_list_insert
      by (apply not_elem_of_dom; apply is_fresh).
    simpl. by rewrite Permutation_middle.
Qed.

(** Among ids of existing authors, those that [add] finds missing
    are those that [all] does not return. *)
Lemma missing_target_ids_all (st : State) (target_ids : gset Z) :
  (forall a, a ∈ target_ids -> a ∈ dom (authors st)) ->
  missing_target_ids (Song_authors song) target_ids st
  = target_ids ∖ list_to_set (all (Song_authors song) st).
Proof.
  intros Hids. unfold missing_target_ids, all. simpl.
  apply set_eq. intros a. rewrite !elem_of_difference.
  split; intros [Ha Hnot]; (split; [done|]); intros Hin; apply Hnot;
    apply elem_of_list_to_set, list_elem_of_omap in Hin as (row & Hrow & Heq);
    apply elem_of_list_to_set, list_elem_of_omap; exists row;
    (split; [done|]);
    destruct (bool_decide (RelationshipAuthorSong.song row = Some song));
    [|done| |done];
    destruct (RelationshipAuthorSong.author row) as [b|]; try done.
  - destruct (bool_decide (b ∈ dom (authors st))); [|done].
    simplify_eq. by rewrite bool_decide_eq_true_2.
  - destruct (bool_decide (b ∈ target_ids)); [|done].
    simplify_eq. by rewrite bool_decide_eq_true_2 by (by apply Hids).
Qed.

(** [add] of ids of existing authors to the manager of an existing
    song: it succeeds, it writes the through table only, and [all]
    returns afterwards the ids that were missing followed by what it
    returned before, up to the order of the rows. *)
Lemma Song_authors_add (st : State) (ids : list Z) :
  song ∈ dom (songs st) ->
  (forall a, a ∈ ids -> a ∈ dom (authors st)) ->
  exists table,
    add (Song_authors song) ids st = (Return (), set_author_songs table st)
    /\ all (Song_authors song) (set_author_songs table st)
       ≡ₚ elements (list_to_set ids ∖ list_to_set (all (Song_authors song) st)
                    : gset Z)
          ++ all (Song_authors song) st.
Proof.
  intros Hs Hids. unfold add, atomic.
  rewrite missing_target_ids_all
    by (intros a Ha; apply Hids; by apply elem_of_list_to_set in Ha).
  set (missing := elements _).
  destruct (bulk_create_links missing st) as (table & Hrun & Hperm);
    [|done|].
  { intros a Ha. apply Hids. subst missing.
    apply elem_of_elements, elem_of_difference in Ha as [Ha _].
    by apply elem_of_list_to_set in Ha. }
  exists table. simpl. change (map _ missing) with (map link missing).
  rewrite Hrun. split; [done|].
  rewrite !Song_authors_all. simpl. rewrite Hperm, omap_app.
  change (related (set_author_songs table st)) with (related st).
  rewrite related_link; [done|].
  intros a Ha. apply Hids. subst missing.
  apply elem_of_elements, elem_of_difference in Ha as [Ha _].
  by apply elem_of_list_to_set in Ha.
Qed.
End SongAuthors.

(** C7, as amended.  For an existing Song and ids of existing Authors,
    [song.authors.add(ids)] succeeds, and [song.authors.all()] then
    returns the Authors it returned before together with the added
    ones.  When it returned none before, it returns exactly the added
    Authors, each once.  The outcome is the same for every order of
    the ids. *)
Theorem song_authors_add_then_all (st : State) (song : Z) (ids : list Z) :
  song ∈ dom (songs st) ->
  (forall a, a ∈ ids -> a ∈ dom (authors st)) ->
  exists st',
    add (Song_authors song) ids st = (Return (), st')
    /\ (forall a, a ∈ all (Song_authors song) st'
                  <-> a ∈ ids \/ a ∈ all (Song_authors song) st)
    /\ (all (Song_authors song) st = [] ->
        NoDup (all (Song_authors song) st')
        /\ forall a, a ∈ all (Song_authors song) st' <-> a ∈ ids)
    /\ (forall ids', ids' ≡ₚ ids ->
                     add (Song_authors song) ids' st = (Return (), st')).
Proof.
  intros Hs Hids.
  destruct (Song_authors_add song st ids Hs Hids) as (table & Hadd & Hperm).
  exists (set_author_songs table st). split; [done|].
  assert (forall a, a ∈ all (Song_authors song) (set_author_songs table st)
                    <-> a ∈ ids \/ a ∈ all (Song_authors song) st) as Hall.
  { intros a. rewrite Hperm, elem_of_app, elem_of_elements, elem_of_difference.
    rewrite !elem_of_list_to_set.
    destruct (decide (a ∈ all (Song_authors song) st)); tauto. }
  split; [exact Hall|]. split.
  - intros Hnone. split.
    + rewrite Hperm, Hnone, app_nil_r. apply NoDup_elements.
    + intros a. rewrite Hall, Hnone. rewrite elem_of_nil. tauto.
  - intros ids' Hids'. rewrite <- Hadd. unfold add.
    assert (list_to_set ids' = (list_to_set ids : gset Z)) as ->; [|done].
    apply set_eq. intros a. by rewrite !elem_of_list_to_set, Hids'.
Qed.

(** Song 17 has no authors yet; adding 40, 30 and 40 again relates it
    to 30 and to 40. *)
Lemma song_authors_add_then_all_witness :
  exists st',
    add (Song_authors 17) [40; 30; 40] catalogue = (Return (), st')
    /\ (forall a, a ∈ all (Song_authors 17) st'
                  <-> a ∈ [40; 30; 40] \/ a ∈ all (Song_authors 17) catalogue)
    /\ (all (Song_authors 17) catalogue = [] ->
        NoDup (all (Song_authors 17) st')
        /\ forall a, a ∈ all (Song_authors 17) st' <-> a ∈ [40; 30; 40])
    /\ (forall ids', ids' ≡ₚ [40; 30; 40] ->
                     add (Song_authors 17) ids' catalogue = (Return (), st')).
Proof.
  apply (song_authors_add_then_all catalogue 17 [40; 30; 40]).
  - by vm_compute.
  - intros a Ha.
    repeat (apply elem_of_cons in Ha as [-> | Ha]; [by vm_compute|]).
    by apply not_elem_of_nil in Ha.
Defined.

(** C7, the claim as stated fails: song 15 is related to author 10;
    after adding 30 and 40, reading the relation back returns 10 as
    well, which is not one of the added ids. *)
Lemma song_authors_returns_earlier_authors :
  all (Song_authors 15) catalogue = [10]
  /\ (add (Song_authors 15) [30; 40] catalogue).1 = Return ()
  /\ all (Song_authors 15) (add (Song_authors 15) [30; 40] catalogue).2
     = [40; 30; 10]
  /\ 10 ∉ [30; 40].
Proof.
  split; [by vm_compute|]. split; [by vm_compute|]. split; [by vm_compute|].
  intros Hin. repeat (apply elem_of_cons in Hin as [[=] | Hin]).
  by apply not_elem_of_nil in Hin.
Qed.

(** Two calls of [add] in either order relate the song to the same
    authors. *)
Lemma Song_authors_add_twice (st : State) (song : Z) (ids1 ids2 : list Z) :
  song ∈ dom (songs st) ->
  (forall a, a ∈ ids1 ++ ids2 -> a ∈ dom (authors st)) ->
  exists st12 st21,
    (add (Song_authors song) ids1 ;; add (Song_authors song) ids2) st
    = (Return (), st12)
    /\ (add (Song_authors song) ids2 ;; add (Song_authors song) ids1) st
       = (Return (), st21)
    /\ forall a, a ∈ all (Song_authors song) st12
                 <-> a ∈ all (Song_authors song) st21.
Proof.
  intros Hs Hids.
  assert (forall ids st0,
            authors st0 = authors st -> songs st0 = songs st ->
            (forall a, a ∈ ids -> a ∈ ids1 ++ ids2) ->
            exists table,
              add (Song_authors song) ids st0
              = (Return (), set_author_songs table st0)
              /\ forall a, a ∈ all (Song_authors song) (set_author_songs table st0)
                           <-> a ∈ ids \/ a ∈ all (Song_authors song) st0)
    as Hstep.
  { intros ids st0 Hau Hso Hsub.
    destruct (Song_authors_add song st0 ids) as (table & Hadd & Hperm).
    - by rewrite Hso.
    - intros a Ha. rewrite Hau. by apply Hids, Hsub.
    - exists table. split; [done|]. intros a.
      rewrite Hperm, elem_of_app, elem_of_elements, elem_of_difference.
      rewrite !elem_of_list_to_set.
      destruct (decide (a ∈ all (Song_authors song) st0)); tauto. }
  destruct (Hstep ids1 st eq_refl eq_refl) as (t1 & Hadd1 & Hall1).
  { intros a Ha. apply elem_of_app. by left. }
  destruct (Hstep ids2 (set_author_songs t1 st) eq_refl eq_refl)
    as (t12 & Hadd12 & Hall12).
  { intros a Ha. apply elem_of_app. by right. }
  destruct (Hstep ids2 st eq_refl eq_refl) as (t2 & Hadd2 & Hall2).
  { intros a Ha. apply elem_of_app. by right. }
  destruct (Hstep ids1 (set_author_songs t2 st) eq_refl eq_refl)
    as (t21 & Hadd21 & Hall21).
  { intros a Ha. apply elem_of_app. by left. }
  eexists _, _. unfold mbind, Request_bind.
  rewrite Hadd1, Hadd12, Hadd2, Hadd21. split; [done|]. split; [done|].
  intros a. rewrite Hall12, Hall1, Hall21, Hall2. tauto.
Qed.

(** In an empty world a Musician without a name, with a three-letter
    nationality and an author that does not exist is refused, and the
    world stays empty. *)
Lemma save_validates_before_writing_witness :
  let nobody := mkInstance None true
                  (Musician.mk None (Some "DEU") (Some "piano") (Some 30)) in
  ValidatedModel.save nobody empty_world
  = (Raise (ValidationError
              [("name", Code "null" None);
               ("nationality", Code "max_length" (Some 2));
               ("author", Code "invalid" None)]),
     empty_world).
Proof.
  intros nobody. etransitivity.
  - apply (proj1 (proj2 (proj2 (proj2
             (save_validates_before_writing nobody empty_world))))).
    vm_compute. discriminate.
  - vm_compute. reflexivity.
Defined.

(** * Further properties of the models *)

(** ** What a [save] writes *)

(** Each model's table is the one its [write] wrote. *)
Lemma objects_write :
  (forall t st, objects (M := Author.t) (write t st) = t)
  /\ (forall t st, objects (M := Musician.t) (write t st) = t)
  /\ (forall t st, objects (M := Album.t) (write t st) = t)
  /\ (forall t st, objects (M := Song.t) (write t st) = t)
  /\ (forall t st, objects (M := Profile.t) (write t st) = t)
  /\ (forall t st, objects (M := RelationshipAuthorMusician.t) (write t st) = t)
  /\ (forall t st, objects (M := RelationshipAuthorSong.t) (write t st) = t).
Proof. repeat split. Qed.

(** A [save] that returns went through [full_clean] and wrote the row
    that [pre_save] made of the instance. *)
Lemma save_returns {M : Type} `{Model M} (self saved : Instance M)
    (st st' : State) :
  ValidatedModel.save self st = (Return saved, st') ->
  let k := match pk self with
           | Some k => k
           | None => fresh (dom (objects st))
           end in
  let row := pre_save st (negb (bool_decide (k ∈ dom (objects st)))) (attrs self) in
  full_clean_errors st self = []
  /\ integrity st k row = true
  /\ saved = mkInstance (Some k) false row
  /\ st' = write (<[k := row]> (objects st)) st.
Proof.
  intros Hsave k row.
  destruct (full_clean_errors st self) as [|e errors] eqn:Hclean.
  - rewrite (save_writes self st Hclean) in Hsave.
    unfold Model_save in Hsave. fold k in Hsave. fold row in Hsave.
    destruct (integrity st k row); [|discriminate].
    by simplify_eq.
  - rewrite save_raises in Hsave by (rewrite Hclean; discriminate).
    discriminate.
Qed.

(** X1.  [save] either raises and leaves the state as it was, or
    returns the instance with a primary key and [adding] off, having
    written its attributes under that key and no other row of the
    table: the key is the instance's own or, for an instance without
    one, a key the table did not hold. *)
Theorem save_outcome {M : Type} `{Model M} (self : Instance M) (st : State) :
  (forall t st0, objects (write t st0) = t) ->
  match ValidatedModel.save self st with
  | (Raise e, st') => st' = st
  | (Return saved, st') =>
      exists k,
        pk saved = Some k
        /\ adding saved = false
        /\ (pk self = Some k \/ (pk self = None /\ k ∉ dom (objects st)))
        /\ objects st' !! k = Some (attrs saved)
        /\ forall k', k' <> k -> objects st' !! k' = objects st !! k'
  end.
Proof.
  intros Hlens.
  destruct (ValidatedModel.save self st) as [[saved|e] st'] eqn:Hsave.
  - destruct (save_returns self saved st st' Hsave) as (_ & _ & -> & ->).
    eexists. split; [done|]. split; [done|]. rewrite Hlens. split.
    + destruct (pk self); [by left|right]. split; [done|]. apply is_fresh.
    + split; [apply lookup_insert_eq|].
      intros k' Hk'. by apply lookup_insert_ne.
  - destruct (full_clean_errors st self) as [|e0 errors] eqn:Hclean.
    + rewrite (save_writes self st Hclean) in Hsave.
      unfold Model_save in Hsave.
      destruct (integrity _ _ _); by simplify_eq.
    + rewrite save_raises in Hsave by (rewrite Hclean; discriminate).
      by simplify_eq.
Qed.

(** The first author of an empty world is written under a new key. *)
Lemma save_outcome_witness :
  exists k,
    (k ∉ dom (authors empty_world))
    /\ (authors (ValidatedModel.save (mkInstance None true (band "Ten"))
                   empty_world).2) !! k
       = Some (band "Ten").
Proof.
  pose proof (save_outcome (mkInstance None true (band "Ten")) empty_world
                (fun t st0 => eq_refl)) as Hout.
  destruct (ValidatedModel.save (mkInstance None true (band "Ten")) empty_world)
    as [[saved|e] st'] eqn:Hsave.
  - destruct Hout as (k & _ & _ & [Hk | [_ Hk]] & Hrow & _); [discriminate|].
    exists k. split; [done|]. vm_compute in Hsave. simplify_eq. exact Hrow.
  - vm_compute in Hsave. discriminate.
Defined.

(** ** [Author.clean] and the year 0 *)

(** X2.  [Author.clean] raises exactly when both years are set, neither
    is 0, and the first is above the last.  A year 0 silences the
    ordering check, whatever the other year is. *)
Theorem author_clean_raises_iff (self : Author.t) :
  (Author_clean self <> []
   <-> exists first last,
         Author.first_appearance self = Some first
         /\ Author.last_appearance self = Some last
         /\ first <> 0 /\ last <> 0 /\ last < first)
  /\ (Author.first_appearance self = Some 0
      \/ Author.last_appearance self = Some 0 ->
      Author_clean self = []).
Proof.
  unfold Author_clean, truthy. split.
  - destruct (Author.first_appearance self) as [first|];
      [|split; [done|]; by intros (? & ? & [=] & _)].
    destruct (Author.last_appearance self) as [last|];
      [|split; [by rewrite andb_false_r|]; by intros (? & ? & _ & [=] & _)].
    destruct (Z.eqb_spec first 0) as [-> | Hf]; simpl.
    { split; [done|]. intros (? & ? & [= <-] & _ & Hne & _). lia. }
    destruct (Z.eqb_spec last 0) as [-> | Hl]; simpl.
    { split; [done|]. intros (? & ? & _ & [= <-] & _ & Hne & _). lia. }
    destruct (Z.ltb_spec last first) as [Hlt | Hge].
    + split; [by exists first, last | done].
    + split; [done|]. intros (? & ? & [= <-] & [= <-] & _ & _ & Hlt). lia.
  - intros [-> | ->]; simpl; [done|]. by rewrite andb_false_r.
Qed.

(** First seen in 5 and last in 0: the ordering check is silent. *)
Lemma author_clean_raises_iff_witness :
  Author_clean (Author.mk (Some "Ten") None (Some 5) (Some 0)) = [].
Proof.
  apply (proj2 (author_clean_raises_iff
                  (Author.mk (Some "Ten") None (Some 5) (Some 0)))).
  right. reflexivity.
Defined.

(** ** What the columns accept *)

(** Cleaning a text column without choices: an empty value is skipped
    when the column is blank and refused otherwise; a text longer than
    [max_length] is refused. *)
Lemma CharField_clean {M} name (get : M -> option string) maxlen null blank
    st (self : M) :
  clean_field (CharField name get maxlen null blank None) st self
  = match get self with
    | None =>
        if blank then []
        else [(name, Code (if null then "blank" else "null") None)]
    | Some s =>
        if bool_decide (s = "")
        then (if blank then [] else [(name, Code "blank" None)])
        else if maxlen <? Z.of_nat (len s)
             then [(name, Code "max_length" (Some maxlen))]
             else []
    end.
Proof.
  unfold clean_field, Field_clean, validate, run_validators, is_empty.
  simpl. destruct (get self) as [s|]; simpl.
  - destruct (bool_decide (s = "")), blank; simpl; try done;
      unfold MaxLengthValidator;
      by destruct (maxlen <? Z.of_nat (len s)).
  - by destruct blank, null.
Qed.

(** Cleaning a text column with choices: a value that is not empty must
    be one of the keys. *)
Lemma CharField_choices_clean {M} name (get : M -> option string) maxlen
    null blank options st (self : M) :
  clean_field (CharField name get maxlen null blank (Some options)) st self
  = match get self with
    | None =>
        if blank then []
        else [(name, Code (if null then "blank" else "null") None)]
    | Some s =>
        if bool_decide (s = "")
        then (if blank then [] else [(name, Code "blank" None)])
        else if existsb (fun kv : string * string => bool_decide (s = kv.1)) options
             then (if maxlen <? Z.of_nat (len s)
                   then [(name, Code "max_length" (Some maxlen))]
                   else [])
             else [(name, Code "invalid_choice" None)]
    end.
Proof.
  unfold clean_field, Field_clean, validate, run_validators, is_empty.
  simpl. destruct (get self) as [s|]; simpl.
  - destruct (bool_decide (s = "")), blank; simpl; try done;
      destruct (existsb _ options); simpl; try done;
      unfold MaxLengthValidator;
      by destruct (maxlen <? Z.of_nat (len s)).
  - by destruct blank, null.
Qed.

(** A year column with the two declared validators is clean exactly for
    a year between 1000 and the clock's year that fits the backend's
    small integers, and, when the column is blank, for no year at all. *)
Lemma year_column_clean {M} name (get : M -> option Z) (optional : bool)
    st (self : M) :
  clean_field
    (SmallIntegerField name get optional optional
       [MinValueValidator (Constant 1000);
        MaxValueValidator (Callable get_current_year)]) st self = []
  <-> match get self with
      | None => optional = true
      | Some y =>
          1000 <= y <= year (today st)
          /\ (integer_field_range (connection st) SmallInteger).1 <= y
             <= (integer_field_range (connection st) SmallInteger).2
      end.
Proof.
  unfold clean_field, Field_clean, validate, run_validators, is_empty.
  simpl. unfold get_current_year. destruct (get self) as [y|]; simpl.
  - rewrite !andb_false_r. simpl. rewrite !orb_false_r.
    destruct (Z.ltb_spec y 1000), (Z.ltb_spec (year (today st)) y),
      (Z.leb_spec (integer_field_range (connection st) SmallInteger).1 1000),
      (Z.leb_spec (year (today st))
         (integer_field_range (connection st) SmallInteger).2);
      simpl;
      try destruct (Z.ltb_spec y (integer_field_range (connection st) SmallInteger).1);
      try destruct (Z.ltb_spec (integer_field_range (connection st) SmallInteger).2 y);
      simpl; split; try discriminate; try lia; done.
  - destruct optional; simpl; split; try done; discriminate.
Qed.

(** ** Which albums can be saved *)

(** The errors of [full_clean] for a new Album are those of its three
    columns. *)
Lemma Album_full_clean_errors (st : State) (self : Instance Album.t) :
  pk self = None ->
  full_clean_errors st self
  = clean_field Album_title st (attrs self)
    ++ clean_field Album_year_of_release st (attrs self)
    ++ clean_field Album_produced_by st (attrs self).
Proof.
  intros Hpk. unfold full_clean_errors, clean_fields, validate_unique,
    validate_constraints.
  cbn [_meta_fields constraints clean Album_Model flat_map map].
  assert (clean_field id_field st self = []) as ->.
  { unfold clean_field, is_empty. simpl. by rewrite Hpk. }
  rewrite Hpk. simpl. by rewrite !app_nil_r.
Qed.

(** X3.  A new Album is saved exactly when its title is set, not empty
    and of at most 255 characters, its year of release is set, lies
    between 1000 and the year of [today st], the clock of the state
    the save runs in, and fits the backend's small integers, and its
    producer, if set, has at most 255 characters.  Lengths count
    characters, not bytes.  The Album is then written as it is under a
    key the table did not hold; otherwise [save] raises a
    [ValidationError] and writes nothing. *)
Theorem album_saved_iff (st : State) (self : Instance Album.t) :
  pk self = None ->
  let acceptable :=
    (exists title, Album.title (attrs self) = Some title
                   /\ title <> "" /\ Z.of_nat (len title) <= 255)
    /\ (exists y, Album.year_of_release (attrs self) = Some y
                  /\ 1000 <= y <= year (today st)
                  /\ (integer_field_range (connection st) SmallInteger).1 <= y
                     <= (integer_field_range (connection st) SmallInteger).2)
    /\ (forall p, Album.produced_by (attrs self) = Some p ->
                  Z.of_nat (len p) <= 255) in
  (acceptable ->
   exists k,
     (k ∉ dom (albums st))
     /\ ValidatedModel.save self st
        = (Return (mkInstance (Some k) false (attrs self)),
           set_albums (<[k := attrs self]> (albums st)) st))
  /\ (~ acceptable ->
      exists errors,
        ValidatedModel.save self st = (Raise (ValidationError errors), st)).
Proof.
  intros Hpk acceptable. set (k := fresh (dom (albums st))).
  assert (full_clean_errors st self = [] <-> acceptable) as Hiff.
  { rewrite (Album_full_clean_errors st self Hpk). unfold acceptable.
    split.
    - intros Hnil. apply app_eq_nil in Hnil as [Htitle Hnil].
      apply app_eq_nil in Hnil as [Hyear Hproduced].
      unfold Album_title, Album_produced_by in *.
      rewrite CharField_clean in Htitle, Hproduced.
      apply year_column_clean in Hyear.
      split; [|split].
      + destruct (Album.title (attrs self)) as [title|]; [|done].
        exists title. split; [done|].
        destruct (bool_decide_reflect (title = "")); [done|].
        destruct (Z.ltb_spec 255 (Z.of_nat (len title))); done.
      + destruct (Album.year_of_release (attrs self)) as [y|]; [|done].
        by exists y.
      + intros p Hp. rewrite Hp in Hproduced.
        destruct (bool_decide_reflect (p = "")) as [Heq | _];
          [rewrite Heq; simpl; lia|].
        destruct (Z.ltb_spec 255 (Z.of_nat (len p))); done.
    - intros ((title & Htitle & Hne & Hlen) & (y & Hy & Hyear & Hrange) & Hp).
      assert (clean_field Album_year_of_release st (attrs self) = []) as ->.
      { apply year_column_clean. by rewrite Hy. }
      unfold Album_title, Album_produced_by. rewrite !CharField_clean.
      rewrite Htitle. rewrite bool_decide_eq_false_2 by done.
      rewrite (proj2 (Z.ltb_ge _ _) Hlen). simpl.
      destruct (Album.produced_by (attrs self)) as [p|]; [|done].
      destruct (bool_decide (p = "")); [done|].
      by rewrite (proj2 (Z.ltb_ge _ _) (Hp p eq_refl)). }
  split.
  - intros Hok. exists k. split; [apply is_fresh|].
    rewrite (save_writes self st (proj2 Hiff Hok)).
    unfold Model_save. rewrite Hpk. simpl. fold k.
    destruct Hok as ((title & Htitle & _) & (y & Hy & _) & _).
    assert (integrity st k (attrs self) = true) as ->; [|done].
    unfold integrity. simpl. rewrite Htitle, Hy. simpl.
    by destruct (Album.produced_by (attrs self)).
  - intros Hbad. exists (full_clean_errors st self). apply save_raises.
    intros Hnil. by apply Hbad, Hiff.
Qed.

(** In May 2024 an album of the year 2024 is saved and one of 2025 is
    not; with the clock in January 2025 and nothing else changed, the
    album of 2025 is saved.  A title of two characters that take four
    bytes counts as two. *)
Lemma album_saved_iff_witness :
  let album (title : string) (y : Z) :=
    mkInstance None true (Album.mk (Some title) (Some y) None) in
  let new_year := set_today (mkDatetime 2025 1 1 0) catalogue in
  (exists k,
      (k ∉ dom (albums catalogue))
      /\ ValidatedModel.save (album "ÉÉ" 2024) catalogue
         = (Return (mkInstance (Some k) false (attrs (album "ÉÉ" 2024))),
            set_albums (<[k := attrs (album "ÉÉ" 2024)]> (albums catalogue))
              catalogue))
  /\ (exists errors,
        ValidatedModel.save (album "Seven" 2025) catalogue
        = (Raise (ValidationError errors), catalogue))
  /\ (exists k,
        (k ∉ dom (albums new_year))
        /\ ValidatedModel.save (album "Seven" 2025) new_year
           = (Return (mkInstance (Some k) false (attrs (album "Seven" 2025))),
              set_albums (<[k := attrs (album "Seven" 2025)]>
                            (albums new_year)) new_year)).
Proof.
  intros album new_year. split; [|split].
  - apply (proj1 (album_saved_iff catalogue (album "ÉÉ" 2024) eq_refl)).
    split; [|split].
    + exists "ÉÉ". split; [reflexivity|]. split; [discriminate|]. by vm_compute.
    + exists 2024. split; [reflexivity|]. by vm_compute.
    + intros p [=].
  - apply (proj2 (album_saved_iff catalogue (album "Seven" 2025) eq_refl)).
    intros (_ & (y & [= <-] & Hyear & _) & _). vm_compute in Hyear.
    destruct Hyear as [_ Hyear]. by apply Hyear.
  - apply (proj1 (album_saved_iff new_year (album "Seven" 2025) eq_refl)).
    split; [|split].
    + exists "Seven". split; [reflexivity|]. split; [discriminate|].
      by vm_compute.
    + exists 2025. split; [reflexivity|]. by vm_compute.
    + intros p [=].
Defined.

(** ** Which authors can be saved *)

(** Cleaning a URL column: an empty value is skipped when the column is
    blank; otherwise the value must match the URL pattern and have at
    most 200 characters. *)
Lemma URLField_clean_nil {M} name (get : M -> option string) st (self : M) :
  clean_field (URLField name get true true) st self = []
  <-> forall w, get self = Some w -> w <> "" ->
                url_regex st w = true /\ Z.of_nat (len w) <= 200.
Proof.
  unfold clean_field, Field_clean, validate, run_validators, is_empty.
  simpl. destruct (get self) as [w|]; simpl; [|done].
  destruct (bool_decide_reflect (w = "")) as [Hw | Hw]; simpl.
  { split; [|done]. intros _ w0 Heq. by simplify_eq. }
  unfold URLValidator, MaxLengthValidator.
  destruct (url_regex st w) eqn:Hurl,
    (Z.ltb_spec 200 (Z.of_nat (len w))) as [Hlong | Hshort]; simpl.
  - split; [discriminate|]. intros Hok. destruct (Hok w eq_refl Hw). lia.
  - split; [|done]. intros _ w0 Heq _. simplify_eq. split; [done | lia].
  - split; [discriminate|]. intros Hok.
    destruct (Hok w eq_refl Hw). congruence.
  - split; [discriminate|]. intros Hok.
    destruct (Hok w eq_refl Hw). congruence.
Qed.

Lemma Author_full_clean_errors (st : State) (self : Instance Author.t) :
  pk self = None ->
  full_clean_errors st self
  = clean_field Author_name st (attrs self)
    ++ clean_field Author_website st (attrs self)
    ++ clean_field Author_first_appearance st (attrs self)
    ++ clean_field Author_last_appearance st (attrs self)
    ++ map (pair NON_FIELD_ERRORS) (Author_clean (attrs self)).
Proof.
  intros Hpk. unfold full_clean_errors, clean_fields, validate_unique,
    validate_constraints.
  cbn [_meta_fields constraints clean Author_Model flat_map].
  assert (clean_field id_field st self = []) as ->.
  { unfold clean_field, is_empty. simpl. by rewrite Hpk. }
  rewrite Hpk. simpl. rewrite !app_nil_r. by rewrite <- !app_assoc.
Qed.

(** X4.  A new Author is saved exactly when the name is set, not empty
    and of at most 255 characters; the website is unset, empty, or a
    URL of at most 200 characters; each appearance year is unset or
    lies between 1000 and the year of [today st], the clock of the
    state the save runs in (within the backend's small integers); and
    the first year, if both are set, is not above the last.  Lengths
    count characters, not bytes.  The Author is then written as it is
    under a key the table did not hold; otherwise [save] raises a
    [ValidationError] and writes nothing. *)
Theorem author_saved_iff (st : State) (self : Instance Author.t) :
  pk self = None ->
  let in_range (v : option Z) :=
    forall y, v = Some y ->
              1000 <= y <= year (today st)
              /\ (integer_field_range (connection st) SmallInteger).1 <= y
                 <= (integer_field_range (connection st) SmallInteger).2 in
  let acceptable :=
    (exists n, Author.name (attrs self) = Some n
               /\ n <> "" /\ Z.of_nat (len n) <= 255)
    /\ (forall w, Author.website (attrs self) = Some w -> w <> "" ->
                  url_regex st w = true /\ Z.of_nat (len w) <= 200)
    /\ in_range (Author.first_appearance (attrs self))
    /\ in_range (Author.last_appearance (attrs self))
    /\ (forall first last,
          Author.first_appearance (attrs self) = Some first ->
          Author.last_appearance (attrs self) = Some last ->
          first <= last) in
  (acceptable ->
   exists k,
     (k ∉ dom (authors st))
     /\ ValidatedModel.save self st
        = (Return (mkInstance (Some k) false (attrs self)),
           set_authors (<[k := attrs self]> (authors st)) st))
  /\ (~ acceptable ->
      exists errors,
        ValidatedModel.save self st = (Raise (ValidationError errors), st)).
Proof.
  intros Hpk in_range acceptable. set (k := fresh (dom (authors st))).
  assert (forall name (get : Author.t -> option Z),
            clean_field
              (SmallIntegerField name get true true
                 [MinValueValidator (Constant 1000);
                  MaxValueValidator (Callable get_current_year)])
              st (attrs self) = []
            <-> in_range (get (attrs self))) as Hyear.
  { intros name get. rewrite year_column_clean. unfold in_range.
    destruct (get (attrs self)) as [y|].
    - split; [by intros ? ? [= <-] | intros Hy; by apply Hy].
    - split; [by intros _ ? [=] | done]. }
  assert (full_clean_errors st self = [] <-> acceptable) as Hiff.
  { rewrite (Author_full_clean_errors st self Hpk). unfold acceptable.
    split.
    - intros Hnil. apply app_eq_nil in Hnil as [Hname Hnil].
      apply app_eq_nil in Hnil as [Hwebsite Hnil].
      apply app_eq_nil in Hnil as [Hfirst Hnil].
      apply app_eq_nil in Hnil as [Hlast Hclean].
      unfold Author_name in Hname. rewrite CharField_clean in Hname.
      unfold Author_website in Hwebsite.
      unfold Author_first_appearance in Hfirst.
      unfold Author_last_appearance in Hlast.
      pose proof (proj1 (URLField_clean_nil _ _ _ _) Hwebsite) as Hurl.
      pose proof (proj1 (Hyear _ _) Hfirst) as Hfirst'.
      pose proof (proj1 (Hyear _ _) Hlast) as Hlast'.
      clear Hwebsite Hfirst Hlast.
      split; [|split; [done|split; [done|split; [done|]]]].
      + destruct (Author.name (attrs self)) as [n|]; [|done].
        exists n. split; [done|].
        destruct (bool_decide_reflect (n = "")); [done|].
        destruct (Z.ltb_spec 255 (Z.of_nat (len n))); done.
      + intros first last Hf Hl.
        destruct (Hfirst' first Hf) as [[? _] _].
        destruct (Hlast' last Hl) as [[? _] _].
        destruct (Z.le_gt_cases first last) as [|Hgt]; [done|].
        exfalso. apply map_eq_nil in Hclean.
        unfold Author_clean, truthy in Hclean. rewrite Hf, Hl in Hclean.
        rewrite (proj2 (Z.eqb_neq first 0)), (proj2 (Z.eqb_neq last 0)) in Hclean
          by lia.
        rewrite (proj2 (Z.ltb_lt last first)) in Hclean by lia.
        discriminate.
    - intros ((n & Hn & Hne & Hlen) & Hwebsite & Hfirst & Hlast & Horder).
      unfold Author_name. rewrite CharField_clean, Hn.
      rewrite bool_decide_eq_false_2 by done.
      rewrite (proj2 (Z.ltb_ge _ _) Hlen).
      assert (clean_field Author_website st (attrs self) = []) as ->
        by by apply (URLField_clean_nil "website" Author.website).
      assert (clean_field Author_first_appearance st (attrs self) = []) as ->
        by by apply (Hyear "first_appearance" Author.first_appearance).
      assert (clean_field Author_last_appearance st (attrs self) = []) as ->
        by by apply (Hyear "last_appearance" Author.last_appearance).
      simpl. unfold Author_clean.
      destruct (Author.first_appearance (attrs self)) as [first|]; [|done].
      destruct (Author.last_appearance (attrs self)) as [last|];
        [|by rewrite andb_false_r].
      rewrite (proj2 (Z.ltb_ge last first)) by by apply Horder.
      by rewrite andb_false_r. }
  split.
  - intros Hok. exists k. split; [apply is_fresh|].
    rewrite (save_writes self st (proj2 Hiff Hok)).
    unfold Model_save. rewrite Hpk. simpl. fold k.
    destruct Hok as ((n & Hn & _) & _).
    assert (integrity st k (attrs self) = true) as ->; [|done].
    unfold integrity. simpl. rewrite Hn. simpl.
    by destruct (Author.website (attrs self)),
         (Author.first_appearance (attrs self)),
         (Author.last_appearance (attrs self)).
  - intros Hbad. exists (full_clean_errors st self). apply save_raises.
    intros Hnil. by apply Hbad, Hiff.
Qed.

(** Queen, first seen in 1970 and last in 1991, is saved in the empty
    world.  Mötley Crüe, last seen in 2025, is refused in May 2024 and
    saved once the clock is in January 2025. *)
Lemma author_saved_iff_witness :
  let queen :=
    mkInstance None true
      (Author.mk (Some "Queen") None (Some 1970) (Some 1991)) in
  let crue :=
    mkInstance None true
      (Author.mk (Some "Mötley Crüe") None (Some 1981) (Some 2025)) in
  let new_year := set_today (mkDatetime 2025 1 1 0) empty_world in
  (exists k,
      (k ∉ dom (authors empty_world))
      /\ ValidatedModel.save queen empty_world
         = (Return (mkInstance (Some k) false (attrs queen)),
            set_authors (<[k := attrs queen]> (authors empty_world))
              empty_world))
  /\ (exists errors,
        ValidatedModel.save crue empty_world
        = (Raise (ValidationError errors), empty_world))
  /\ (exists k,
        (k ∉ dom (authors new_year))
        /\ ValidatedModel.save crue new_year
           = (Return (mkInstance (Some k) false (attrs crue)),
              set_authors (<[k := attrs crue]> (authors new_year)) new_year)).
Proof.
  intros queen crue new_year. split; [|split].
  - apply (proj1 (author_saved_iff empty_world queen eq_refl)).
    split; [|split; [|split; [|split]]].
    + exists "Queen". split; [reflexivity|]. split; [discriminate|].
      by vm_compute.
    + intros w [=].
    + intros y [= <-]. by vm_compute.
    + intros y [= <-]. by vm_compute.
    + intros first last [= <-] [= <-]. lia.
  - apply (proj2 (author_saved_iff empty_world crue eq_refl)).
    intros (_ & _ & _ & Hlast & _).
    destruct (Hlast 2025 eq_refl) as [[_ Hyear] _]. by vm_compute in Hyear.
  - apply (proj1 (author_saved_iff new_year crue eq_refl)).
    split; [|split; [|split; [|split]]].
    + exists "Mötley Crüe". split; [reflexivity|]. split; [discriminate|].
      by vm_compute.
    + intros w [=].
    + intros y [= <-]. by vm_compute.
    + intros y [= <-]. by vm_compute.
    + intros first last [= <-] [= <-]. lia.
Defined.

(** ** Which musicians can be saved *)

(** Cleaning a foreign key: a key that is set must be the key of a row
    of the table the column points to. *)
Lemma ForeignKey_clean {M} name (get : M -> option Z) assign
    (to : State -> gset Z) policy null blank st (self : M) :
  clean_field (ForeignKey name get assign to policy null blank) st self
  = match get self with
    | None =>
        if blank then []
        else [(name, Code (if null then "blank" else "null") None)]
    | Some k =>
        if bool_decide (k ∈ to st) then [] else [(name, Code "invalid" None)]
    end.
Proof.
  unfold clean_field, Field_clean, validate, run_validators, is_empty.
  simpl. destruct (get self) as [k|]; simpl.
  - rewrite !andb_false_r. simpl. by destruct (bool_decide (k ∈ to st)).
  - by destruct blank, null.
Qed.

(** Every key of [INSTRUMENTS] fits the 25 characters of the column. *)
Lemma INSTRUMENTS_fit (i : string) :
  existsb (fun kv : string * string => bool_decide (i = kv.1)) INSTRUMENTS = true ->
  i <> "" /\ (25 <? Z.of_nat (len i)) = false.
Proof.
  intros Hi. apply existsb_exists in Hi as (kv & Hkv & Heq).
  apply bool_decide_eq_true in Heq. subst i.
  simpl in Hkv.
  repeat (destruct Hkv as [<- | Hkv]; [by split|]). done.
Qed.

Lemma Musician_full_clean_errors (st : State) (self : Instance Musician.t) :
  pk self = None ->
  full_clean_errors st self
  = clean_field Musician_name st (attrs self)
    ++ clean_field Musician_nationality st (attrs self)
    ++ clean_field Musician_instrument st (attrs self)
    ++ clean_field Musician_author st (attrs self).
Proof.
  intros Hpk. unfold full_clean_errors, clean_fields, validate_unique,
    validate_constraints.
  cbn [_meta_fields constraints clean Musician_Model flat_map map].
  assert (clean_field id_field st self = []) as ->.
  { unfold clean_field, is_empty. simpl. by rewrite Hpk. }
  rewrite Hpk. simpl. by rewrite !app_nil_r.
Qed.

(** X5.  A new Musician is saved exactly when the name is set, not
    empty and of at most 150 characters, the nationality has one or two
    characters, the instrument is one of the keys of [INSTRUMENTS], and
    the author is the key of an Author in the table.  Lengths count
    characters, not bytes.  The Musician is then written as it is under
    a key the table did not hold; otherwise [save] raises a
    [ValidationError] and writes nothing. *)
Theorem musician_saved_iff (st : State) (self : Instance Musician.t) :
  pk self = None ->
  let acceptable :=
    (exists n, Musician.name (attrs self) = Some n
               /\ n <> "" /\ Z.of_nat (len n) <= 150)
    /\ (exists c, Musician.nationality (attrs self) = Some c
                  /\ (1 <= len c <= 2)%nat)
    /\ (exists i, Musician.instrument (attrs self) = Some i
                  /\ i ∈ map fst INSTRUMENTS)
    /\ (exists a, Musician.author (attrs self) = Some a
                  /\ a ∈ dom (authors st)) in
  (acceptable ->
   exists k,
     (k ∉ dom (musicians st))
     /\ ValidatedModel.save self st
        = (Return (mkInstance (Some k) false (attrs self)),
           set_musicians (<[k := attrs self]> (musicians st)) st))
  /\ (~ acceptable ->
      exists errors,
        ValidatedModel.save self st = (Raise (ValidationError errors), st)).
Proof.
  intros Hpk acceptable. set (k := fresh (dom (musicians st))).
  assert (forall i,
            existsb (fun kv : string * string => bool_decide (i = kv.1))
              INSTRUMENTS = true
            <-> i ∈ map fst INSTRUMENTS) as Hkeys.
  { intros i. rewrite existsb_exists, list_elem_of_In, in_map_iff.
    split.
    - intros (kv & Hkv & Heq). apply bool_decide_eq_true in Heq.
      by exists kv.
    - intros (kv & Heq & Hkv). exists kv. split; [done|].
      by apply bool_decide_eq_true. }
  assert (full_clean_errors st self = [] <-> acceptable) as Hiff.
  { rewrite (Musician_full_clean_errors st self Hpk). unfold acceptable.
    unfold Musician_name, Musician_nationality, Musician_instrument,
      Musician_author.
    rewrite !CharField_clean, CharField_choices_clean, ForeignKey_clean.
    split.
    - intros Hnil. apply app_eq_nil in Hnil as [Hname Hnil].
      apply app_eq_nil in Hnil as [Hnationality Hnil].
      apply app_eq_nil in Hnil as [Hinstrument Hauthor].
      split; [|split; [|split]].
      + destruct (Musician.name (attrs self)) as [n|]; [|done].
        exists n. split; [done|].
        destruct (bool_decide_reflect (n = "")); [done|].
        destruct (Z.ltb_spec 150 (Z.of_nat (len n))); done.
      + destruct (Musician.nationality (attrs self)) as [c|]; [|done].
        exists c. split; [done|].
        destruct (bool_decide_reflect (c = "")) as [|Hc]; [done|].
        destruct (Z.ltb_spec 2 (Z.of_nat (len c))); [done|].
        destruct c; [done|]. simpl in *. lia.
      + destruct (Musician.instrument (attrs self)) as [i|]; [|done].
        exists i. split; [done|]. apply Hkeys.
        destruct (bool_decide (i = "")); [done|].
        by destruct (existsb _ INSTRUMENTS).
      + destruct (Musician.author (attrs self)) as [a|]; [|done].
        exists a. split; [done|].
        by destruct (bool_decide_reflect (a ∈ dom (authors st))).
    - intros ((n & -> & Hne & Hlen) & (c & -> & Hc1 & Hc2) & (i & -> & Hi)
              & (a & -> & Ha)).
      apply Hkeys in Hi. destruct (INSTRUMENTS_fit i Hi) as [Hine Hifit].
      rewrite Hi, Hifit.
      rewrite (bool_decide_eq_false_2 (n = "")) by done.
      rewrite (bool_decide_eq_false_2 (i = "")) by done.
      rewrite (bool_decide_eq_false_2 (c = ""))
        by (intros ->; simpl in Hc1; lia).
      rewrite (proj2 (Z.ltb_ge _ _) Hlen).
      rewrite (proj2 (Z.ltb_ge 2 (Z.of_nat (len c)))) by lia.
      by rewrite (bool_decide_eq_true_2 _ Ha). }
  split.
  - intros Hok. exists k. split; [apply is_fresh|].
    rewrite (save_writes self st (proj2 Hiff Hok)).
    unfold Model_save. rewrite Hpk. simpl. fold k.
    destruct Hok
      as ((n & Hn & _) & (c & Hc & _) & (i & Hi & _) & (a & Ha & Hdom)).
    assert (integrity st k (attrs self) = true) as ->; [|done].
    unfold integrity. simpl. rewrite Hn, Hc, Hi, Ha. simpl.
    by rewrite (bool_decide_eq_true_2 _ Hdom).
  - intros Hbad. exists (full_clean_errors st self). apply save_raises.
    intros Hnil. by apply Hbad, Hiff.
Qed.

(** A trombonist of author 40 is saved, whether the nationality is
    the one letter D or the two letters ÉÉ, which take four bytes; DEU
    has three letters and is refused, and so is a player of the kazoo,
    which is no listed instrument. *)
Lemma musician_saved_iff_witness :
  let player (code instrument : string) :=
    mkInstance None true
      (Musician.mk (Some "Arnold Hutticher") (Some code) (Some instrument)
         (Some 40)) in
  (exists k,
      (k ∉ dom (musicians catalogue))
      /\ ValidatedModel.save (player "D" "trombone") catalogue
         = (Return (mkInstance (Some k) false (attrs (player "D" "trombone"))),
            set_musicians (<[k := attrs (player "D" "trombone")]>
                             (musicians catalogue)) catalogue))
  /\ (exists k,
        (k ∉ dom (musicians catalogue))
        /\ ValidatedModel.save (player "ÉÉ" "trombone") catalogue
           = (Return (mkInstance (Some k) false
                        (attrs (player "ÉÉ" "trombone"))),
              set_musicians (<[k := attrs (player "ÉÉ" "trombone")]>
                               (musicians catalogue)) catalogue))
  /\ (exists errors,
        ValidatedModel.save (player "DEU" "trombone") catalogue
        = (Raise (ValidationError errors), catalogue))
  /\ (exists errors,
        ValidatedModel.save (player "US" "kazoo") catalogue
        = (Raise (ValidationError errors), catalogue)).
Proof.
  intros player. split; [|split; [|split]].
  - apply (proj1 (musician_saved_iff catalogue (player "D" "trombone")
                    eq_refl)).
    split; [|split; [|split]].
    + eexists. split; [reflexivity|]. split; [discriminate|]. by vm_compute.
    + eexists. split; [reflexivity|]. simpl. lia.
    + eexists. split; [reflexivity|]. apply list_elem_of_In. simpl. tauto.
    + eexists. split; [reflexivity|]. by vm_compute.
  - apply (proj1 (musician_saved_iff catalogue (player "ÉÉ" "trombone")
                    eq_refl)).
    split; [|split; [|split]].
    + eexists. split; [reflexivity|]. split; [discriminate|]. by vm_compute.
    + eexists. split; [reflexivity|]. simpl. lia.
    + eexists. split; [reflexivity|]. apply list_elem_of_In. simpl. tauto.
    + eexists. split; [reflexivity|]. by vm_compute.
  - apply (proj2 (musician_saved_iff catalogue (player "DEU" "trombone")
                    eq_refl)).
    intros (_ & (c & [= <-] & Hc) & _). simpl in Hc. lia.
  - apply (proj2 (musician_saved_iff catalogue (player "US" "kazoo")
                    eq_refl)).
    intros (_ & _ & (i & [= <-] & Hi) & _).
    apply list_elem_of_In in Hi. simpl in Hi.
    repeat (destruct Hi as [[=] | Hi]). done.
Defined.

(** ** Which songs can be saved *)

Lemma FileField_clean {M} name (get : M -> option string) st (self : M) :
  clean_field (FileField name get) st self
  = match get self with
    | None => [(name, Code "null" None)]
    | Some s => if bool_decide (s = "") then [(name, Code "blank" None)] else []
    end.
Proof.
  unfold clean_field, Field_clean, validate, run_validators, is_empty.
  simpl. destruct (get self) as [s|]; simpl; [|done].
  by destruct (bool_decide (s = "")).
Qed.

Lemma DurationField_clean {M} name (get : M -> option Z) st (self : M) :
  clean_field (DurationField name get) st self
  = match get self with
    | None => [(name, Code "null" None)]
    | Some _ => []
    end.
Proof.
  unfold clean_field, Field_clean, validate, run_validators, is_empty.
  simpl. by destruct (get self).
Qed.

Lemma BooleanField_clean {M} name (get : M -> option bool) st (self : M) :
  clean_field (BooleanField name get) st self
  = match get self with
    | None => [(name, Code "invalid" None)]
    | Some _ => []
    end.
Proof.
  unfold clean_field, Field_clean, validate, run_validators, is_empty.
  simpl. by destruct (get self).
Qed.

(** A time stamp that the framework sets itself is never refused. *)
Lemma DateTimeField_clean {M} name (get : M -> option datetime) st (self : M) :
  clean_field (DateTimeField name get) st self = [].
Proof.
  unfold clean_field, Field_clean, validate, run_validators, is_empty.
  simpl. by destruct (get self).
Qed.

(** An optional integer column without declared validators is clean
    exactly for no value and for a value in the backend's range. *)
Lemma IntegerField_undeclared_clean {M} kind name (get : M -> option Z)
    st (self : M) :
  clean_field (IntegerField kind name get true true []) st self = []
  <-> forall n, get self = Some n ->
                (integer_field_range (connection st) kind).1 <= n
                <= (integer_field_range (connection st) kind).2.
Proof.
  unfold clean_field, Field_clean, validate, run_validators, is_empty.
  simpl. destruct (get self) as [n|]; simpl; [|done].
  destruct (Z.ltb_spec n (integer_field_range (connection st) kind).1),
    (Z.ltb_spec (integer_field_range (connection st) kind).2 n); simpl;
    (split; [try discriminate; intros _ n0 Hn0; simplify_eq; lia
            | intros Hn; try done; specialize (Hn n eq_refl); lia]).
Qed.

(** A required decimal column is clean exactly for a value that every
    validator of the column accepts. *)
Lemma DecimalField_clean_nil {M} name (get : M -> option Decimal) places maxd
    (v : Validator Decimal) st (self : M) :
  clean_field (DecimalField name get places maxd [v]) st self = []
  <-> exists d, get self = Some d
                /\ v st d = [] /\ DecimalValidator maxd places st d = [].
Proof.
  unfold clean_field, Field_clean, validate, run_validators, is_empty.
  simpl. destruct (get self) as [d|]; simpl.
  - rewrite app_nil_r. split.
    + intros Hnil. apply map_eq_nil, app_eq_nil in Hnil. by exists d.
    + intros (d' & Hd & Hv & Hdec). simplify_eq. by rewrite Hv, Hdec.
  - split; [discriminate|]. by intros (? & [=] & _).
Qed.

(** Every key of [STYLES] fits the 20 characters of [Song.style]. *)
Lemma STYLES_fit (s : string) :
  existsb (fun kv : string * string => bool_decide (s = kv.1)) STYLES = true ->
  s <> "" /\ (20 <? Z.of_nat (len s)) = false.
Proof.
  intros Hs. apply existsb_exists in Hs as (kv & Hkv & Heq).
  apply bool_decide_eq_true in Heq. subst s.
  simpl in Hkv.
  repeat (destruct Hkv as [<- | Hkv]; [by split|]). done.
Qed.

Lemma choice_keys (options : list (string * string)) (s : string) :
  existsb (fun kv : string * string => bool_decide (s = kv.1)) options = true
  <-> s ∈ map fst options.
Proof.
  rewrite existsb_exists, list_elem_of_In, in_map_iff. split.
  - intros (kv & Hkv & Heq). apply bool_decide_eq_true in Heq. by exists kv.
  - intros (kv & Heq & Hkv). exists kv. split; [done|].
    by apply bool_decide_eq_true.
Qed.

(** [less_than_five] accepts exactly the prices below 5. *)
Lemma less_than_five_nil (st : State) (price : Decimal) :
  less_than_five st price = [] <-> (Decimal_value price < 5)%Q.
Proof.
  unfold less_than_five, Decimal_ge.
  destruct (Qle_bool (inject_Z 5) (Decimal_value price)) eqn:Hge.
  - apply Qle_bool_iff in Hge. split; [discriminate|].
    intros Hlt. by apply Qlt_not_le in Hlt.
  - split; [|done]. intros _. apply Qnot_le_lt. intros Hle.
    pose proof (proj2 (Qle_bool_iff (inject_Z 5) _) Hle). congruence.
Qed.

(** The errors of [full_clean] for a new Song are those of its columns
    and, when all columns are clean, of [unique_song]. *)
(** [DecimalValidator] with [max_digits=4] and [decimal_places=2]
    passes a decimal with at most two decimal places and at most two
    digits before them. *)
Lemma DecimalValidator_price (st : State) (p : Decimal) :
  DecimalValidator 4 2 st p = []
  <-> -2 <= exponent p
      /\ (Z.of_nat (length (digits p)) + exponent p <= 2
          \/ (0 <= exponent p /\ digits p = [0])).
Proof.
  unfold DecimalValidator.
  destruct (Z.leb_spec 0 (exponent p)) as [Hpos | Hneg];
    [destruct (decide (digits p = [0])) as [Hzero | Hdigits];
     [rewrite Hzero|]
    |destruct (Z.ltb_spec (Z.of_nat (length (digits p)))
                (Z.abs (exponent p))) as [Hfew | Hmany]];
    cbv beta iota zeta;
    repeat match goal with
           | |- context [Z.ltb ?a ?b] => destruct (Z.ltb_spec a b)
           end;
    (split;
     [ intros Hnil; try discriminate Hnil;
       (split; [lia|]); first [left; lia | right; split; [lia | done]]
     | intros [Hplaces [Hwhole | [Hnone Hwhole]]];
       try done; try lia ]).
Qed.

Lemma Song_full_clean_nil (st : State) (self : Instance Song.t) :
  pk self = None ->
  full_clean_errors st self = []
  <-> (clean_field Song_audio st (attrs self) = []
       /\ clean_field Song_title st (attrs self) = []
       /\ clean_field Song_author st (attrs self) = []
       /\ clean_field Song_album st (attrs self) = []
       /\ clean_field Song_duration st (attrs self) = []
       /\ clean_field Song_style st (attrs self) = []
       /\ clean_field Song_playbacks st (attrs self) = []
       /\ clean_field Song_price st (attrs self) = []
       /\ clean_field Song_deal_of_the_day st (attrs self) = []
       /\ clean_field Song_created_by st (attrs self) = []
       /\ clean_field Song_last_modified_by st (attrs self) = [])
      /\ UniqueConstraint_validate unique_song st self [] = [].
Proof.
  intros Hpk. unfold full_clean_errors, clean_fields, validate_unique,
    validate_constraints.
  cbn [_meta_fields constraints clean Song_Model flat_map map].
  assert (clean_field id_field st self = []) as ->.
  { unfold clean_field, is_empty. simpl. by rewrite Hpk. }
  rewrite Hpk. unfold Song_created, Song_last_modified.
  rewrite !DateTimeField_clean. cbn [app flat_map unique andb].
  rewrite !app_nil_r. split.
  - intros Hnil. apply app_eq_nil in Hnil as [Hfields Hunique].
    rewrite Hfields in Hunique. cbn [map] in Hunique.
    repeat match goal with
           | H : _ ++ _ = [] |- _ => apply app_eq_nil in H as [? ?]
           end.
    by repeat split.
  - intros ((H1 & H2 & H3 & H4 & H5 & H6 & H7 & H8 & H9 & H10 & H11) & Hunique).
    rewrite H1, H2, H3, H4, H5, H6, H7, H8, H9, H10, H11. cbn [app map].
    exact Hunique.
Qed.

(** [pre_save] stamps the two dates and leaves the columns of
    [unique_song] alone. *)
Lemma unique_song_pre_save (st : State) (add : bool) (self : Song.t)
    (exclude : list string) (rows : gmap Z Song.t) :
  lookup_skipped (fields unique_song) exclude (Song_pre_save st add self)
  = lookup_skipped (fields unique_song) exclude self
  /\ row_exists (fields unique_song) rows (Song_pre_save st add self)
     = row_exists (fields unique_song) rows self.
Proof.
  rewrite !unique_song_lookup_skipped, !unique_song_row_exists.
  by destruct add.
Qed.

(** For a new Song, [unique_song] raises nothing exactly when the
    author or the album is unset or no stored song has the same title,
    author, album and duration. *)
Lemma unique_song_validate_nil (st : State) (self : Instance Song.t) :
  pk self = None ->
  Song.title (attrs self) <> None ->
  Song.duration (attrs self) <> None ->
  UniqueConstraint_validate unique_song st self [] = []
  <-> (Song.author (attrs self) <> None ->
       Song.album (attrs self) <> None ->
       forall k row,
         songs st !! k = Some row ->
         ~ (Song.title row = Song.title (attrs self)
            /\ Song.author row = Song.author (attrs self)
            /\ Song.album row = Song.album (attrs self)
            /\ Song.duration row = Song.duration (attrs self))).
Proof.
  intros Hpk Htitle Hduration. unfold UniqueConstraint_validate, other_rows.
  rewrite Hpk, unique_song_lookup_skipped, unique_song_row_exists.
  rewrite !(bool_decide_eq_false_2 (_ ∈ [])) by apply not_elem_of_nil.
  rewrite (bool_decide_eq_false_2 (Song.title (attrs self) = None)) by done.
  rewrite (bool_decide_eq_false_2 (Song.duration (attrs self) = None)) by done.
  cbn [orb]. rewrite !orb_false_r.
  destruct (bool_decide_reflect (Song.author (attrs self) = None)) as [Hau | Hau];
    [by split|].
  destruct (bool_decide_reflect (Song.album (attrs self) = None)) as [Hal | Hal];
    [by split|].
  cbn [orb].
  destruct (existsb _ (map_to_list (objects st))) eqn:Hexists.
  - split; [discriminate|]. intros Hnone. exfalso.
    apply existsb_exists in Hexists as ([k row] & Hin & Hsame).
    apply list_elem_of_In, elem_of_map_to_list in Hin.
    apply (Hnone Hau Hal k row Hin).
    simpl in Hsame. rewrite !andb_true_iff, !bool_decide_eq_true in Hsame.
    tauto.
  - split; [|done]. intros _ _ _ k row Hrow Hsame.
    assert (existsb
              (fun kr : Z * Song.t =>
                 bool_decide (Song.title kr.2 = Song.title (attrs self))
                 && (bool_decide (Song.author kr.2 = Song.author (attrs self))
                     && (bool_decide (Song.album kr.2 = Song.album (attrs self))
                         && (bool_decide
                               (Song.duration kr.2 = Song.duration (attrs self))
                             && true))))
              (map_to_list (objects st)) = true) as Habs; [|congruence].
    apply existsb_exists. exists (k, row). split.
    + by apply list_elem_of_In, elem_of_map_to_list.
    + simpl. destruct Hsame as (? & ? & ? & ?).
      by rewrite !bool_decide_eq_true_2.
Qed.

(** X6.  A new Song is saved exactly when: the audio file and the
    title (at most 250 characters, not bytes) are set and not empty;
    the author and the album, if set, are keys of stored rows, and so
    are the two users; the duration and the deal flag are set; the
    style, if set and not empty, is a key of [STYLES]; the playbacks,
    if set, fit the backend's positive integers; the price is set,
    below 5, and written with at most two decimal places and at most
    two digits before them; and, when author and album are both set, no
    stored song has the same title, author, album and duration.  It is
    then written under a key the table did not hold, with [created]
    and [last_modified] set to the clock's time; otherwise [save]
    raises a [ValidationError] and writes nothing. *)
Theorem song_saved_iff (st : State) (self : Instance Song.t) :
  pk self = None ->
  let acceptable :=
    (exists f, Song.audio (attrs self) = Some f /\ f <> "")
    /\ (exists t, Song.title (attrs self) = Some t
                  /\ t <> "" /\ Z.of_nat (len t) <= 250)
    /\ (forall a, Song.author (attrs self) = Some a -> a ∈ dom (authors st))
    /\ (forall a, Song.album (attrs self) = Some a -> a ∈ dom (albums st))
    /\ is_Some (Song.duration (attrs self))
    /\ (forall s, Song.style (attrs self) = Some s -> s <> "" ->
                  s ∈ map fst STYLES)
    /\ (forall n, Song.playbacks (attrs self) = Some n ->
                  (integer_field_range (connection st) PositiveInteger).1 <= n
                  <= (integer_field_range (connection st) PositiveInteger).2)
    /\ (exists p, Song.price (attrs self) = Some p
                  /\ (Decimal_value p < 5)%Q
                  /\ -2 <= exponent p
                  /\ (Z.of_nat (length (digits p)) + exponent p <= 2
                      \/ (0 <= exponent p /\ digits p = [0])))
    /\ is_Some (Song.deal_of_the_day (attrs self))
    /\ (forall u, Song.created_by (attrs self) = Some u -> u ∈ users st)
    /\ (forall u, Song.last_modified_by (attrs self) = Some u -> u ∈ users st)
    /\ (Song.author (attrs self) <> None ->
        Song.album (attrs self) <> None ->
        forall k row,
          songs st !! k = Some row ->
          ~ (Song.title row = Song.title (attrs self)
             /\ Song.author row = Song.author (attrs self)
             /\ Song.album row = Song.album (attrs self)
             /\ Song.duration row = Song.duration (attrs self))) in
  let row :=
    Song.set_last_modified (Some (today st))
      (Song.set_created (Some (today st)) (attrs self)) in
  (acceptable ->
   exists k,
     (k ∉ dom (songs st))
     /\ ValidatedModel.save self st
        = (Return (mkInstance (Some k) false row),
           set_songs (<[k := row]> (songs st)) st))
  /\ (~ acceptable ->
      exists errors,
        ValidatedModel.save self st = (Raise (ValidationError errors), st)).
Proof.
  intros Hpk acceptable row. set (k := fresh (dom (songs st))).
  assert (full_clean_errors st self = [] <-> acceptable) as Hiff.
  { rewrite (Song_full_clean_nil st self Hpk). unfold acceptable.
    unfold Song_audio, Song_title, Song_author, Song_album, Song_duration,
      Song_style, Song_playbacks, Song_price, Song_deal_of_the_day,
      Song_created_by, Song_last_modified_by, PositiveIntegerField.
    rewrite FileField_clean, CharField_clean, !ForeignKey_clean,
      DurationField_clean, CharField_choices_clean, BooleanField_clean.
    rewrite IntegerField_undeclared_clean, DecimalField_clean_nil.
    split.
    - intros ((Haudio & Htitle & Hauthor & Halbum & Hduration & Hstyle
               & Hplaybacks & Hprice & Hdeal & Hcreated & Hmodified) & Hunique).
      assert (Song.title (attrs self) <> None) as Hti
        by (by destruct (Song.title (attrs self))).
      assert (Song.duration (attrs self) <> None) as Hdu
        by (by destruct (Song.duration (attrs self))).
      pose proof (proj1 (unique_song_validate_nil st self Hpk Hti Hdu) Hunique)
        as Hunique'.
      split; [|split; [|split; [|split; [|split; [|split; [|split;
        [done|split; [|split; [|split; [|split; [|exact Hunique']]]]]]]]]]].
      + destruct (Song.audio (attrs self)) as [f|]; [|done].
        exists f. split; [done|].
        by destruct (bool_decide_reflect (f = "")).
      + destruct (Song.title (attrs self)) as [t|]; [|done].
        exists t. split; [done|].
        destruct (bool_decide_reflect (t = "")); [done|].
        destruct (Z.ltb_spec 250 (Z.of_nat (len t))); done.
      + intros a Ha. rewrite Ha in Hauthor.
        by destruct (bool_decide_reflect (a ∈ dom (authors st))).
      + intros a Ha. rewrite Ha in Halbum.
        by destruct (bool_decide_reflect (a ∈ dom (albums st))).
      + by destruct (Song.duration (attrs self)).
      + intros s Hs Hne. rewrite Hs in Hstyle.
        rewrite (bool_decide_eq_false_2 (s = "")) in Hstyle by done.
        apply choice_keys. by destruct (existsb _ STYLES).
      + destruct Hprice as (p & Hp & Hfive & Hdecimal). exists p.
        split; [done|]. split; [by apply (less_than_five_nil st)|].
        by apply (DecimalValidator_price st).
      + by destruct (Song.deal_of_the_day (attrs self)).
      + intros u Hu. rewrite Hu in Hcreated.
        by destruct (bool_decide_reflect (u ∈ users st)).
      + intros u Hu. rewrite Hu in Hmodified.
        by destruct (bool_decide_reflect (u ∈ users st)).
    - intros ((f & Hf & Hfne) & (t & Ht & Htne & Htlen) & Hauthor & Halbum
              & [d Hd] & Hstyle & Hplaybacks & (p & Hp & Hfive & Hdecimal)
              & [b Hb] & Hcreated & Hmodified & Hunique).
      apply (DecimalValidator_price st) in Hdecimal.
      split.
      + rewrite Hf, Ht, Hd, Hb.
        rewrite (bool_decide_eq_false_2 (f = "")) by done.
        rewrite (bool_decide_eq_false_2 (t = "")) by done.
        rewrite (proj2 (Z.ltb_ge _ _) Htlen).
        split; [done|]. split; [done|].
        split.
        { destruct (Song.author (attrs self)) as [a|]; [|done].
          by rewrite (bool_decide_eq_true_2 _ (Hauthor a eq_refl)). }
        split.
        { destruct (Song.album (attrs self)) as [a|]; [|done].
          by rewrite (bool_decide_eq_true_2 _ (Halbum a eq_refl)). }
        split; [done|]. split.
        { destruct (Song.style (attrs self)) as [s|]; [|done].
          destruct (bool_decide_reflect (s = "")) as [|Hsne]; [done|].
          pose proof (proj2 (choice_keys STYLES s) (Hstyle s eq_refl Hsne))
            as Hkey.
          rewrite Hkey. by rewrite (proj2 (STYLES_fit s Hkey)). }
        split; [done|]. split.
        { exists p. split; [done|].
          split; [by apply less_than_five_nil|done]. }
        split; [done|]. split.
        { destruct (Song.created_by (attrs self)) as [u|]; [|done].
          by rewrite (bool_decide_eq_true_2 _ (Hcreated u eq_refl)). }
        destruct (Song.last_modified_by (attrs self)) as [u|]; [|done].
        by rewrite (bool_decide_eq_true_2 _ (Hmodified u eq_refl)).
      + apply (proj2 (unique_song_validate_nil st self Hpk
                        ltac:(by rewrite Ht) ltac:(by rewrite Hd))).
        exact Hunique. }
  split.
  - intros Hok. exists k. split; [apply is_fresh|].
    pose proof (proj2 Hiff Hok) as Hclean.
    rewrite (save_writes self st Hclean).
    unfold Model_save. rewrite Hpk. cbv zeta. fold k.
    assert (k ∉ dom (objects (M := Song.t) st)) as Hfresh by apply is_fresh.
    rewrite (bool_decide_eq_false_2 _ Hfresh).
    change (pre_save st (negb false) (attrs self)) with row.
    change (fresh (dom (objects (M := Song.t) st))) with k.
    assert (integrity st k row = true) as ->; [|done].
    pose proof (proj2 (proj1 (Song_full_clean_nil st self Hpk) Hclean))
      as Hunique.
    destruct Hok as ((f & Hf & _) & (t & Ht & _) & Hauthor & Halbum
                     & [d Hd] & _ & _ & (p & Hp & _) & [b Hb] & Hcreated
                     & Hmodified & _).
    unfold integrity. apply andb_true_intro. split.
    + cbn. rewrite Hf, Ht, Hd, Hp, Hb. cbn.
      destruct (Song.author (attrs self)) as [a|]; cbn;
        [rewrite (bool_decide_eq_true_2 _ (Hauthor a eq_refl))|];
        (destruct (Song.album (attrs self)) as [al|]; cbn;
         [rewrite (bool_decide_eq_true_2 _ (Halbum al eq_refl))|]);
        (destruct (Song.created_by (attrs self)) as [u|]; cbn;
         [rewrite (bool_decide_eq_true_2 _ (Hcreated u eq_refl))|]);
        (destruct (Song.last_modified_by (attrs self)) as [u'|]; cbn;
         [rewrite (bool_decide_eq_true_2 _ (Hmodified u' eq_refl))|]);
        by destruct (Song.style (attrs self)), (Song.playbacks (attrs self)).
    + cbn [constraints Song_Model forallb]. rewrite andb_true_r.
      change row with (Song_pre_save st true (attrs self)).
      destruct (unique_song_pre_save st true (attrs self) []
                  (delete k (objects st))) as [-> ->].
      rewrite delete_id by by apply not_elem_of_dom.
      unfold UniqueConstraint_validate, other_rows in Hunique.
      rewrite Hpk in Hunique.
      destruct (lookup_skipped (fields unique_song) [] (attrs self)); [done|].
      by destruct (row_exists (fields unique_song) (objects st) (attrs self)).
  - intros Hbad. exists (full_clean_errors st self). apply save_raises.
    intros Hnil. by apply Hbad, Hiff.
Qed.

(** Eighteen is saved in the catalogue, stamped with the clock's
    time, and so is a song whose title, Ça ira, has six characters in
    seven bytes; at the price of 5.00, and at the price of 4.999 with
    its three decimal places, Eighteen is refused. *)
Lemma song_saved_iff_witness :
  let song (title : string) (price : Decimal) :=
    mkInstance None true
      (Song.mk (Some "audio/track.mp3") (Some title) (Some 30) None
         (Some 215000000) (Some "Rock") None (Some price) (Some false)
         None None None None) in
  let stamped (self : Instance Song.t) :=
    Song.set_last_modified (Some may_2024)
      (Song.set_created (Some may_2024) (attrs self)) in
  let fair := mkDecimal false [4; 9; 9] (-2) in
  (exists k,
      (k ∉ dom (songs catalogue))
      /\ ValidatedModel.save (song "Eighteen" fair) catalogue
         = (Return (mkInstance (Some k) false (stamped (song "Eighteen" fair))),
            set_songs (<[k := stamped (song "Eighteen" fair)]>
                         (songs catalogue)) catalogue))
  /\ (exists k,
        (k ∉ dom (songs catalogue))
        /\ ValidatedModel.save (song "Ça ira" fair) catalogue
           = (Return (mkInstance (Some k) false (stamped (song "Ça ira" fair))),
              set_songs (<[k := stamped (song "Ça ira" fair)]>
                           (songs catalogue)) catalogue))
  /\ (exists errors,
        ValidatedModel.save (song "Eighteen" (mkDecimal false [5; 0; 0] (-2)))
          catalogue
        = (Raise (ValidationError errors), catalogue))
  /\ (exists errors,
        ValidatedModel.save
          (song "Eighteen" (mkDecimal false [4; 9; 9; 9] (-3))) catalogue
        = (Raise (ValidationError errors), catalogue)).
Proof.
  intros song stamped fair.
  assert (forall title,
             title <> "" -> Z.of_nat (len title) <= 250 ->
             exists k,
               (k ∉ dom (songs catalogue))
               /\ ValidatedModel.save (song title fair) catalogue
                  = (Return (mkInstance (Some k) false
                               (stamped (song title fair))),
                     set_songs (<[k := stamped (song title fair)]>
                                  (songs catalogue)) catalogue)) as Hsaved.
  { intros title Hne Hlen.
    apply (proj1 (song_saved_iff catalogue (song title fair) eq_refl)).
    split; [|split; [|split; [|split; [|split; [|split; [|split;
      [|split; [|split; [|split; [|split]]]]]]]]]].
    + eexists. split; [reflexivity | discriminate].
    + eexists. split; [reflexivity|]. by split.
    + intros a [= <-]. by vm_compute.
    + intros a [=].
    + by eexists.
    + intros s [= <-] _. apply list_elem_of_In. simpl. tauto.
    + intros n [=].
    + eexists. split; [reflexivity|]. split; [by vm_compute|].
      split; [by vm_compute | left; by vm_compute].
    + by eexists.
    + intros u [=].
    + intros u [=].
    + intros _ Halbum. by destruct Halbum. }
  split; [|split; [|split]].
  - apply Hsaved; [discriminate | by vm_compute].
  - apply Hsaved; [discriminate | by vm_compute].
  - apply (proj2 (song_saved_iff catalogue
                    (song "Eighteen" (mkDecimal false [5; 0; 0] (-2)))
                    eq_refl)).
    intros (_ & _ & _ & _ & _ & _ & _ & (p & [= <-] & Hfive & _) & _).
    by vm_compute in Hfive.
  - apply (proj2 (song_saved_iff catalogue
                    (song "Eighteen" (mkDecimal false [4; 9; 9; 9] (-3)))
                    eq_refl)).
    intros (_ & _ & _ & _ & _ & _ & _ & (p & [= <-] & _ & Hplaces & _) & _).
    by vm_compute in Hplaces.
Defined.

(** ** The dates of a song *)

(** X7.  [created] is stamped once, [last_modified] at every save: when
    a new Song is saved and the instance that [save] returned is saved
    again later, the second save keeps the [created] of the first and
    sets [last_modified] to the later time; no other column is changed
    by either save. *)
Theorem song_dates (st later : State) (self saved saved' : Instance Song.t)
    (st1 st2 : State) :
  pk self = None ->
  ValidatedModel.save self st = (Return saved, st1) ->
  songs later = songs st1 ->
  ValidatedModel.save saved later = (Return saved', st2) ->
  Song.created (attrs saved) = Some (today st)
  /\ Song.last_modified (attrs saved) = Some (today st)
  /\ pk saved' = pk saved
  /\ Song.created (attrs saved') = Some (today st)
  /\ Song.last_modified (attrs saved') = Some (today later)
  /\ attrs saved'
     = Song.set_last_modified (Some (today later))
         (Song.set_created (Some (today st)) (attrs self)).
Proof.
  intros Hpk Hsave Hsongs Hsave'.
  destruct (save_returns self saved st st1 Hsave) as (_ & _ & -> & ->).
  destruct (save_returns _ saved' later st2 Hsave') as (_ & _ & -> & _).
  rewrite Hpk in Hsongs |- *. cbn [pk attrs objects Song_Model].
  rewrite Hsongs. cbn [songs set_songs objects write Song_Model].
  rewrite (bool_decide_eq_false_2 (fresh (dom (songs st)) ∈ dom (songs st)))
    by apply is_fresh.
  rewrite bool_decide_eq_true_2
    by (apply elem_of_dom; rewrite lookup_insert_eq; by eexists).
  by destruct (attrs self).
Qed.

(** "Eighteen", saved in May 2024 and again a year later. *)
Lemma song_dates_witness :
  let stamped :=
    Song.set_last_modified (Some may_2024)
      (Song.set_created (Some may_2024) eighteen) in
  let st1 := set_songs (<[18 := stamped]> (songs catalogue)) catalogue in
  let later := set_today (mkDatetime 2025 5 17 36000) st1 in
  (ValidatedModel.save (mkInstance (Some 18) false stamped) later).1
  = Return (mkInstance (Some 18) false
              (Song.set_last_modified (Some (mkDatetime 2025 5 17 36000))
                 stamped))
  /\ Song.created stamped = Some (today catalogue).
Proof.
  intros stamped st1 later.
  destruct (ValidatedModel.save (mkInstance (Some 18) false stamped) later)
    as [[saved'|e] st2] eqn:Hagain; [|by vm_compute in Hagain].
  destruct (song_dates catalogue later (mkInstance None true eighteen)
              (mkInstance (Some 18) false stamped) saved' st1 st2)
    as (Hcreated & _ & Hpk & _ & _ & Hattrs);
    [reflexivity | by vm_compute | reflexivity | exact Hagain |].
  split; [|exact Hcreated].
  destruct saved' as [k' adding' attrs'].
  cbn [pk attrs] in Hpk, Hattrs. subst k' attrs'.
  vm_compute in Hagain. by simplify_eq.
Defined.

(** ** Which profiles can be saved *)

Lemma Profile_user_lookup (exclude : list string) (rows : gmap Z Profile.t)
    (self : Profile.t) :
  lookup_skipped ["user"] exclude self
  = (bool_decide ("user" ∈ exclude) || bool_decide (Profile.user self = None))
    || false
  /\ row_exists ["user"] rows self
     = existsb
         (fun kr : Z * Profile.t =>
            bool_decide (Profile.user kr.2 = Profile.user self) && true)
         (map_to_list rows).
Proof. by split. Qed.

(** Some stored profile belongs to the user. *)
Lemma Profile_user_taken (rows : gmap Z Profile.t) (self : Profile.t) :
  existsb
    (fun kr : Z * Profile.t =>
       bool_decide (Profile.user kr.2 = Profile.user self) && true)
    (map_to_list rows) = true
  <-> exists k row, rows !! k = Some row /\ Profile.user row = Profile.user self.
Proof.
  rewrite existsb_exists. split.
  - intros ([k row] & Hin & Hsame).
    apply list_elem_of_In, elem_of_map_to_list in Hin.
    rewrite andb_true_r in Hsame. apply bool_decide_eq_true in Hsame.
    by exists k, row.
  - intros (k & row & Hrow & Hsame). exists (k, row). split.
    + by apply list_elem_of_In, elem_of_map_to_list.
    + simpl. by rewrite bool_decide_eq_true_2.
Qed.

(** For a new Profile the only uniqueness check is that of [user]. *)
Lemma Profile_validate_unique (st : State) (self : Instance Profile.t)
    (exclude : list string) :
  pk self = None ->
  validate_unique st self exclude
  = if negb (lookup_skipped ["user"] exclude (attrs self))
       && row_exists ["user"] (profiles st) (attrs self)
    then [("user", Code "unique" None)] else [].
Proof.
  intros Hpk. unfold validate_unique, other_rows. rewrite Hpk.
  cbn [_meta_fields Profile_Model flat_map app].
  change (name_of (field Profile_user)) with "user".
  change (unique Profile_user) with true.
  change (unique Profile_daily_start_time) with false.
  change (unique Profile_daily_finish_time) with false.
  change (unique Profile_preferred_style) with false.
  change (unique Profile_preferred_song) with false.
  cbn [andb app]. by rewrite app_nil_r.
Qed.

Lemma Profile_full_clean_nil (st : State) (self : Instance Profile.t) :
  pk self = None ->
  full_clean_errors st self = []
  <-> (clean_field Profile_user st (attrs self) = []
       /\ clean_field Profile_daily_start_time st (attrs self) = []
       /\ clean_field Profile_daily_finish_time st (attrs self) = []
       /\ clean_field Profile_preferred_style st (attrs self) = []
       /\ clean_field Profile_preferred_song st (attrs self) = [])
      /\ (Profile.user (attrs self) = None
          \/ ~ exists k row, profiles st !! k = Some row
                             /\ Profile.user row = Profile.user (attrs self)).
Proof.
  intros Hpk. unfold full_clean_errors, clean_fields, validate_constraints.
  rewrite (Profile_validate_unique st self _ Hpk).
  cbn [_meta_fields constraints clean Profile_Model flat_map map].
  assert (clean_field id_field st self = []) as ->.
  { unfold clean_field, is_empty. simpl. by rewrite Hpk. }
  cbn [app]. rewrite !app_nil_r.
  destruct (Profile_user_lookup [] (profiles st) (attrs self)) as [Hskip Hexists].
  split.
  - intros Hnil. apply app_eq_nil in Hnil as [Hfields Hunique].
    rewrite Hfields in Hunique. cbn [map] in Hunique.
    rewrite Hskip, Hexists in Hunique.
    rewrite (bool_decide_eq_false_2 (_ ∈ [])) in Hunique
      by apply not_elem_of_nil.
    split.
    + repeat match goal with
             | H : _ ++ _ = [] |- _ => apply app_eq_nil in H as [? ?]
             end.
      by repeat split.
    + destruct (bool_decide_reflect (Profile.user (attrs self) = None));
        [by left|right].
      intros Htaken. apply Profile_user_taken in Htaken.
      rewrite Htaken in Hunique. discriminate.
  - intros ((H1 & H2 & H3 & H4 & H5) & Hfree).
    rewrite H1, H2, H3, H4, H5. cbn [app map].
    rewrite Hskip, Hexists.
    rewrite (bool_decide_eq_false_2 (_ ∈ [])) by apply not_elem_of_nil.
    destruct Hfree as [Hnone | Hfree].
    + by rewrite (bool_decide_eq_true_2 _ Hnone).
    + destruct (existsb _ (map_to_list (profiles st))) eqn:Htaken;
        [|by rewrite andb_false_r].
      exfalso. by apply Hfree, Profile_user_taken.
Qed.

Lemma OneToOneField_clean {M} name (get : M -> option Z) assign
    (to : State -> gset Z) policy st (self : M) :
  clean_field (OneToOneField name get assign to policy) st self
  = match get self with
    | None => [(name, Code "null" None)]
    | Some k =>
        if bool_decide (k ∈ to st) then [] else [(name, Code "invalid" None)]
    end.
Proof.
  unfold clean_field, Field_clean, validate, run_validators, is_empty.
  simpl. destruct (get self) as [k|]; simpl; [|done].
  by destruct (bool_decide (k ∈ to st)).
Qed.

(** X8.  A new Profile is saved exactly when its user is a stored user
    who has no profile yet, the two daily times are set, the preferred
    style is a key of [STYLES], and the preferred song, if set, is a
    stored song.  It is then written as it is under a new key;
    otherwise [save] raises a [ValidationError] and writes nothing.  In
    particular a user never gets a second profile. *)
Theorem profile_saved_iff (st : State) (self : Instance Profile.t) :
  pk self = None ->
  let acceptable :=
    (exists u, Profile.user (attrs self) = Some u
               /\ u ∈ users st
               /\ forall k row, profiles st !! k = Some row ->
                                Profile.user row <> Some u)
    /\ is_Some (Profile.daily_start_time (attrs self))
    /\ is_Some (Profile.daily_finish_time (attrs self))
    /\ (exists s, Profile.preferred_style (attrs self) = Some s
                  /\ s ∈ map fst STYLES)
    /\ (forall k, Profile.preferred_song (attrs self) = Some k ->
                  k ∈ dom (songs st)) in
  let k := fresh (dom (profiles st)) in
  (acceptable ->
   ValidatedModel.save self st
   = (Return (mkInstance (Some k) false (attrs self)),
      set_profiles (<[k := attrs self]> (profiles st)) st))
  /\ (~ acceptable ->
      exists errors,
        ValidatedModel.save self st = (Raise (ValidationError errors), st)).
Proof.
  intros Hpk acceptable k.
  assert (full_clean_errors st self = [] <-> acceptable) as Hiff.
  { rewrite (Profile_full_clean_nil st self Hpk). unfold acceptable.
    unfold Profile_user, Profile_daily_start_time, Profile_daily_finish_time,
      Profile_preferred_style, Profile_preferred_song, TimeField.
    rewrite OneToOneField_clean, !DurationField_clean, CharField_choices_clean,
      ForeignKey_clean.
    split.
    - intros ((Huser & Hstart & Hfinish & Hstyle & Hsong) & Hfree).
      split; [|split; [|split; [|split]]].
      + destruct (Profile.user (attrs self)) as [u|]; [|done].
        exists u. split; [done|].
        split; [by destruct (bool_decide_reflect (u ∈ users st))|].
        intros k0 row Hrow Hsame. destruct Hfree as [|Hfree]; [done|].
        apply Hfree. by exists k0, row.
      + by destruct (Profile.daily_start_time (attrs self)).
      + by destruct (Profile.daily_finish_time (attrs self)).
      + destruct (Profile.preferred_style (attrs self)) as [s|]; [|done].
        exists s. split; [done|]. apply choice_keys.
        destruct (bool_decide (s = "")); [done|].
        by destruct (existsb _ STYLES).
      + intros k0 Hk0. rewrite Hk0 in Hsong.
        by destruct (bool_decide_reflect (k0 ∈ dom (songs st))).
    - intros ((u & Hu & Hin & Hfree) & [t1 Ht1] & [t2 Ht2] & (s & Hs & Hkey)
              & Hsong).
      split.
      + rewrite Hu, Ht1, Ht2, Hs. rewrite (bool_decide_eq_true_2 _ Hin).
        apply choice_keys in Hkey.
        destruct (STYLES_fit s Hkey) as [Hne Hfit].
        rewrite (bool_decide_eq_false_2 (s = "")) by done. rewrite Hkey.
        rewrite (proj2 (Z.ltb_ge 30 (Z.of_nat (len s))))
          by (apply Z.ltb_ge in Hfit; lia).
        repeat split.
        destruct (Profile.preferred_song (attrs self)) as [k0|]; [|done].
        by rewrite (bool_decide_eq_true_2 _ (Hsong k0 eq_refl)).
      + right. intros (k0 & row & Hrow & Hsame). rewrite Hu in Hsame.
        by apply (Hfree k0 row). }
  split.
  - intros Hok. pose proof (proj2 Hiff Hok) as Hclean.
    rewrite (save_writes self st Hclean).
    unfold Model_save. rewrite Hpk. cbv zeta. cbn [pre_save Profile_Model].
    change (fresh (dom (objects (M := Profile.t) st))) with k.
    assert (k ∉ dom (profiles st)) as Hfresh by apply is_fresh.
    assert (integrity st k (attrs self) = true) as ->; [|done].
    destruct Hok as ((u & Hu & Hin & Hfree) & [t1 Ht1] & [t2 Ht2]
                     & (s & Hs & _) & Hsong).
    unfold integrity. cbn [constraints Profile_Model forallb].
    rewrite andb_true_r.
    cbn [_meta_fields Profile_Model forallb].
    change (objects st) with (profiles st).
    rewrite delete_id by by apply not_elem_of_dom.
    destruct (Profile_user_lookup [] (profiles st) (attrs self)) as [_ Hexists].
    change (field_name Profile_user) with "user". rewrite Hexists.
    assert (existsb
              (fun kr : Z * Profile.t =>
                 bool_decide (Profile.user kr.2 = Profile.user (attrs self))
                 && true)
              (map_to_list (profiles st)) = false) as ->.
    { apply not_true_is_false. intros Htaken.
      apply Profile_user_taken in Htaken as (k0 & row & Hrow & Hsame).
      rewrite Hu in Hsame. by apply (Hfree k0 row). }
    cbn. rewrite Hu, Ht1, Ht2, Hs. cbn.
    rewrite (bool_decide_eq_true_2 _ Hin). cbn.
    destruct (Profile.preferred_song (attrs self)) as [k0|]; [|done].
    by rewrite (bool_decide_eq_true_2 _ (Hsong k0 eq_refl)).
  - intros Hbad. exists (full_clean_errors st self). apply save_raises.
    intros Hnil. by apply Hbad, Hiff.
Qed.

(** User 2 gets a profile; user 1, who has one, gets no second. *)
Lemma profile_saved_iff_witness :
  ValidatedModel.save
    (mkInstance None true
       (Profile.mk (Some 2) (Some 32400) (Some 50400) (Some "Folk") (Some 15)))
    listeners
  = (Return (mkInstance (Some 2) false
               (Profile.mk (Some 2) (Some 32400) (Some 50400) (Some "Folk")
                  (Some 15))),
     set_profiles
       (<[2 := Profile.mk (Some 2) (Some 32400) (Some 50400) (Some "Folk")
                 (Some 15)]> (profiles listeners)) listeners)
  /\ exists errors,
       ValidatedModel.save
         (mkInstance None true
            (Profile.mk (Some 1) (Some 32400) (Some 50400) (Some "Folk") None))
         listeners
       = (Raise (ValidationError errors), listeners).
Proof.
  split.
  - apply (proj1 (profile_saved_iff listeners
                    (mkInstance None true
                       (Profile.mk (Some 2) (Some 32400) (Some 50400)
                          (Some "Folk") (Some 15))) eq_refl)).
    split; [|split; [|split; [|split]]].
    + exists 2. split; [reflexivity|]. split; [by vm_compute|].
      intros k row Hrow. unfold listeners in Hrow. cbn [profiles] in Hrow.
      apply lookup_singleton_Some in Hrow as [_ <-]. discriminate.
    + by eexists.
    + by eexists.
    + eexists. split; [reflexivity|]. apply list_elem_of_In. simpl. tauto.
    + intros k [= <-]. by vm_compute.
  - apply (proj2 (profile_saved_iff listeners
                    (mkInstance None true
                       (Profile.mk (Some 1) (Some 32400) (Some 50400)
                          (Some "Folk") None)) eq_refl)).
    intros ((u & [= <-] & _ & Hfree) & _).
    by apply (Hfree 1 (Profile.mk (Some 1) (Some 32400) (Some 50400)
                         (Some "Rock") None)).
Defined.

(** ** The through models *)

Lemma RelationshipAuthorSong_full_clean_errors (st : State)
    (self : Instance RelationshipAuthorSong.t) :
  pk self = None ->
  full_clean_errors st self
  = clean_field RelationshipAuthorSong_author st (attrs self)
    ++ clean_field RelationshipAuthorSong_song st (attrs self).
Proof.
  intros Hpk. unfold full_clean_errors, clean_fields, validate_unique,
    validate_constraints.
  cbn [_meta_fields constraints clean RelationshipAuthorSong_Model flat_map map].
  assert (clean_field id_field st self = []) as ->.
  { unfold clean_field, is_empty. simpl. by rewrite Hpk. }
  rewrite Hpk. simpl. by rewrite !app_nil_r.
Qed.

(** X9.  A new RelationshipAuthorSong is saved exactly when its author
    and its song are stored rows; whether the table already relates the
    two plays no part.  So the same author and song can be related by
    any number of rows, and the song's manager then lists the author
    once per row. *)
Theorem author_song_saved_iff (st : State)
    (self : Instance RelationshipAuthorSong.t) :
  pk self = None ->
  let acceptable :=
    (exists a, RelationshipAuthorSong.author (attrs self) = Some a
               /\ a ∈ dom (authors st))
    /\ (exists s, RelationshipAuthorSong.song (attrs self) = Some s
                  /\ s ∈ dom (songs st)) in
  let k := fresh (dom (author_songs st)) in
  (acceptable ->
   ValidatedModel.save self st
   = (Return (mkInstance (Some k) false (attrs self)),
      set_author_songs (<[k := attrs self]> (author_songs st)) st)
   /\ forall a s,
        RelationshipAuthorSong.author (attrs self) = Some a ->
        RelationshipAuthorSong.song (attrs self) = Some s ->
        all (Song_authors s)
          (set_author_songs (<[k := attrs self]> (author_songs st)) st)
        ≡ₚ a :: all (Song_authors s) st)
  /\ (~ acceptable ->
      exists errors,
        ValidatedModel.save self st = (Raise (ValidationError errors), st)).
Proof.
  intros Hpk acceptable k.
  assert (full_clean_errors st self = [] <-> acceptable) as Hiff.
  { rewrite (RelationshipAuthorSong_full_clean_errors st self Hpk).
    unfold acceptable, RelationshipAuthorSong_author,
      RelationshipAuthorSong_song.
    rewrite !ForeignKey_clean. split.
    - intros Hnil. apply app_eq_nil in Hnil as [Hauthor Hsong]. split.
      + destruct (RelationshipAuthorSong.author (attrs self)) as [a|]; [|done].
        exists a. split; [done|].
        by destruct (bool_decide_reflect (a ∈ dom (authors st))).
      + destruct (RelationshipAuthorSong.song (attrs self)) as [s|]; [|done].
        exists s. split; [done|].
        by destruct (bool_decide_reflect (s ∈ dom (songs st))).
    - intros ((a & -> & Ha) & (s & -> & Hs)).
      by rewrite (bool_decide_eq_true_2 _ Ha), (bool_decide_eq_true_2 _ Hs). }
  split.
  - intros Hok. split.
    + rewrite (save_writes self st (proj2 Hiff Hok)).
      unfold Model_save. rewrite Hpk. simpl. fold k.
      destruct Hok as ((a & Ha & Hadom) & (s & Hs & Hsdom)).
      assert (integrity st k (attrs self) = true) as ->; [|done].
      unfold integrity. simpl. rewrite Ha, Hs. simpl.
      by rewrite (bool_decide_eq_true_2 _ Hadom), (bool_decide_eq_true_2 _ Hsdom).
    + intros a s Ha Hs. destruct Hok as ((a' & Ha' & Hadom) & _).
      assert (a' = a) as -> by congruence. rewrite !Song_authors_all.
      cbn [author_songs set_author_songs authors].
      rewrite map_to_list_insert by (apply not_elem_of_dom; apply is_fresh).
      cbn [fmap list_fmap omap list_omap snd].
      rewrite Hs, Ha. rewrite bool_decide_eq_true_2 by done.
      by rewrite (bool_decide_eq_true_2 _ Hadom).
  - intros Hbad. exists (full_clean_errors st self). apply save_raises.
    intros Hnil. by apply Hbad, Hiff.
Qed.

(** The pair of author 10 and song 15, stored once in the catalogue, is
    saved a second time; the song's manager then lists author 10
    twice. *)
Lemma author_song_saved_iff_witness :
  ValidatedModel.save
    (mkInstance None true (RelationshipAuthorSong.mk (Some 10) (Some 15)))
    catalogue
  = (Return (mkInstance (Some 2) false
               (RelationshipAuthorSong.mk (Some 10) (Some 15))),
     set_author_songs
       (<[2 := RelationshipAuthorSong.mk (Some 10) (Some 15)]>
          (author_songs catalogue)) catalogue)
  /\ all (Song_authors 15)
       (set_author_songs
          (<[2 := RelationshipAuthorSong.mk (Some 10) (Some 15)]>
             (author_songs catalogue)) catalogue)
     ≡ₚ [10; 10].
Proof.
  destruct (proj1 (author_song_saved_iff catalogue
                     (mkInstance None true
                        (RelationshipAuthorSong.mk (Some 10) (Some 15)))
                     eq_refl)) as [Hsave Hall].
  - split; eexists; (split; [reflexivity | by vm_compute]).
  - split; [exact Hsave|]. exact (Hall 10 15 eq_refl eq_refl).
Defined.

(** ** What a deletion takes with it *)

Section DeletionFacts.
Context {M : Type}.
Implicit Types (f : Field M Z) (table : gmap Z M).

Lemma lookup_delete_batch (keys : gset Z) table (i : Z) (row : M) :
  delete_batch keys table !! i = Some row
  <-> table !! i = Some row /\ i ∉ keys.
Proof. unfold delete_batch. by rewrite map_lookup_filter_Some. Qed.

Lemma elem_of_cascade f (r : RemoteField M Z) (keys : gset Z) table (i : Z) :
  remote_field f = Some r ->
  on_delete r = CASCADE ->
  i ∈ cascade f keys table
  <-> exists row k,
        table !! i = Some row /\ get f row = Some k /\ k ∈ keys.
Proof.
  intros Hr Hpolicy. unfold cascade. rewrite Hr, Hpolicy.
  rewrite elem_of_dom. unfold is_Some.
  setoid_rewrite map_lookup_filter_Some. unfold refers. simpl. split.
  - intros (row & Hrow & Href). exists row.
    destruct (get f row) as [k|]; [|done]. exists k.
    by apply bool_decide_eq_true in Href.
  - intros (row & k & Hrow & Hget & Hk). exists row. split; [done|].
    rewrite Hget. by apply bool_decide_eq_true.
Qed.

Lemma lookup_field_update f (r : RemoteField M Z) (keys : gset Z) table (i : Z) :
  remote_field f = Some r ->
  on_delete r = SET_NULL ->
  field_update f keys table !! i
  = (fun row => if refers f keys row then assign r None row else row)
      <$> table !! i.
Proof.
  intros Hr Hpolicy. unfold field_update. rewrite Hr, Hpolicy.
  by rewrite lookup_fmap.
Qed.
End DeletionFacts.

(** X10.  The deletion of author [k] removes, besides the author, the
    through rows of both through models that name the author and, with
    each musician of the author, the through rows that name that
    musician; every other through row stays as it is, and no album is
    touched. *)
Theorem author_delete_through_rows (st : State) (k : Z) :
  let st' := (Author_delete k st).2 in
  authors st' = delete k (authors st)
  /\ albums st' = albums st
  /\ author_songs st'
     = filter (fun kr => RelationshipAuthorSong.author kr.2 <> Some k)
         (author_songs st)
  /\ forall i row,
       author_musicians st' !! i = Some row
       <-> author_musicians st !! i = Some row
           /\ RelationshipAuthorMusician.author row <> Some k
           /\ forall m player,
                RelationshipAuthorMusician.musician row = Some m ->
                musicians st !! m = Some player ->
                Musician.author player <> Some k.
Proof.
  unfold Author_delete, Collector_delete, collect.
  cbn [snd authors albums author_songs author_musicians del_authors
       del_albums del_songs del_users del_musicians del_author_songs
       del_author_musicians].
  split; [|split; [|split]].
  - unfold delete_batch. apply map_eq. intros i.
    destruct (decide (i = k)) as [-> | Hne].
    + rewrite lookup_delete_eq. apply map_lookup_filter_None. right.
      intros x _. simpl. set_solver.
    + rewrite lookup_delete_ne by done.
      destruct (authors st !! i) as [x|] eqn:Hx.
      * apply map_lookup_filter_Some. split; [done|]. simpl. set_solver.
      * apply map_lookup_filter_None. by left.
  - apply delete_batch_empty.
  - erewrite (cascade_set_null Song_author) by reflexivity.
    rewrite (cascade_empty Song_album), (cascade_empty Song_created_by),
      (cascade_empty Song_last_modified_by), !union_empty_l_L.
    rewrite (cascade_empty RelationshipAuthorSong_song), union_empty_r_L.
    rewrite field_update_empty.
    erewrite (field_update_cascade RelationshipAuthorSong_author) by reflexivity.
    by erewrite (delete_batch_cascade RelationshipAuthorSong_author)
      by reflexivity.
  - intros i row. rewrite union_empty_l_L.
    erewrite (field_update_cascade RelationshipAuthorMusician_musician)
      by reflexivity.
    erewrite (field_update_cascade RelationshipAuthorMusician_author)
      by reflexivity.
    rewrite lookup_delete_batch, !elem_of_union.
    rewrite (elem_of_cascade RelationshipAuthorMusician_author _ _ _ _
               eq_refl eq_refl).
    rewrite (elem_of_cascade RelationshipAuthorMusician_musician _ _ _ _
               eq_refl eq_refl).
    setoid_rewrite elem_of_union.
    setoid_rewrite (elem_of_cascade Musician_author _ _ _ _ eq_refl eq_refl).
    cbn [get RelationshipAuthorMusician_author
         RelationshipAuthorMusician_musician Musician_author ForeignKey].
    split.
    + intros (Hrow & Hnot). split; [done|]. split.
      * intros Hauthor. apply Hnot. left. exists row, k.
        split; [done|]. split; [done|]. set_solver.
      * intros m player Hm Hplayer Hk. apply Hnot. right. exists row, m.
        split; [done|]. split; [done|]. right. exists player, k.
        split; [done|]. split; [done|]. set_solver.
    + intros (Hrow & Hauthor & Hmusician). split; [done|].
      intros [(row' & a & Hrow' & Ha & Hin)
             | (row' & m & Hrow' & Hm & [Hin | (player & a & Hp & Ha & Hin)])];
        simplify_eq.
      * apply elem_of_singleton in Hin. by subst.
      * apply elem_of_singleton in Hin. subst.
        by apply (Hmusician m player).
Qed.

(** ** The schema holds of every stored row *)

Section Integrity.
Context {M : Type} `{Model M}.

Lemma row_exists_true names (rows : gmap Z M) self :
  row_exists names rows self = true
  <-> exists i r, rows !! i = Some r /\ matches names r self = true.
Proof.
  unfold row_exists. rewrite existsb_exists. split.
  - intros ([i r] & Hin & Hm). exists i, r. split; [|done].
    apply elem_of_map_to_list. by apply list_elem_of_In.
  - intros (i & r & Hr & Hm). exists (i, r). split; [|done].
    apply list_elem_of_In. by apply elem_of_map_to_list.
Qed.

Lemma same_value_sym (a : AnyField M) (r self : M) :
  same_value a r self = same_value a self r.
Proof. destruct a as [T ? f]. simpl. apply bool_decide_ext. split; congruence. Qed.

Lemma matches_sym names (r self : M) :
  matches names r self = matches names self r.
Proof.
  unfold matches. induction names as [|n names IH]; [done|]. simpl.
  rewrite IH. f_equal.
  destruct (get_field n); [apply same_value_sym | done].
Qed.

(** A row that agrees with one holding NULL in a column of the lookup
    holds NULL there too. *)
Lemma matches_skipped names (r self : M) :
  matches names r self = true ->
  lookup_skipped names [] self = true ->
  lookup_skipped names [] r = true.
Proof.
  unfold matches, lookup_skipped.
  rewrite forallb_forall, !existsb_exists.
  intros Hm (n & Hn & Hskip). exists n. split; [done|].
  specialize (Hm n Hn).
  rewrite bool_decide_eq_false_2 in * by apply not_elem_of_nil. simpl in *.
  destruct (get_field n) as [[T ? f]|]; [|done]. simpl in *.
  apply bool_decide_eq_true in Hm, Hskip. apply bool_decide_eq_true.
  congruence.
Qed.

(** [integrity] can only improve when the row keeps its values or
    loses them in nullable columns, the rows referred to stay, and no
    new row holds the values of a unique lookup. *)
Lemma integrity_mono (st st' : State) (k k' : Z) (row row' : M) :
  Forall (fun a =>
            match a with
            | field f =>
                match get f row' with
                | None => get f row = None \/ null f = true
                | Some x =>
                    get f row = Some x
                    /\ (forall r, remote_field f = Some r ->
                                  to r st x = true -> to r st' x = true)
                    /\ (unique f = true ->
                        row_exists [field_name f] (delete k' (objects st')) row'
                        = true ->
                        row_exists [field_name f] (delete k (objects st)) row
                        = true)
                end
            end) _meta_fields ->
  Forall (fun c =>
            lookup_skipped (fields c) [] row' = false ->
            lookup_skipped (fields c) [] row = false
            /\ (row_exists (fields c) (delete k' (objects st')) row' = true ->
                row_exists (fields c) (delete k (objects st)) row = true))
    constraints ->
  integrity st k row = true -> integrity st' k' row' = true.
Proof.
  intros Hfields Hconstraints. unfold integrity.
  rewrite !andb_true_iff, !forallb_forall. intros [Hf Hc].
  rewrite Forall_forall in Hfields. rewrite Forall_forall in Hconstraints.
  split.
  - intros a Ha. specialize (Hf a Ha).
    apply list_elem_of_In in Ha. specialize (Hfields a Ha).
    destruct a as [T ? f].
    destruct (get f row') as [x|] eqn:Hx.
    + destruct Hfields as (Hget & Hto & Huniq). rewrite Hget in Hf.
      apply andb_true_iff in Hf as [Hf1 Hf2]. apply andb_true_iff. split.
      * destruct (remote_field f) as [r|]; [|done]. by apply Hto.
      * destruct (unique f); [|done]. simpl in *.
        apply negb_true_iff. apply negb_true_iff in Hf2.
        destruct (row_exists _ (delete k' _) row') eqn:Hex; [|done].
        rewrite Huniq in Hf2; done.
    + destruct Hfields as [Hnone | Hnull]; [by rewrite Hnone in Hf | done].
  - intros c Hin. specialize (Hc c Hin).
    apply list_elem_of_In in Hin. specialize (Hconstraints c Hin).
    destruct (lookup_skipped (fields c) [] row') eqn:Hskip; [done|]. simpl.
    destruct (Hconstraints eq_refl) as [Hskip' Hex]. rewrite Hskip' in Hc.
    simpl in Hc. apply negb_true_iff. apply negb_true_iff in Hc.
    destruct (row_exists _ (delete k' _) row') eqn:Hex'; [|done].
    rewrite Hex in Hc; done.
Qed.

(** A table that is not written stays sound while the rows its rows
    refer to stay. *)
Lemma rows_sound_frame (st st' : State) :
  objects st' = objects st ->
  targets_stay st st' ->
  rows_sound st -> rows_sound st'.
Proof.
  intros Hobjects Hstay Hsound k row Hrow. rewrite Hobjects in Hrow.
  apply (integrity_mono st st' k k row row); [| |by apply Hsound].
  - unfold targets_stay in Hstay. rewrite Forall_forall in Hstay.
    apply Forall_forall. intros a Ha. specialize (Hstay a Ha).
    destruct a as [T ? f]. destruct (get f row) as [x|]; [|by left].
    split; [done|]. split; [intros r; apply Hstay|]. by rewrite Hobjects.
  - apply Forall_forall. intros c _ Hskip. split; [done|].
    by rewrite Hobjects.
Qed.

(** The write of a row that passes [integrity] keeps the table
    sound. *)
Lemma rows_sound_insert (st st' : State) (k : Z) (row : M) :
  objects st' = <[k := row]> (objects st) ->
  targets_stay st st' ->
  unique_lookups ->
  integrity st k row = true ->
  rows_sound st -> rows_sound st'.
Proof.
  intros Hobjects Hstay Hnames Hrow Hsound i r Hr.
  unfold targets_stay in Hstay. rewrite Forall_forall in Hstay.
  unfold unique_lookups in Hnames. rewrite Forall_forall in Hnames.
  rewrite Hobjects in Hr.
  destruct (decide (i = k)) as [-> | Hne].
  - rewrite lookup_insert_eq in Hr. simplify_eq.
    apply (integrity_mono st st' k k r r); [| |done].
    + apply Forall_forall. intros a Ha. specialize (Hstay a Ha).
      destruct a as [T ? f]. destruct (get f r) as [x|]; [|by left].
      split; [done|]. split; [intros r0; apply Hstay|].
      by rewrite Hobjects, delete_insert_eq.
    + apply Forall_forall. intros c _ Hskip. split; [done|].
      by rewrite Hobjects, delete_insert_eq.
  - rewrite lookup_insert_ne in Hr by done.
    assert (Hother : forall names,
               row_exists names (delete i (objects st')) r = true ->
               matches names row r = true
               \/ row_exists names (delete i (objects st)) r = true).
    { intros names. rewrite !row_exists_true.
      intros (j & r' & Hj & Hm). rewrite Hobjects in Hj.
      apply lookup_delete_Some in Hj as [Hji Hj].
      destruct (decide (j = k)) as [-> | Hjk].
      - rewrite lookup_insert_eq in Hj. simplify_eq. by left.
      - rewrite lookup_insert_ne in Hj by done. right. exists j, r'.
        split; [|done]. by apply lookup_delete_Some. }
    assert (Hseen : forall names,
               matches names row r = true ->
               row_exists names (delete k (objects st)) row = true).
    { intros names Hm. apply row_exists_true. exists i, r.
      split; [by apply lookup_delete_Some|]. by rewrite matches_sym. }
    pose proof Hrow as Hrow'. unfold integrity in Hrow'.
    rewrite andb_true_iff, !forallb_forall in Hrow'.
    destruct Hrow' as [Hf Hc].
    apply (integrity_mono st st' i i r r); [| |by apply Hsound].
    + apply Forall_forall. intros a Ha. specialize (Hstay a Ha).
      specialize (Hnames a Ha). apply list_elem_of_In in Ha.
      specialize (Hf a Ha).
      destruct a as [T ? f]. destruct (get f r) as [x|] eqn:Hx; [|by left].
      split; [done|]. split; [intros r0; apply Hstay|].
      intros Hunique Hex. destruct (Hother _ Hex) as [Hm | Hold]; [|done].
      exfalso. pose proof (Hnames Hunique row r Hm) as Hsame.
      rewrite Hsame, Hx, Hunique, (Hseen _ Hm) in Hf.
      by rewrite andb_false_r in Hf.
    + apply Forall_forall. intros c Hin Hskip. split; [done|].
      intros Hex. destruct (Hother _ Hex) as [Hm | Hold]; [|done].
      exfalso. apply list_elem_of_In in Hin. specialize (Hc c Hin).
      rewrite (Hseen _ Hm), orb_false_r in Hc.
      rewrite matches_sym in Hm.
      by rewrite (matches_skipped _ _ _ Hm Hc) in Hskip.
Qed.
End Integrity.

Ltac solve_targets_stay :=
  intros (Husers & Hauthors & Hmusicians & Halbums & Hsongs);
  unfold targets_stay;
  cbn [_meta_fields Author_Model Musician_Model Album_Model Song_Model
       Profile_Model RelationshipAuthorMusician_Model
       RelationshipAuthorSong_Model];
  repeat (apply Forall_cons; split); try exact (Forall_nil_2 _);
  cbv beta iota; intros r x Hr; try discriminate Hr;
  cbn in Hr; simplify_eq; cbn [to];
  rewrite !bool_decide_eq_true; set_solver.

Lemma targets_stay_grows (st st' : State) :
  grows st st' ->
  targets_stay (M := Author.t) st st'
  /\ targets_stay (M := Musician.t) st st'
  /\ targets_stay (M := Album.t) st st'
  /\ targets_stay (M := Song.t) st st'
  /\ targets_stay (M := Profile.t) st st'
  /\ targets_stay (M := RelationshipAuthorMusician.t) st st'
  /\ targets_stay (M := RelationshipAuthorSong.t) st st'.
Proof.
  intros Hgrows. repeat split; revert Hgrows; solve_targets_stay.
Qed.

Ltac solve_unique_lookups :=
  unfold unique_lookups;
  cbn [_meta_fields Author_Model Musician_Model Album_Model Song_Model
       Profile_Model RelationshipAuthorMusician_Model
       RelationshipAuthorSong_Model];
  repeat (apply Forall_cons; split); try exact (Forall_nil_2 _);
  cbv beta iota; intros Hunique; try discriminate Hunique.

Lemma unique_lookups_models :
  unique_lookups (M := Author.t)
  /\ unique_lookups (M := Musician.t)
  /\ unique_lookups (M := Album.t)
  /\ unique_lookups (M := Song.t)
  /\ unique_lookups (M := Profile.t)
  /\ unique_lookups (M := RelationshipAuthorMusician.t)
  /\ unique_lookups (M := RelationshipAuthorSong.t).
Proof.
  repeat split; solve_unique_lookups.
  intros r self Hm. unfold matches in Hm. cbn in Hm.
  rewrite andb_true_r in Hm. by apply bool_decide_eq_true in Hm.
Qed.

Lemma grows_refl (st : State) : grows st st.
Proof. by repeat split. Qed.

Ltac solve_write_sound st k row :=
  intros (HA & HMu & HAl & HS & HP & HAM & HAS) Hrow;
  match goal with
  | |- sound ?st' =>
      assert (Hgrows : grows st st')
        by (repeat split; cbn; try done; rewrite dom_insert_L; set_solver);
      destruct (targets_stay_grows st st' Hgrows)
        as (TA & TMu & TAl & TS & TP & TAM & TAS)
  end;
  destruct unique_lookups_models as (UA & UMu & UAl & US & UP & UAM & UAS);
  repeat split;
  first [ by apply (rows_sound_frame st)
        | by apply (rows_sound_insert st _ k row) ].

(** The write of a row that passes [integrity] keeps the schema,
    whatever the table. *)
Lemma Author_write_sound (st : State) (k : Z) (row : Author.t) :
  sound st -> integrity st k row = true ->
  sound (write (<[k := row]> (objects st)) st).
Proof. solve_write_sound st k row. Qed.

Lemma Musician_write_sound (st : State) (k : Z) (row : Musician.t) :
  sound st -> integrity st k row = true ->
  sound (write (<[k := row]> (objects st)) st).
Proof. solve_write_sound st k row. Qed.

Lemma Album_write_sound (st : State) (k : Z) (row : Album.t) :
  sound st -> integrity st k row = true ->
  sound (write (<[k := row]> (objects st)) st).
Proof. solve_write_sound st k row. Qed.

Lemma Song_write_sound (st : State) (k : Z) (row : Song.t) :
  sound st -> integrity st k row = true ->
  sound (write (<[k := row]> (objects st)) st).
Proof. solve_write_sound st k row. Qed.

Lemma Profile_write_sound (st : State) (k : Z) (row : Profile.t) :
  sound st -> integrity st k row = true ->
  sound (write (<[k := row]> (objects st)) st).
Proof. solve_write_sound st k row. Qed.

Lemma RelationshipAuthorMusician_write_sound (st : State) (k : Z)
    (row : RelationshipAuthorMusician.t) :
  sound st -> integrity st k row = true ->
  sound (write (<[k := row]> (objects st)) st).
Proof. solve_write_sound st k row. Qed.

Lemma RelationshipAuthorSong_write_sound (st : State) (k : Z)
    (row : RelationshipAuthorSong.t) :
  sound st -> integrity st k row = true ->
  sound (write (<[k := row]> (objects st)) st).
Proof. solve_write_sound st k row. Qed.

(** What holds of the state and after every write that passes
    [integrity] holds after a [save], raised or not. *)
Lemma save_keeps {M : Type} `{Model M} (P : State -> Prop)
    (self : Instance M) (st : State) :
  P st ->
  (forall k row, integrity st k row = true ->
                 P (write (<[k := row]> (objects st)) st)) ->
  P (ValidatedModel.save self st).2.
Proof.
  intros Hst Hwrite.
  destruct (full_clean_errors st self) as [|e errors] eqn:Hclean.
  - rewrite (save_writes self st Hclean). unfold Model_save.
    destruct (integrity st _ _) eqn:Hrow; [|done]. by apply Hwrite.
  - by rewrite save_raises by (rewrite Hclean; discriminate).
Qed.

(** X11.  A [save] keeps the schema: when it holds of every stored
    row, it holds of every row stored after the [save] of an instance
    of any of the seven models, new or stored, saved or refused. *)
Theorem save_keeps_schema (st : State) :
  sound st ->
  (forall self : Instance Author.t, sound (ValidatedModel.save self st).2)
  /\ (forall self : Instance Musician.t, sound (ValidatedModel.save self st).2)
  /\ (forall self : Instance Album.t, sound (ValidatedModel.save self st).2)
  /\ (forall self : Instance Song.t, sound (ValidatedModel.save self st).2)
  /\ (forall self : Instance Profile.t, sound (ValidatedModel.save self st).2)
  /\ (forall self : Instance RelationshipAuthorMusician.t,
        sound (ValidatedModel.save self st).2)
  /\ (forall self : Instance RelationshipAuthorSong.t,
        sound (ValidatedModel.save self st).2).
Proof.
  intros Hsound.
  split; [|split; [|split; [|split; [|split; [|split]]]]]; intros self;
    apply (save_keeps sound self st Hsound); intros k row Hrow.
  - by apply Author_write_sound.
  - by apply Musician_write_sound.
  - by apply Album_write_sound.
  - by apply Song_write_sound.
  - by apply Profile_write_sound.
  - by apply RelationshipAuthorMusician_write_sound.
  - by apply RelationshipAuthorSong_write_sound.
Qed.

Lemma library_sound : sound library.
Proof.
  repeat split; intros k row;
    match goal with
    | |- ?t !! k = Some row -> _ =>
        revert k row;
        change (map_Forall (fun k row => integrity library k row = true) t);
        apply map_Forall_to_list; vm_compute; repeat constructor
    end.
Qed.

(** In the library the song Eighteen is saved and the schema holds
    afterwards. *)
Lemma save_keeps_schema_witness :
  sound library
  /\ sound (ValidatedModel.save (mkInstance None true eighteen) library).2.
Proof.
  split; [exact library_sound|].
  exact (proj1 (proj2 (proj2 (proj2 (save_keeps_schema library library_sound))))
           (mkInstance None true eighteen)).
Defined.

Section DeletionSound.
Context {M : Type} `{Model M}.

Lemma dom_delete_batch (keys : gset Z) (table : gmap Z M) :
  dom (delete_batch keys table) = dom table ∖ keys.
Proof.
  apply set_eq. intros i. rewrite elem_of_difference, !elem_of_dom.
  unfold is_Some. setoid_rewrite lookup_delete_batch. split.
  - intros (row & Hrow & Hi). eauto.
  - intros ((row & Hrow) & Hi). eauto.
Qed.

Lemma dom_field_update (f : Field M Z) (keys : gset Z) (table : gmap Z M) :
  dom (field_update f keys table) = dom table.
Proof.
  unfold field_update. destruct (remote_field f) as [r|]; [|done].
  destruct (on_delete r); [done|]. apply dom_fmap_L.
Qed.

(** A row that stays does not refer, by a [CASCADE] foreign key, to a
    row that goes. *)
Lemma cascade_target_stays (f : Field M Z) (r : RemoteField M Z)
    (gone collected : gset Z) (table : gmap Z M) (i x : Z) (row : M) :
  remote_field f = Some r ->
  on_delete r = CASCADE ->
  cascade f gone table ⊆ collected ->
  table !! i = Some row ->
  i ∉ collected ->
  get f row = Some x ->
  x ∉ gone.
Proof.
  intros Hr Hpolicy Hsub Hrow Hi Hx Hgone. apply Hi, Hsub.
  apply (elem_of_cascade f r _ _ _ Hr Hpolicy). by exists row, x.
Qed.

(** A table whose rows are deleted but not updated stays sound while
    the rows that stay refer to rows that stay. *)
Lemma rows_sound_delete (st st' : State) :
  objects st' ⊆ objects st ->
  (forall i row,
     objects st' !! i = Some row ->
     Forall (fun a : AnyField M =>
               match a with
               | field f =>
                   forall r x, remote_field f = Some r ->
                               get f row = Some x ->
                               to r st x = true -> to r st' x = true
               end) _meta_fields) ->
  rows_sound st -> rows_sound st'.
Proof.
  intros Hsub Hstay Hsound i row Hrow.
  pose proof (lookup_weaken _ _ _ _ Hrow Hsub) as Hold.
  specialize (Hstay i row Hrow). rewrite Forall_forall in Hstay.
  assert (Hfewer : forall names,
             row_exists names (delete i (objects st')) row = true ->
             row_exists names (delete i (objects st)) row = true).
  { intros names. rewrite !row_exists_true.
    intros (j & r' & Hj & Hm). exists j, r'. split; [|done].
    apply lookup_delete_Some in Hj as [Hji Hj].
    apply lookup_delete_Some. split; [done|].
    by apply (lookup_weaken _ _ _ _ Hj Hsub). }
  apply (integrity_mono st st' i i row row); [| |by apply Hsound].
  - apply Forall_forall. intros a Ha. specialize (Hstay a Ha).
    destruct a as [T ? f]. destruct (get f row) as [x|] eqn:Hx; [|by left].
    split; [done|]. split; [|intros _; apply Hfewer].
    intros r Hr. by apply Hstay.
  - apply Forall_forall. intros c _ Hskip. split; [done|]. apply Hfewer.
Qed.

(** A table whose rows are updated by [upd] and then deleted stays
    sound when [upd] only clears nullable columns, the rows that stay
    refer to rows that stay, and the cleared columns do not make two
    rows the same for a unique lookup. *)
Lemma rows_sound_update (st st' : State) (upd : M -> M) (keys : gset Z) :
  objects st' = delete_batch keys (upd <$> objects st) ->
  (forall i row,
     objects st !! i = Some row ->
     i ∉ keys ->
     Forall (fun a : AnyField M =>
               match a with
               | field f =>
                   match get f (upd row) with
                   | None => get f row = None \/ null f = true
                   | Some x =>
                       get f row = Some x
                       /\ forall r, remote_field f = Some r ->
                                    to r st x = true -> to r st' x = true
                   end
               end) _meta_fields) ->
  Forall (fun a : AnyField M =>
            match a with
            | field f =>
                unique f = true ->
                forall r1 r2, get f (upd r2) <> None ->
                              matches [field_name f] (upd r1) (upd r2) = true ->
                              matches [field_name f] r1 r2 = true
            end) _meta_fields ->
  Forall (fun c =>
            forall r1 r2,
              lookup_skipped (fields c) [] (upd r2) = false ->
              lookup_skipped (fields c) [] r2 = false
              /\ (matches (fields c) (upd r1) (upd r2) = true ->
                  matches (fields c) r1 r2 = true)) constraints ->
  rows_sound st -> rows_sound st'.
Proof.
  intros Hobjects Hfields Hunique Hconstraints Hsound i row' Hrow'.
  rewrite Hobjects in Hrow'.
  apply lookup_delete_batch in Hrow' as [Hrow' Hi].
  apply lookup_fmap_Some in Hrow' as (row & <- & Hrow).
  specialize (Hfields i row Hrow Hi).
  rewrite Forall_forall in Hfields. rewrite Forall_forall in Hunique.
  rewrite Forall_forall in Hconstraints.
  assert (Hfewer : forall names,
             (forall r1, matches names (upd r1) (upd row) = true ->
                         matches names r1 row = true) ->
             row_exists names (delete i (objects st')) (upd row) = true ->
             row_exists names (delete i (objects st)) row = true).
  { intros names Hnames. rewrite !row_exists_true.
    intros (j & r' & Hj & Hm). rewrite Hobjects in Hj.
    apply lookup_delete_Some in Hj as [Hji Hj].
    apply lookup_delete_batch in Hj as [Hj _].
    apply lookup_fmap_Some in Hj as (r1 & <- & Hr1).
    exists j, r1. split; [by apply lookup_delete_Some | by apply Hnames]. }
  apply (integrity_mono st st' i i row (upd row)); [| |by apply Hsound].
  - apply Forall_forall. intros a Ha. specialize (Hfields a Ha).
    specialize (Hunique a Ha). destruct a as [T ? f].
    destruct (get f (upd row)) as [x|] eqn:Hx; [|done].
    destruct Hfields as [Hget Hto]. split; [done|]. split; [done|].
    intros Hu. apply Hfewer. intros r1. apply (Hunique Hu).
    by rewrite Hx.
  - apply Forall_forall. intros c Hc Hskip. specialize (Hconstraints c Hc).
    split; [by apply (Hconstraints row row)|].
    apply Hfewer. intros r1. by apply (Hconstraints r1 row).
Qed.
End DeletionSound.

Lemma field_update_clear {M : Type} (f : Field M Z) (r : RemoteField M Z)
    (keys : gset Z) (table : gmap Z M) :
  remote_field f = Some r ->
  on_delete r = SET_NULL ->
  field_update f keys table
  = (fun row => if refers f keys row then assign r None row else row) <$> table.
Proof. intros Hr Hpolicy. unfold field_update. by rewrite Hr, Hpolicy. Qed.

Lemma refers_false {M : Type} (f : Field M Z) (keys : gset Z) (row : M) (x : Z) :
  refers f keys row = false -> get f row = Some x -> x ∉ keys.
Proof.
  unfold refers. intros Href Hx. rewrite Hx in Href.
  by apply bool_decide_eq_false in Href.
Qed.

Ltac each_field :=
  cbn [_meta_fields constraints Author_Model Musician_Model Album_Model
       Song_Model Profile_Model RelationshipAuthorMusician_Model
       RelationshipAuthorSong_Model];
  repeat (apply Forall_cons; split); try exact (Forall_nil_2 _);
  cbv beta iota.

Ltac plain_field :=
  match goal with
  | |- match ?v with _ => _ end =>
      destruct v; [split; [done | intros r Hr; discriminate Hr] | by left]
  end.

Ltac target_stays Hdom :=
  let r := fresh "r" in
  let Hr := fresh "Hr" in
  let Hto := fresh "Hto" in
  intros r Hr Hto; cbn in Hr; injection Hr as <-; cbn [to] in *;
  apply bool_decide_eq_true in Hto; apply bool_decide_eq_true;
  rewrite Hdom; apply elem_of_difference; (split; [done|]).

Ltac field_get :=
  cbn [get Author_name Author_website Author_first_appearance
       Author_last_appearance Musician_name Musician_nationality
       Musician_instrument Musician_author Album_title Album_year_of_release
       Album_produced_by Song_audio Song_title Song_author Song_album
       Song_duration Song_style Song_playbacks Song_price Song_deal_of_the_day
       Song_created Song_created_by Song_last_modified Song_last_modified_by
       Profile_user Profile_daily_start_time Profile_daily_finish_time
       Profile_preferred_style Profile_preferred_song
       RelationshipAuthorMusician_author RelationshipAuthorMusician_musician
       RelationshipAuthorMusician_start RelationshipAuthorMusician_end
       RelationshipAuthorSong_author RelationshipAuthorSong_song
       CharField URLField FileField IntegerField SmallIntegerField
       PositiveIntegerField DecimalField BooleanField DurationField TimeField
       DateTimeField ForeignKey OneToOneField].

Lemma Song_cleared_columns (au us : gset Z) (row : Song.t) :
  let row' := Song_cleared au us row in
  Song.audio row' = Song.audio row
  /\ Song.title row' = Song.title row
  /\ Song.author row'
     = (if refers Song_author au row then None else Song.author row)
  /\ Song.album row' = Song.album row
  /\ Song.duration row' = Song.duration row
  /\ Song.style row' = Song.style row
  /\ Song.playbacks row' = Song.playbacks row
  /\ Song.price row' = Song.price row
  /\ Song.deal_of_the_day row' = Song.deal_of_the_day row
  /\ Song.created row' = Song.created row
  /\ Song.created_by row'
     = (if refers Song_created_by us row then None else Song.created_by row)
  /\ Song.last_modified row' = Song.last_modified row
  /\ Song.last_modified_by row'
     = (if refers Song_last_modified_by us row
        then None else Song.last_modified_by row).
Proof.
  destruct row as [audio title author album duration style playbacks price
                   deal created created_by last_modified last_modified_by].
  unfold Song_cleared, refers, Song.set_author, Song.set_created_by,
    Song.set_last_modified_by. field_get.
  destruct author as [a|], created_by as [c|], last_modified_by as [l|];
    cbn; repeat (case_bool_decide; cbn); by repeat split.
Qed.

Lemma Profile_cleared_columns (so : gset Z) (row : Profile.t) :
  let row' := Profile_cleared so row in
  Profile.user row' = Profile.user row
  /\ Profile.daily_start_time row' = Profile.daily_start_time row
  /\ Profile.daily_finish_time row' = Profile.daily_finish_time row
  /\ Profile.preferred_style row' = Profile.preferred_style row
  /\ Profile.preferred_song row'
     = (if refers Profile_preferred_song so row
        then None else Profile.preferred_song row).
Proof.
  unfold Profile_cleared.
  by destruct (refers Profile_preferred_song so row).
Qed.

Lemma unique_song_matches (r self : Song.t) :
  matches (fields unique_song) r self
  = bool_decide (Song.title r = Song.title self)
    && (bool_decide (Song.author r = Song.author self)
        && (bool_decide (Song.album r = Song.album self)
            && (bool_decide (Song.duration r = Song.duration self) && true))).
Proof. reflexivity. Qed.

Lemma Profile_user_matches (r self : Profile.t) :
  matches [field_name Profile_user] r self
  = bool_decide (Profile.user r = Profile.user self) && true.
Proof. reflexivity. Qed.

(** The deletion of collected rows keeps the schema. *)
Lemma collector_sound (seed : Collected) (st : State) :
  sound st -> sound (Collector_delete (collect seed st) st).
Proof.
  intros (HA & HMu & HAl & HS & HP & HAM & HAS).
  unfold collect. cbv zeta.
  set (us := del_users seed). set (au := del_authors seed).
  set (al := del_albums seed).
  set (mu := del_musicians seed ∪ cascade Musician_author au (musicians st)).
  set (so := del_songs seed ∪ _ ∪ _ ∪ _ ∪ _).
  set (pr := del_profiles seed ∪ _ ∪ _).
  set (am := del_author_musicians seed ∪ _ ∪ _).
  set (aso := del_author_songs seed ∪ _ ∪ _).
  match goal with |- sound ?s => set (st' := s) end.
  assert (Husers : users st' = users st ∖ us) by done.
  assert (Hauthors : dom (authors st') = dom (authors st) ∖ au)
    by apply dom_delete_batch.
  assert (Hmusicians : dom (musicians st') = dom (musicians st) ∖ mu).
  { subst st'. cbn [musicians Collector_delete del_musicians del_authors].
    by rewrite dom_delete_batch, dom_field_update. }
  assert (Halbums : dom (albums st') = dom (albums st) ∖ al)
    by apply dom_delete_batch.
  assert (Hsongs : dom (songs st') = dom (songs st) ∖ so).
  { subst st'. cbn [songs Collector_delete del_songs].
    by rewrite dom_delete_batch, !dom_field_update. }
  split; [|split; [|split; [|split; [|split; [|split]]]]].
  - apply (rows_sound_delete st); [apply map_filter_subseteq | | done].
    intros i row _. each_field; intros r x Hr; discriminate Hr.
  - assert (Hobjects : musicians st' = delete_batch mu (musicians st)).
    { subst st'. cbn [musicians Collector_delete del_musicians del_authors].
      by erewrite (field_update_cascade Musician_author) by reflexivity. }
    apply (rows_sound_delete st); [| |done].
    + change (musicians st' ⊆ musicians st). rewrite Hobjects.
      apply map_filter_subseteq.
    + intros i row Hrow. change (musicians st' !! i = Some row) in Hrow.
      rewrite Hobjects in Hrow. apply lookup_delete_batch in Hrow as [Hrow Hi].
      each_field; intros r x Hr Hx Hto; try discriminate Hr.
      cbn in Hr. simplify_eq. cbn [to] in *.
      apply bool_decide_eq_true in Hto. apply bool_decide_eq_true.
      rewrite Hauthors. apply elem_of_difference. split; [done|].
      apply (cascade_target_stays Musician_author _ au mu (musicians st) i x row
               eq_refl eq_refl); [apply union_subseteq_r | done..].
  - apply (rows_sound_delete st); [apply map_filter_subseteq | | done].
    intros i row _. each_field; intros r x Hr; discriminate Hr.
  - assert (Hobjects : songs st'
                       = delete_batch so (Song_cleared au us <$> songs st)).
    { subst st'. cbn [songs Collector_delete del_songs del_users del_albums
                      del_authors].
      erewrite (field_update_cascade Song_album) by reflexivity.
      erewrite (field_update_clear Song_author) by reflexivity.
      erewrite (field_update_clear Song_created_by) by reflexivity.
      erewrite (field_update_clear Song_last_modified_by) by reflexivity.
      by rewrite <- !map_fmap_compose. }
    apply (rows_sound_update st st' (Song_cleared au us) so); [done| | | |done].
    + intros i row Hrow Hi.
      destruct (Song_cleared_columns au us row)
        as (E1 & E2 & E3 & E4 & E5 & E6 & E7 & E8 & E9 & E10 & E11 & E12 & E13).
      cbv zeta in *.
      each_field; field_get;
        rewrite ?E1, ?E2, ?E3, ?E4, ?E5, ?E6, ?E7, ?E8, ?E9, ?E10, ?E11, ?E12,
          ?E13; try solve [plain_field].
      * destruct (refers Song_author au row) eqn:Href; [by right|].
        destruct (Song.author row) as [x|] eqn:Hx; [|by left].
        split; [done|]. target_stays Hauthors.
        by apply (refers_false Song_author au row).
      * destruct (Song.album row) as [x|] eqn:Hx; [|by left].
        split; [done|]. target_stays Halbums.
        apply (cascade_target_stays Song_album _ al so (songs st) i x row
                 eq_refl eq_refl); [|done..].
        intros y Hy. subst so. rewrite !elem_of_union. tauto.
      * destruct (refers Song_created_by us row) eqn:Href; [by right|].
        destruct (Song.created_by row) as [x|] eqn:Hx; [|by left].
        split; [done|]. target_stays Husers.
        by apply (refers_false Song_created_by us row).
      * destruct (refers Song_last_modified_by us row) eqn:Href; [by right|].
        destruct (Song.last_modified_by row) as [x|] eqn:Hx; [|by left].
        split; [done|]. target_stays Husers.
        by apply (refers_false Song_last_modified_by us row).
    + each_field; intros Hu; discriminate Hu.
    + each_field. intros r1 r2.
      rewrite !unique_song_lookup_skipped, !unique_song_matches.
      destruct (Song_cleared_columns au us r1)
        as (_ & E2 & E3 & E4 & E5 & _).
      destruct (Song_cleared_columns au us r2)
        as (_ & F2 & F3 & F4 & F5 & _).
      cbv zeta in *. rewrite E2, E3, E4, E5, F2, F3, F4, F5.
      clear E2 E3 E4 E5 F2 F3 F4 F5.
      rewrite !(bool_decide_eq_false_2 (_ ∈ [])) by apply not_elem_of_nil.
      cbn [orb].
      destruct (refers Song_author au r2).
      * rewrite (bool_decide_eq_true_2 (None = None)) by done.
        cbn [orb]. rewrite orb_true_r. discriminate.
      * intros Hskip. split; [done|].
        destruct (refers Song_author au r1); [|done].
        intros Hm. exfalso. apply andb_true_iff in Hm as [_ Hm].
        apply andb_true_iff in Hm as [Hm _]. apply bool_decide_eq_true in Hm.
        rewrite <- Hm in Hskip.
        rewrite (bool_decide_eq_true_2 (None = None)) in Hskip by done.
        cbn [orb] in Hskip. rewrite orb_true_r in Hskip. discriminate.
  - assert (Hobjects : profiles st'
                       = delete_batch pr (Profile_cleared so <$> profiles st)).
    { subst st'. cbn [profiles Collector_delete del_profiles del_users
                      del_songs].
      erewrite (field_update_cascade Profile_user) by reflexivity.
      by erewrite (field_update_clear Profile_preferred_song) by reflexivity. }
    apply (rows_sound_update st st' (Profile_cleared so) pr);
      [done| | |by each_field|done].
    + intros i row Hrow Hi.
      destruct (Profile_cleared_columns so row) as (E1 & E2 & E3 & E4 & E5).
      cbv zeta in *.
      each_field; field_get; rewrite ?E1, ?E2, ?E3, ?E4, ?E5;
        try solve [plain_field].
      * destruct (Profile.user row) as [x|] eqn:Hx; [|by left].
        split; [done|]. target_stays Husers.
        apply (cascade_target_stays Profile_user _ us pr (profiles st) i x row
                 eq_refl eq_refl); [|done..].
        intros y Hy. subst pr. rewrite !elem_of_union. tauto.
      * destruct (refers Profile_preferred_song so row) eqn:Href; [by right|].
        destruct (Profile.preferred_song row) as [x|] eqn:Hx; [|by left].
        split; [done|]. target_stays Hsongs.
        by apply (refers_false Profile_preferred_song so row).
    + each_field; intros Hu; try discriminate Hu.
      intros r1 r2 _. rewrite !Profile_user_matches.
      destruct (Profile_cleared_columns so r1) as (E1 & _).
      destruct (Profile_cleared_columns so r2) as (F1 & _).
      cbv zeta in *. by rewrite E1, F1.
  - assert (Hobjects : author_musicians st'
                       = delete_batch am (author_musicians st)).
    { subst st'. cbn [author_musicians Collector_delete del_author_musicians
                      del_musicians del_authors].
      erewrite (field_update_cascade RelationshipAuthorMusician_author)
        by reflexivity.
      by erewrite (field_update_cascade RelationshipAuthorMusician_musician)
        by reflexivity. }
    apply (rows_sound_delete st); [| |done].
    + change (author_musicians st' ⊆ author_musicians st). rewrite Hobjects.
      apply map_filter_subseteq.
    + intros i row Hrow. change (author_musicians st' !! i = Some row) in Hrow.
      rewrite Hobjects in Hrow. apply lookup_delete_batch in Hrow as [Hrow Hi].
      each_field; intros r x Hr Hx; try discriminate Hr; revert r Hr.
      * target_stays Hauthors.
        apply (cascade_target_stays RelationshipAuthorMusician_author _ au am
                 (author_musicians st) i x row eq_refl eq_refl); [|done..].
        intros y Hy. subst am. rewrite !elem_of_union. tauto.
      * target_stays Hmusicians.
        apply (cascade_target_stays RelationshipAuthorMusician_musician _ mu am
                 (author_musicians st) i x row eq_refl eq_refl); [|done..].
        intros y Hy. subst am. rewrite !elem_of_union. tauto.
  - assert (Hobjects : author_songs st' = delete_batch aso (author_songs st)).
    { subst st'. cbn [author_songs Collector_delete del_author_songs
                      del_songs del_authors].
      erewrite (field_update_cascade RelationshipAuthorSong_author)
        by reflexivity.
      by erewrite (field_update_cascade RelationshipAuthorSong_song)
        by reflexivity. }
    apply (rows_sound_delete st); [| |done].
    + change (author_songs st' ⊆ author_songs st). rewrite Hobjects.
      apply map_filter_subseteq.
    + intros i row Hrow. change (author_songs st' !! i = Some row) in Hrow.
      rewrite Hobjects in Hrow. apply lookup_delete_batch in Hrow as [Hrow Hi].
      each_field; intros r x Hr Hx; revert r Hr.
      * target_stays Hauthors.
        apply (cascade_target_stays RelationshipAuthorSong_author _ au aso
                 (author_songs st) i x row eq_refl eq_refl); [|done..].
        intros y Hy. subst aso. rewrite !elem_of_union. tauto.
      * target_stays Hsongs.
        apply (cascade_target_stays RelationshipAuthorSong_song _ so aso
                 (author_songs st) i x row eq_refl eq_refl); [|done..].
        intros y Hy. subst aso. rewrite !elem_of_union. tauto.
Qed.

(** X12.  A deletion keeps the schema: when it holds of every stored
    row, it holds of every row left after the deletion of an author, a
    musician, an album, a song or a user, with all that the deletion
    takes along or clears. *)
Theorem delete_keeps_schema (st : State) (k : Z) :
  sound st ->
  sound (Author_delete k st).2
  /\ sound (Musician_delete k st).2
  /\ sound (Album_delete k st).2
  /\ sound (Song_delete k st).2
  /\ sound (User_delete k st).2.
Proof.
  intros Hsound. repeat apply conj; by apply collector_sound.
Qed.

(** In the library, author 30 has a musician and two songs, and user 1
    has a profile. *)
Lemma delete_keeps_schema_witness :
  sound library
  /\ sound (Author_delete 30 library).2
  /\ sound (User_delete 1 library).2.
Proof.
  destruct (delete_keeps_schema library 30 library_sound) as (Hauthor & _).
  destruct (delete_keeps_schema library 1 library_sound) as (_ & _ & _ & _ & Huser).
  split; [exact library_sound|]. by split.
Defined.

Section ManagerSound.
Context {TM : Type} `{Model TM}.

(** What holds of the state and after every write that passes
    [integrity] holds after [bulk_create] and after [add]. *)
Lemma bulk_create_keeps (P : State -> Prop) (objs : list TM) (st : State) :
  (forall st0 k row, P st0 -> integrity st0 k row = true ->
                     P (write (<[k := row]> (objects st0)) st0)) ->
  P st -> P (bulk_create objs st).2.
Proof.
  intros Hwrite. revert st. induction objs as [|obj objs IH]; intros st Hst.
  - done.
  - simpl. unfold mbind, Request_bind, insert.
    destruct (integrity st _ _) eqn:Hrow; [|done].
    apply IH. by apply Hwrite.
Qed.

Lemma add_keeps (P : State -> Prop) (m : ManyRelatedManager TM) (ids : list Z)
    (st : State) :
  (forall st0 k row, P st0 -> integrity st0 k row = true ->
                     P (write (<[k := row]> (objects st0)) st0)) ->
  P st -> P (add m ids st).2.
Proof.
  intros Hwrite Hst. unfold add, atomic.
  pose proof (bulk_create_keeps P
                (map (through m (related_val m))
                   (elements (missing_target_ids m (list_to_set ids) st)))
                st Hwrite Hst) as Hrun.
  destruct (bulk_create _ st) as [[[]|e] st']; done.
Qed.
End ManagerSound.

(** X13.  [add] keeps the schema, for the managers of both through
    models, whatever the ids and whether it returns or raises. *)
Theorem add_keeps_schema (st : State) (ids : list Z) :
  sound st ->
  (forall m : ManyRelatedManager RelationshipAuthorSong.t,
      sound (add m ids st).2)
  /\ (forall m : ManyRelatedManager RelationshipAuthorMusician.t,
        sound (add m ids st).2).
Proof.
  intros Hsound. split; intros m; apply add_keeps; try done;
    intros st0 k row Hst0 Hrow.
  - by apply RelationshipAuthorSong_write_sound.
  - by apply RelationshipAuthorMusician_write_sound.
Qed.

(** In the library, song 17 gets the authors 30 and 40, and the add of
    an author that does not exist leaves the library as it is. *)
Lemma add_keeps_schema_witness :
  sound library
  /\ sound (add (Song_authors 17) [40; 30] library).2
  /\ add (Song_authors 17) [40; 99] library = (Raise IntegrityError, library).
Proof.
  split; [exact library_sound|]. split.
  - exact (proj1 (add_keeps_schema library [40; 30] library_sound)
             (Song_authors 17)).
  - by vm_compute.
Defined.

(** ** The two ends of a many-to-many relation *)

Section ManagerAll.
Context {TM : Type} `{Model TM}.

(** [all] returns the targets of the through rows of the instance
    that exist. *)
Lemma elem_of_all (m : ManyRelatedManager TM) (st : State) (t : Z) :
  t ∈ all m st
  <-> exists k row r,
        objects st !! k = Some row
        /\ get (source_field m) row = Some (related_val m)
        /\ get (target_field m) row = Some t
        /\ remote_field (target_field m) = Some r
        /\ to r st t = true.
Proof.
  unfold all. rewrite list_elem_of_omap. split.
  - intros (row & Hin & Hrow).
    apply list_elem_of_fmap in Hin as ([k row'] & -> & Hin).
    apply elem_of_map_to_list in Hin. simpl in Hrow.
    case_bool_decide as Hsource; [|done].
    destruct (get (target_field m) row') as [t'|] eqn:Htarget; [|done].
    destruct (remote_field (target_field m)) as [r|] eqn:Hr; [|done].
    destruct (to r st t') eqn:Hto; [|done]. simplify_eq.
    by exists k, row', r.
  - intros (k & row & r & Hrow & Hsource & Htarget & Hr & Hto).
    exists row. split.
    + apply list_elem_of_fmap. exists (k, row). split; [done|].
      by apply elem_of_map_to_list.
    + rewrite bool_decide_eq_true_2 by done. by rewrite Htarget, Hr, Hto.
Qed.
End ManagerAll.

(** The foreign keys of a through row that passes [integrity] name
    stored rows. *)
Lemma RelationshipAuthorSong_integrity (st : State) (k : Z)
    (row : RelationshipAuthorSong.t) (a s : Z) :
  integrity st k row = true ->
  (RelationshipAuthorSong.author row = Some a -> a ∈ dom (authors st))
  /\ (RelationshipAuthorSong.song row = Some s -> s ∈ dom (songs st)).
Proof.
  unfold integrity. intros Hrow. apply andb_true_iff in Hrow as [Hrow _].
  cbn [_meta_fields RelationshipAuthorSong_Model
       RelationshipAuthorMusician_Model forallb] in Hrow.
  apply andb_true_iff in Hrow as [Hfirst Hrow].
  apply andb_true_iff in Hrow as [Hsecond _].
  split; intros Hget;
    [ cbn in Hfirst; rewrite Hget in Hfirst;
      apply andb_true_iff in Hfirst as [Hto _]
    | cbn in Hsecond; rewrite Hget in Hsecond;
      apply andb_true_iff in Hsecond as [Hto _] ];
    by apply bool_decide_eq_true in Hto.
Qed.

Lemma RelationshipAuthorMusician_integrity (st : State) (k : Z)
    (row : RelationshipAuthorMusician.t) (a m : Z) :
  integrity st k row = true ->
  (RelationshipAuthorMusician.author row = Some a -> a ∈ dom (authors st))
  /\ (RelationshipAuthorMusician.musician row = Some m
      -> m ∈ dom (musicians st)).
Proof.
  unfold integrity. intros Hrow. apply andb_true_iff in Hrow as [Hrow _].
  cbn [_meta_fields RelationshipAuthorSong_Model
       RelationshipAuthorMusician_Model forallb] in Hrow.
  apply andb_true_iff in Hrow as [Hfirst Hrow].
  apply andb_true_iff in Hrow as [Hsecond _].
  split; intros Hget;
    [ cbn in Hfirst; rewrite Hget in Hfirst;
      apply andb_true_iff in Hfirst as [Hto _]
    | cbn in Hsecond; rewrite Hget in Hsecond;
      apply andb_true_iff in Hsecond as [Hto _] ];
    by apply bool_decide_eq_true in Hto.
Qed.

(** X14.  While the schema holds, the two managers of a many-to-many
    relation agree: an author is among [song.authors] exactly when the
    song is among [author.song_authors], and an author is among
    [musician.authors] exactly when the musician is among
    [author.authors]. *)
Theorem managers_agree (st : State) (a s m : Z) :
  sound st ->
  (a ∈ all (Song_authors s) st <-> s ∈ all (Author_song_authors a) st)
  /\ (a ∈ all (Musician_authors m) st <-> m ∈ all (Author_authors a) st).
Proof.
  intros (_ & _ & _ & _ & _ & HAM & HAS). rewrite !elem_of_all. split; split;
    intros (k & row & r & Hrow & Hsource & Htarget & Hr & Hto);
    exists k, row; eexists; (split; [done|]); (split; [done|]);
    (split; [done|]); (split; [reflexivity|]);
    cbn [to]; apply bool_decide_eq_true.
  - by apply (RelationshipAuthorSong_integrity st k row a s (HAS k row Hrow)).
  - by apply (RelationshipAuthorSong_integrity st k row a s (HAS k row Hrow)).
  - by apply (RelationshipAuthorMusician_integrity st k row a m
                (HAM k row Hrow)).
  - by apply (RelationshipAuthorMusician_integrity st k row a m
                (HAM k row Hrow)).
Qed.

(** In the library author 10 is related to song 15 and to musician 1,
    from either end. *)
Lemma managers_agree_witness :
  sound library
  /\ (10 ∈ all (Song_authors 15) library
      <-> 15 ∈ all (Author_song_authors 10) library)
  /\ 15 ∈ all (Author_song_authors 10) library
  /\ 1 ∈ all (Author_authors 10) library.
Proof.
  split; [exact library_sound|]. split.
  - exact (proj1 (managers_agree library 10 15 1 library_sound)).
  - split; by vm_compute; apply list_elem_of_here.
Defined.

(** ** [add] followed by [all], for every manager *)

Section ManagerAdd.
Context {TM : Type} `{Model TM}.
Variable m : ManyRelatedManager TM.
Variable r : RemoteField TM Z.
Variable source_exists : State -> Prop.

(** The through rows of the manager hold the two keys they are built
    from, a write of the through table touches no other table, and the
    database accepts a through row between stored rows. *)
Hypothesis through_source :
  forall t, get (source_field m) (through m (related_val m) t)
            = Some (related_val m).
Hypothesis through_target :
  forall t, get (target_field m) (through m (related_val m) t) = Some t.
Hypothesis target_remote : remote_field (target_field m) = Some r.
Hypothesis objects_written : forall table st, objects (write table st) = table.
Hypothesis write_written :
  forall t1 t2 st, write t2 (write t1 st) = write t2 st.
Hypothesis write_objects : forall st, write (objects st) st = st.
Hypothesis target_kept : forall table st t, to r (write table st) t = to r st t.
Hypothesis source_kept :
  forall table st, source_exists st -> source_exists (write table st).
Hypothesis pre_save_through :
  forall st t, pre_save st true (through m (related_val m) t)
               = through m (related_val m) t.
Hypothesis through_accepted :
  forall st k t, source_exists st -> to r st t = true ->
                 integrity st k (through m (related_val m) t) = true.

(** What [all] keeps of a through row in state [st]. *)
Let related (st : State) (row : TM) : option Z :=
  if bool_decide (get (source_field m) row = Some (related_val m))
  then match get (target_field m) row, remote_field (target_field m) with
       | Some t, Some r => if to r st t then Some t else None
       | _, _ => None
       end
  else None.

Lemma related_through (st : State) (ids : list Z) :
  (forall t, t ∈ ids -> to r st t = true) ->
  omap (related st) (map (through m (related_val m)) ids) = ids.
Proof.
  induction ids as [|t ids IH]; intros Hids; [done|].
  simpl. unfold related at 1.
  rewrite through_source, through_target, target_remote.
  rewrite bool_decide_eq_true_2 by done.
  rewrite (Hids t) by left.
  f_equal. apply IH. intros b Hb. apply Hids. by right.
Qed.

Lemma bulk_create_through (ids : list Z) (st : State) :
  source_exists st ->
  (forall t, t ∈ ids -> to r st t = true) ->
  exists table,
    bulk_create (map (through m (related_val m)) ids) st
    = (Return (), write table st)
    /\ (map_to_list table).*2
       ≡ₚ map (through m (related_val m)) ids ++ (map_to_list (objects st)).*2.
Proof.
  revert st. induction ids as [|t ids IH]; intros st Hsource Hids.
  - exists (objects st). split; [by rewrite write_objects|done].
  - simpl. unfold mbind, Request_bind, insert.
    rewrite pre_save_through.
    rewrite through_accepted by (done || apply Hids; left).
    set (k := fresh (dom (objects st))).
    set (row := through m (related_val m) t).
    destruct (IH (write (<[k := row]> (objects st)) st))
      as (table & Hrun & Hperm).
    { by apply source_kept. }
    { intros b Hb. rewrite target_kept. apply Hids. by right. }
    exists table. rewrite write_written in Hrun. split; [exact Hrun|].
    rewrite Hperm, objects_written. simpl.
    rewrite map_to_list_insert
      by (apply not_elem_of_dom; apply is_fresh).
    simpl. by rewrite Permutation_middle.
Qed.

Lemma missing_target_ids_related (st : State) (target_ids : gset Z) :
  (forall t, t ∈ target_ids -> to r st t = true) ->
  missing_target_ids m target_ids st
  = target_ids ∖ list_to_set (all m st).
Proof.
  intros Hids. unfold missing_target_ids, all. rewrite target_remote.
  apply set_eq. intros t. rewrite !elem_of_difference.
  split; intros [Ht Hnot]; (split; [done|]); intros Hin; apply Hnot;
    apply elem_of_list_to_set, list_elem_of_omap in Hin as (row & Hrow & Heq);
    apply elem_of_list_to_set, list_elem_of_omap; exists row;
    (split; [done|]);
    destruct (bool_decide (get (source_field m) row = Some (related_val m)));
    [|done| |done];
    destruct (get (target_field m) row) as [b|]; try done.
  - destruct (to r st b) eqn:Hto; [|done].
    simplify_eq. by rewrite bool_decide_eq_true_2.
  - destruct (bool_decide (b ∈ target_ids)) eqn:Hb; [|done].
    simplify_eq. apply bool_decide_eq_true in Hb. by rewrite (Hids t Hb).
Qed.

(** [add] of ids of stored targets to the manager of a stored
    instance succeeds and writes the through table only; [all] then
    returns the ids that were missing and what it returned before. *)
Lemma related_add (st : State) (ids : list Z) :
  source_exists st ->
  (forall t, t ∈ ids -> to r st t = true) ->
  exists table,
    add m ids st = (Return (), write table st)
    /\ all m (write table st)
       ≡ₚ elements (list_to_set ids ∖ list_to_set (all m st) : gset Z)
          ++ all m st.
Proof.
  intros Hsource Hids. unfold add, atomic.
  rewrite missing_target_ids_related
    by (intros t Ht; apply Hids; by apply elem_of_list_to_set in Ht).
  set (missing := elements _).
  assert (Hmissing : forall t, t ∈ missing -> to r st t = true).
  { intros t Ht. apply Hids. subst missing.
    apply elem_of_elements, elem_of_difference in Ht as [Ht _].
    by apply elem_of_list_to_set in Ht. }
  destruct (bulk_create_through missing st Hsource Hmissing)
    as (table & Hrun & Hperm).
  exists table. rewrite Hrun. split; [done|].
  change (omap (related (write table st))
            (map_to_list (objects (write table st))).*2
          ≡ₚ missing ++ omap (related st) (map_to_list (objects st)).*2).
  rewrite objects_written, Hperm, omap_app.
  assert (Hsame : forall rows : list TM, omap (related (write table st)) rows
                               = omap (related st) rows).
  { assert (Hrow : forall row, related (write table st) row = related st row).
    { intros row. unfold related. destruct (bool_decide _); [|done].
      destruct (get (target_field m) row) as [t|]; [|done].
      by rewrite target_remote, target_kept. }
    intros rows. apply list_omap_ext. by apply Forall_Forall2_diag, Forall_forall. }
  by rewrite !Hsame, related_through.
Qed.

(** After the [add], the targets are the old ones and the added
    ones. *)
Lemma related_add_all (st : State) (ids : list Z) :
  source_exists st ->
  (forall t, t ∈ ids -> to r st t = true) ->
  exists st',
    add m ids st = (Return (), st')
    /\ (forall t, t ∈ all m st' <-> t ∈ ids \/ t ∈ all m st)
    /\ (all m st = [] -> NoDup (all m st')).
Proof.
  intros Hsource Hids.
  destruct (related_add st ids Hsource Hids) as (table & Hadd & Hperm).
  exists (write table st). split; [done|]. split.
  - intros t. rewrite Hperm, elem_of_app, elem_of_elements, elem_of_difference.
    rewrite !elem_of_list_to_set.
    destruct (decide (t ∈ all m st)); tauto.
  - intros Hnone. rewrite Hperm, Hnone, app_nil_r. apply NoDup_elements.
Qed.
End ManagerAdd.

Ltac manager_add m source st ids :=
  refine (related_add_all m _ source (fun _ => eq_refl) (fun _ => eq_refl)
            eq_refl (fun _ _ => eq_refl) (fun _ _ _ => eq_refl)
            (fun st0 => match st0 with
                        | mkState _ _ _ _ _ _ _ _ _ _ _ => eq_refl
                        end)
            (fun _ _ _ => eq_refl) (fun _ _ H => H) (fun _ _ => eq_refl) _
            st ids _ _);
  [ let Hsrc := fresh "Hsrc" in
    let Hto := fresh "Hto" in
    intros st0 k t Hsrc Hto; cbn [to] in Hto;
    apply bool_decide_eq_true in Hto; unfold integrity; simpl;
    by rewrite !bool_decide_eq_true_2
  | done
  | intros t Ht; cbn [to]; apply bool_decide_eq_true; auto ].

(** X15.  [author.song_authors], the reverse manager of
    [Song.authors]: for a stored author and ids of stored songs, [add]
    succeeds, and [all] then returns the songs it returned before
    together with the added ones, each once when it returned none
    before. *)
Theorem author_song_authors_add_then_all (st : State) (author : Z)
    (ids : list Z) :
  author ∈ dom (authors st) ->
  (forall s, s ∈ ids -> s ∈ dom (songs st)) ->
  exists st',
    add (Author_song_authors author) ids st = (Return (), st')
    /\ (forall s, s ∈ all (Author_song_authors author) st'
                  <-> s ∈ ids \/ s ∈ all (Author_song_authors author) st)
    /\ (all (Author_song_authors author) st = [] ->
        NoDup (all (Author_song_authors author) st')).
Proof.
  intros Hauthor Hids.
  manager_add (Author_song_authors author)
    (fun st0 : State => author ∈ dom (authors st0)) st ids.
Qed.

(** Author 40 has no songs yet; adding 16, 17 and 16 again relates it
    to 16 and to 17. *)
Lemma author_song_authors_add_then_all_witness :
  exists st',
    add (Author_song_authors 40) [16; 17; 16] catalogue = (Return (), st')
    /\ (forall s, s ∈ all (Author_song_authors 40) st'
                  <-> s ∈ [16; 17; 16]
                      \/ s ∈ all (Author_song_authors 40) catalogue)
    /\ (all (Author_song_authors 40) catalogue = [] ->
        NoDup (all (Author_song_authors 40) st')).
Proof.
  apply (author_song_authors_add_then_all catalogue 40 [16; 17; 16]).
  - by vm_compute.
  - intros s Hs.
    repeat (apply elem_of_cons in Hs as [-> | Hs]; [by vm_compute|]).
    by apply not_elem_of_nil in Hs.
Defined.

(** X16.  [musician.authors] and its reverse manager [author.authors]:
    for a stored musician and ids of stored authors, and for a stored
    author and ids of stored musicians, [add] succeeds, and [all] then
    returns what it returned before together with the added ones, each
    once when it returned none before. *)
Theorem musician_authors_add_then_all (st : State) (v : Z) (ids : list Z) :
  (v ∈ dom (musicians st) ->
   (forall a, a ∈ ids -> a ∈ dom (authors st)) ->
   exists st',
     add (Musician_authors v) ids st = (Return (), st')
     /\ (forall a, a ∈ all (Musician_authors v) st'
                   <-> a ∈ ids \/ a ∈ all (Musician_authors v) st)
     /\ (all (Musician_authors v) st = [] ->
         NoDup (all (Musician_authors v) st')))
  /\ (v ∈ dom (authors st) ->
      (forall m, m ∈ ids -> m ∈ dom (musicians st)) ->
      exists st',
        add (Author_authors v) ids st = (Return (), st')
        /\ (forall m, m ∈ all (Author_authors v) st'
                      <-> m ∈ ids \/ m ∈ all (Author_authors v) st)
        /\ (all (Author_authors v) st = [] ->
            NoDup (all (Author_authors v) st'))).
Proof.
  split; intros Hsource Hids.
  - manager_add (Musician_authors v)
      (fun st0 : State => v ∈ dom (musicians st0)) st ids.
  - manager_add (Author_authors v)
      (fun st0 : State => v ∈ dom (authors st0)) st ids.
Qed.

(** Musician 2 has no authors yet and gets 30 and 40; author 40 has no
    musicians yet and gets 1 and 2. *)
Lemma musician_authors_add_then_all_witness :
  (exists st',
      add (Musician_authors 2) [30; 40] catalogue = (Return (), st')
      /\ (forall a, a ∈ all (Musician_authors 2) st'
                    <-> a ∈ [30; 40] \/ a ∈ all (Musician_authors 2) catalogue)
      /\ (all (Musician_authors 2) catalogue = [] ->
          NoDup (all (Musician_authors 2) st')))
  /\ all (Musician_authors 2) catalogue = [].
Proof.
  split; [|by vm_compute].
  apply (proj1 (musician_authors_add_then_all catalogue 2 [30; 40])).
  - by vm_compute.
  - intros a Ha.
    repeat (apply elem_of_cons in Ha as [-> | Ha]; [by vm_compute|]).
    by apply not_elem_of_nil in Ha.
Defined.

(** ** What the other deletions take with them *)

Lemma delete_batch_singleton {M : Type} (k : Z) (table : gmap Z M) :
  delete_batch {[k]} table = delete k table.
Proof.
  unfold delete_batch. apply map_eq. intros i.
  destruct (decide (i = k)) as [-> | Hne].
  - rewrite lookup_delete_eq. apply map_lookup_filter_None. right.
    intros x _. simpl. intros Hk. apply Hk. by apply elem_of_singleton.
  - rewrite lookup_delete_ne by done.
    destruct (table !! i) as [x|] eqn:Hx.
    + apply map_lookup_filter_Some. split; [done|]. simpl.
      intros Hk. by apply elem_of_singleton in Hk.
    + apply map_lookup_filter_None. by left.
Qed.

Ltac delete_simpl :=
  unfold Author_delete, Musician_delete, Album_delete, Song_delete,
    User_delete, Collector_delete, collect;
  cbn [snd users authors musicians albums songs profiles author_musicians
       author_songs del_users del_authors del_musicians del_albums del_songs
       del_profiles del_author_musicians del_author_songs];
  repeat first
    [ rewrite cascade_empty
    | erewrite (cascade_set_null Song_author) by reflexivity
    | erewrite (cascade_set_null Song_created_by) by reflexivity
    | erewrite (cascade_set_null Song_last_modified_by) by reflexivity
    | erewrite (cascade_set_null Profile_preferred_song) by reflexivity
    | rewrite union_empty_l_L
    | rewrite union_empty_r_L
    | rewrite field_update_empty
    | rewrite delete_batch_empty
    | rewrite difference_empty_L
    | erewrite (field_update_cascade Musician_author) by reflexivity
    | erewrite (field_update_cascade Song_album) by reflexivity
    | erewrite (field_update_cascade Profile_user) by reflexivity
    | erewrite (field_update_cascade RelationshipAuthorMusician_author)
        by reflexivity
    | erewrite (field_update_cascade RelationshipAuthorMusician_musician)
        by reflexivity
    | erewrite (field_update_cascade RelationshipAuthorSong_author)
        by reflexivity
    | erewrite (field_update_cascade RelationshipAuthorSong_song)
        by reflexivity
    | rewrite delete_batch_singleton ].

(** X17.  The deletion of song [k] removes the song and the through
    rows that name it, and clears [preferred_song] in the profiles that
    prefer it; no profile goes, and the authors, musicians, albums,
    users and the other through table stay as they are. *)
Theorem song_delete_effects (st : State) (k : Z) :
  let st' := (Song_delete k st).2 in
  songs st' = delete k (songs st)
  /\ author_songs st'
     = filter (fun kr => RelationshipAuthorSong.song kr.2 <> Some k)
         (author_songs st)
  /\ profiles st'
     = (fun row => if bool_decide (Profile.preferred_song row = Some k)
                   then Profile.set_preferred_song None row else row)
         <$> profiles st
  /\ authors st' = authors st
  /\ musicians st' = musicians st
  /\ albums st' = albums st
  /\ author_musicians st' = author_musicians st
  /\ users st' = users st.
Proof.
  delete_simpl. repeat apply conj; try done.
  - by erewrite (delete_batch_cascade RelationshipAuthorSong_song)
      by reflexivity.
  - by erewrite (field_update_set_null Profile_preferred_song) by reflexivity.
Qed.

(** X18.  The deletion of user [k] removes the user and the profile of
    that user, and clears [created_by] and [last_modified_by] in the
    songs that name the user; no song goes, and the other tables stay
    as they are. *)
Theorem user_delete_effects (st : State) (k : Z) :
  let st' := (User_delete k st).2 in
  users st' = users st ∖ {[k]}
  /\ profiles st'
     = filter (fun kr => Profile.user kr.2 <> Some k) (profiles st)
  /\ songs st'
     = (fun row => if bool_decide (Song.last_modified_by row = Some k)
                   then Song.set_last_modified_by None row else row)
         <$> ((fun row => if bool_decide (Song.created_by row = Some k)
                          then Song.set_created_by None row else row)
                <$> songs st)
  /\ authors st' = authors st
  /\ musicians st' = musicians st
  /\ albums st' = albums st
  /\ author_musicians st' = author_musicians st
  /\ author_songs st' = author_songs st.
Proof.
  delete_simpl. repeat apply conj; try done.
  - by erewrite (delete_batch_cascade Profile_user) by reflexivity.
  - erewrite (field_update_set_null Song_created_by) by reflexivity.
    by erewrite (field_update_set_null Song_last_modified_by) by reflexivity.
Qed.

(** X19.  The deletion of musician [k] removes the musician and the
    through rows that name the musician; every other table stays as it
    is. *)
Theorem musician_delete_effects (st : State) (k : Z) :
  let st' := (Musician_delete k st).2 in
  musicians st' = delete k (musicians st)
  /\ author_musicians st'
     = filter (fun kr => RelationshipAuthorMusician.musician kr.2 <> Some k)
         (author_musicians st)
  /\ authors st' = authors st
  /\ albums st' = albums st
  /\ songs st' = songs st
  /\ profiles st' = profiles st
  /\ author_songs st' = author_songs st
  /\ users st' = users st.
Proof.
  delete_simpl. repeat apply conj; try done.
  by erewrite (delete_batch_cascade RelationshipAuthorMusician_musician)
    by reflexivity.
Qed.

Lemma refers_true {M : Type} (f : Field M Z) (keys : gset Z) (row : M) :
  refers f keys row = true <-> exists x, get f row = Some x /\ x ∈ keys.
Proof.
  unfold refers. destruct (get f row) as [x|].
  - rewrite bool_decide_eq_true. split; [by exists x|].
    by intros (y & [= <-] & Hy).
  - split; [done|]. by intros (y & [=] & _).
Qed.

(** X20.  The deletion of album [k] reaches beyond its songs: with
    the songs of the album go the through rows that name one of them,
    and a profile that prefers one of them has [preferred_song]
    cleared.  The authors, musicians, users and the other through
    table stay as they are. *)
Theorem album_delete_effects (st : State) (k : Z) :
  let st' := (Album_delete k st).2 in
  let in_album (s : Z) :=
    exists track, songs st !! s = Some track /\ Song.album track = Some k in
  albums st' = delete k (albums st)
  /\ (forall i row,
        author_songs st' !! i = Some row
        <-> author_songs st !! i = Some row
            /\ forall s, RelationshipAuthorSong.song row = Some s ->
                         ~ in_album s)
  /\ (forall i row',
        profiles st' !! i = Some row'
        <-> exists row,
              profiles st !! i = Some row
              /\ ((row' = row
                   /\ forall s, Profile.preferred_song row = Some s ->
                                ~ in_album s)
                  \/ (row' = Profile.set_preferred_song None row
                      /\ exists s, Profile.preferred_song row = Some s
                                   /\ in_album s)))
  /\ authors st' = authors st
  /\ musicians st' = musicians st
  /\ author_musicians st' = author_musicians st
  /\ users st' = users st.
Proof.
  intros st' in_album. subst st'. delete_simpl.
  assert (Hgone : forall s, s ∈ cascade Song_album {[k]} (songs st)
                            <-> in_album s).
  { intros s. rewrite (elem_of_cascade Song_album _ _ _ _ eq_refl eq_refl).
    unfold in_album. split.
    - intros (track & x & Htrack & Hx & Hk).
      apply elem_of_singleton in Hk. subst. by exists track.
    - intros (track & Htrack & Hk). exists track, k.
      split; [done|]. split; [done|]. by apply elem_of_singleton. }
  repeat apply conj; try done.
  - intros i row. rewrite lookup_delete_batch.
    rewrite (elem_of_cascade RelationshipAuthorSong_song _ _ _ _
               eq_refl eq_refl).
    split; intros [Hrow Hnot]; (split; [done|]).
    + intros s Hs Hin. apply Hnot. exists row, s.
      split; [done|]. split; [done|]. by apply Hgone.
    + intros (row0 & s & Hrow0 & Hs & Hin). simplify_eq.
      by apply (Hnot s Hs), Hgone.
  - intros i row'.
    rewrite (lookup_field_update Profile_preferred_song _ _ _ _
               eq_refl eq_refl).
    rewrite fmap_Some. split.
    + intros (row & Hrow & ->). exists row. split; [done|].
      destruct (refers Profile_preferred_song _ row) eqn:Href.
      * right. split; [done|]. apply refers_true in Href as (s & Hs & Hin).
        exists s. split; [done|]. by apply Hgone.
      * left. split; [done|]. intros s Hs Hin.
        apply (refers_false _ _ _ _ Href Hs). by apply Hgone.
    + intros (row & Hrow & [[-> Hnot] | [-> (s & Hs & Hin)]]);
        exists row; (split; [done|]).
      * destruct (refers Profile_preferred_song _ row) eqn:Href; [|done].
        apply refers_true in Href as (s & Hs & Hin).
        exfalso. by apply (Hnot s Hs), Hgone.
      * assert (refers Profile_preferred_song
                  (cascade Song_album {[k]} (songs st)) row = true) as ->;
          [|done].
        apply refers_true. exists s. split; [done|]. by apply Hgone.
Qed.

(** ** Relations after a deletion *)

(** X21.  After the deletion of author [a], a song's authors are those
    it had before, less [a]; after the deletion of song [s], the
    authors of every other song are those it had before, and [s] has
    none. *)
Theorem delete_unrelates (st : State) (a s song b : Z) :
  (b ∈ all (Song_authors song) (Author_delete a st).2
   <-> b <> a /\ b ∈ all (Song_authors song) st)
  /\ (b ∈ all (Song_authors song) (Song_delete s st).2
      <-> song <> s /\ b ∈ all (Song_authors song) st).
Proof.
  rewrite !elem_of_all. split.
  - assert (Hrows : author_songs (Author_delete a st).2
                    = filter (fun kr => RelationshipAuthorSong.author kr.2
                                        <> Some a) (author_songs st)).
    { delete_simpl. by erewrite (delete_batch_cascade RelationshipAuthorSong_author)
        by reflexivity. }
    assert (Hauthors : authors (Author_delete a st).2 = delete a (authors st))
      by (by delete_simpl).
    cbn [objects RelationshipAuthorSong_Model]. rewrite Hrows. split.
    + intros (k & row & r & Hrow & Hsource & Htarget & Hr & Hto).
      apply map_lookup_filter_Some in Hrow as [Hrow Hkeep]. simpl in Hkeep.
      cbn in Hr. injection Hr as <-. cbn [to] in Hto.
      apply bool_decide_eq_true in Hto. rewrite Hauthors in Hto.
      apply elem_of_dom in Hto as [x Hx].
      apply lookup_delete_Some in Hx as [Hne Hx].
      split; [done|]. exists k, row. eexists.
      split; [done|]. split; [done|]. split; [done|]. split; [reflexivity|].
      cbn [to]. apply bool_decide_eq_true, elem_of_dom. by exists x.
    + intros (Hne & k & row & r & Hrow & Hsource & Htarget & Hr & Hto).
      cbn in Hr. injection Hr as <-. cbn [to] in Hto.
      apply bool_decide_eq_true in Hto. apply elem_of_dom in Hto as [x Hx].
      exists k, row. eexists. split.
      { apply map_lookup_filter_Some. split; [done|]. simpl.
        cbn in Htarget. rewrite Htarget. congruence. }
      split; [done|]. split; [done|]. split; [reflexivity|].
      cbn [to]. apply bool_decide_eq_true. rewrite Hauthors.
      apply elem_of_dom. exists x. by apply lookup_delete_Some.
  - assert (Hrows : author_songs (Song_delete s st).2
                    = filter (fun kr => RelationshipAuthorSong.song kr.2
                                        <> Some s) (author_songs st)).
    { delete_simpl. by erewrite (delete_batch_cascade RelationshipAuthorSong_song)
        by reflexivity. }
    assert (Hauthors : authors (Song_delete s st).2 = authors st)
      by (by delete_simpl).
    cbn [objects RelationshipAuthorSong_Model]. rewrite Hrows. split.
    + intros (k & row & r & Hrow & Hsource & Htarget & Hr & Hto).
      apply map_lookup_filter_Some in Hrow as [Hrow Hkeep]. simpl in Hkeep.
      cbn in Hr. injection Hr as <-. cbn [to] in Hto. rewrite Hauthors in Hto.
      split.
      { cbn in Hsource. rewrite Hsource in Hkeep. congruence. }
      exists k, row. eexists.
      split; [done|]. split; [done|]. split; [done|]. by split.
    + intros (Hne & k & row & r & Hrow & Hsource & Htarget & Hr & Hto).
      cbn in Hr. injection Hr as <-. cbn [to] in Hto.
      exists k, row. eexists. split.
      { apply map_lookup_filter_Some. split; [done|]. simpl.
        cbn in Hsource. rewrite Hsource. congruence. }
      split; [done|]. split; [done|]. split; [reflexivity|].
      cbn [to]. by rewrite Hauthors.
Qed.

(** ** Which memberships can be saved *)

Lemma RelationshipAuthorMusician_full_clean_errors (st : State)
    (self : Instance RelationshipAuthorMusician.t) :
  pk self = None ->
  full_clean_errors st self
  = clean_field RelationshipAuthorMusician_author st (attrs self)
    ++ clean_field RelationshipAuthorMusician_musician st (attrs self)
    ++ clean_field RelationshipAuthorMusician_start st (attrs self)
    ++ clean_field RelationshipAuthorMusician_end st (attrs self).
Proof.
  intros Hpk. unfold full_clean_errors, clean_fields, validate_unique,
    validate_constraints.
  cbn [_meta_fields constraints clean RelationshipAuthorMusician_Model
       flat_map map].
  assert (clean_field id_field st self = []) as ->.
  { unfold clean_field, is_empty. simpl. by rewrite Hpk. }
  rewrite Hpk. simpl. by rewrite !app_nil_r.
Qed.

(** X22.  A new RelationshipAuthorMusician is saved exactly when its
    author and its musician are stored rows and [start] and [end], when
    set, fit the backend's small integers; nothing relates [start] to
    [end], and a musician may be a member of the same author in any
    number of rows. *)
Theorem author_musician_saved_iff (st : State)
    (self : Instance RelationshipAuthorMusician.t) :
  pk self = None ->
  let fits (year : option Z) :=
    forall y, year = Some y ->
              (integer_field_range (connection st) SmallInteger).1 <= y
              <= (integer_field_range (connection st) SmallInteger).2 in
  let acceptable :=
    (exists a, RelationshipAuthorMusician.author (attrs self) = Some a
               /\ a ∈ dom (authors st))
    /\ (exists m, RelationshipAuthorMusician.musician (attrs self) = Some m
                  /\ m ∈ dom (musicians st))
    /\ fits (RelationshipAuthorMusician.start (attrs self))
    /\ fits (RelationshipAuthorMusician.end_ (attrs self)) in
  let k := fresh (dom (author_musicians st)) in
  (acceptable ->
   ValidatedModel.save self st
   = (Return (mkInstance (Some k) false (attrs self)),
      set_author_musicians (<[k := attrs self]> (author_musicians st)) st))
  /\ (~ acceptable ->
      exists errors,
        ValidatedModel.save self st = (Raise (ValidationError errors), st)).
Proof.
  intros Hpk fits acceptable k.
  assert (full_clean_errors st self = [] <-> acceptable) as Hiff.
  { rewrite (RelationshipAuthorMusician_full_clean_errors st self Hpk).
    rewrite !app_nil.
    unfold RelationshipAuthorMusician_start, RelationshipAuthorMusician_end,
      SmallIntegerField.
    rewrite !IntegerField_undeclared_clean.
    unfold acceptable, RelationshipAuthorMusician_author,
      RelationshipAuthorMusician_musician.
    rewrite !ForeignKey_clean. split.
    - intros (Hauthor & Hmusician & Hstart & Hend).
      split; [|split; [|by split]].
      + destruct (RelationshipAuthorMusician.author (attrs self)) as [a|];
          [|done].
        exists a. split; [done|].
        by destruct (bool_decide_reflect (a ∈ dom (authors st))).
      + destruct (RelationshipAuthorMusician.musician (attrs self)) as [m|];
          [|done].
        exists m. split; [done|].
        by destruct (bool_decide_reflect (m ∈ dom (musicians st))).
    - intros ((a & -> & Ha) & (m & -> & Hm) & Hstart & Hend).
      by rewrite (bool_decide_eq_true_2 _ Ha), (bool_decide_eq_true_2 _ Hm). }
  split.
  - intros Hok. rewrite (save_writes self st (proj2 Hiff Hok)).
    unfold Model_save. rewrite Hpk. simpl. fold k.
    destruct Hok as ((a & Ha & Hadom) & (m & Hm & Hmdom) & _).
    assert (integrity st k (attrs self) = true) as ->; [|done].
    unfold integrity. simpl. rewrite Ha, Hm. simpl.
    rewrite (bool_decide_eq_true_2 _ Hadom), (bool_decide_eq_true_2 _ Hmdom).
    simpl.
    by destruct (RelationshipAuthorMusician.start (attrs self)),
         (RelationshipAuthorMusician.end_ (attrs self)).
  - intros Hbad. exists (full_clean_errors st self). apply save_raises.
    intros Hnil. by apply Hbad, Hiff.
Qed.

(** In the catalogue musician 1 is a member of author 10; a second
    membership that ends before it starts is saved, under key 2, and a
    membership of a musician that does not exist is refused. *)
Lemma author_musician_saved_iff_witness :
  ValidatedModel.save
    (mkInstance None true
       (RelationshipAuthorMusician.mk (Some 10) (Some 1) (Some 2010) (Some 2001)))
    catalogue
  = (Return (mkInstance (Some 2) false
               (RelationshipAuthorMusician.mk (Some 10) (Some 1) (Some 2010)
                  (Some 2001))),
     set_author_musicians
       (<[2 := RelationshipAuthorMusician.mk (Some 10) (Some 1) (Some 2010)
                 (Some 2001)]> (author_musicians catalogue)) catalogue)
  /\ exists errors,
       ValidatedModel.save
         (mkInstance None true
            (RelationshipAuthorMusician.mk (Some 10) (Some 9) None None))
         catalogue
       = (Raise (ValidationError errors), catalogue).
Proof.
  split.
  - apply (proj1 (author_musician_saved_iff catalogue
                    (mkInstance None true
                       (RelationshipAuthorMusician.mk (Some 10) (Some 1)
                          (Some 2010) (Some 2001))) eq_refl)).
    split; [eexists; split; [reflexivity | by vm_compute]|].
    split; [eexists; split; [reflexivity | by vm_compute]|].
    split; intros y [= <-]; by vm_compute.
  - apply (proj2 (author_musician_saved_iff catalogue
                    (mkInstance None true
                       (RelationshipAuthorMusician.mk (Some 10) (Some 9)
                          None None)) eq_refl)).
    intros (_ & (m & [= <-] & Hm) & _). by vm_compute in Hm.
Defined.

(** ** What an operation leaves alone *)

(** X23.  A [save] writes the table of the instance's model and
    nothing else, and [add] writes the through table and nothing else:
    every other table, the users and the clock are after the operation
    what they were before, whether it returns or raises. *)
Theorem writes_own_table (st : State) :
  (forall self : Instance Author.t,
      exists t, (ValidatedModel.save self st).2 = set_authors t st)
  /\ (forall self : Instance Musician.t,
        exists t, (ValidatedModel.save self st).2 = set_musicians t st)
  /\ (forall self : Instance Album.t,
        exists t, (ValidatedModel.save self st).2 = set_albums t st)
  /\ (forall self : Instance Song.t,
        exists t, (ValidatedModel.save self st).2 = set_songs t st)
  /\ (forall self : Instance Profile.t,
        exists t, (ValidatedModel.save self st).2 = set_profiles t st)
  /\ (forall self : Instance RelationshipAuthorMusician.t,
        exists t, (ValidatedModel.save self st).2 = set_author_musicians t st)
  /\ (forall self : Instance RelationshipAuthorSong.t,
        exists t, (ValidatedModel.save self st).2 = set_author_songs t st)
  /\ (forall (m : ManyRelatedManager RelationshipAuthorMusician.t) ids,
        exists t, (add m ids st).2 = set_author_musicians t st)
  /\ (forall (m : ManyRelatedManager RelationshipAuthorSong.t) ids,
        exists t, (add m ids st).2 = set_author_songs t st).
Proof.
  repeat apply conj; intros self.
  - apply (save_keeps (fun st' => exists t, st' = set_authors t st) self st);
      [exists (authors st); by destruct st | intros k row _; by eexists].
  - apply (save_keeps (fun st' => exists t, st' = set_musicians t st) self st);
      [exists (musicians st); by destruct st | intros k row _; by eexists].
  - apply (save_keeps (fun st' => exists t, st' = set_albums t st) self st);
      [exists (albums st); by destruct st | intros k row _; by eexists].
  - apply (save_keeps (fun st' => exists t, st' = set_songs t st) self st);
      [exists (songs st); by destruct st | intros k row _; by eexists].
  - apply (save_keeps (fun st' => exists t, st' = set_profiles t st) self st);
      [exists (profiles st); by destruct st | intros k row _; by eexists].
  - apply (save_keeps (fun st' => exists t, st' = set_author_musicians t st)
             self st);
      [exists (author_musicians st); by destruct st
      | intros k row _; by eexists].
  - apply (save_keeps (fun st' => exists t, st' = set_author_songs t st)
             self st);
      [exists (author_songs st); by destruct st | intros k row _; by eexists].
  - intros ids.
    apply (add_keeps (fun st' => exists t, st' = set_author_musicians t st));
      [intros st0 k row [t ->] _; by eexists | exists (author_musicians st);
                                                by destruct st].
  - intros ids.
    apply (add_keeps (fun st' => exists t, st' = set_author_songs t st));
      [intros st0 k row [t ->] _; by eexists | exists (author_songs st);
                                                by destruct st].
Qed.

(** ** The musicians of an author, by query *)

Lemma omap_omap {A B C : Type} (f : A -> option B) (g : B -> option C)
    (l : list A) :
  omap g (omap f l) = omap (fun x => f x ≫= g) l.
Proof.
  induction l as [|x l IH]; [done|]. csimpl.
  destruct (f x) as [y|]; csimpl; [|done].
  destruct (g y); by rewrite IH.
Qed.

(** The query lists the name and the instrument of the musicians that
    [author.authors.all()] returns, one entry for each. *)
Lemma Musician_filter_authors_id_all (author : Z) (st : State) :
  Musician_filter_authors_id_values author st
  = omap (fun m => (fun player => (Musician.name player,
                                   Musician.instrument player))
                     <$> musicians st !! m)
      (all (Author_authors author) st)
  /\ length (Musician_filter_authors_id_values author st)
     = length (all (Author_authors author) st).
Proof.
  unfold Musician_filter_authors_id_values, all.
  cbn [objects RelationshipAuthorMusician_Model source_field target_field
       related_val Author_authors].
  generalize (map_to_list (author_musicians st)).*2. intros rows.
  rewrite omap_omap. split.
  - apply list_omap_ext, Forall_Forall2_diag, Forall_forall. intros row _.
    cbn. case_bool_decide; [|done].
    destruct (RelationshipAuthorMusician.musician row) as [m|]; [|done].
    case_bool_decide as Hm; cbn.
    + done.
    + apply not_elem_of_dom in Hm. by rewrite Hm.
  - induction rows as [|row rows IH]; [done|]. csimpl. cbn.
    case_bool_decide; [|done].
    destruct (RelationshipAuthorMusician.musician row) as [m|]; [|done].
    case_bool_decide as Hm; cbn.
    + apply elem_of_dom in Hm as [player ->]. cbn. by rewrite IH.
    + apply not_elem_of_dom in Hm. by rewrite Hm.
Qed.

(** X24.  The query of the musicians of an author agrees with the
    author's manager: after [author.authors.add(ids)], for a stored
    author and ids of stored musicians, the query lists the name and
    the instrument of the added musicians and of those the author had
    before, and of no other. *)
Theorem musicians_of_author_query (st : State) (author : Z) (ids : list Z) :
  author ∈ dom (authors st) ->
  (forall m, m ∈ ids -> m ∈ dom (musicians st)) ->
  exists st',
    add (Author_authors author) ids st = (Return (), st')
    /\ forall entry,
         entry ∈ Musician_filter_authors_id_values author st'
         <-> exists m player,
               (m ∈ ids \/ m ∈ all (Author_authors author) st)
               /\ musicians st !! m = Some player
               /\ entry = (Musician.name player, Musician.instrument player).
Proof.
  intros Hauthor Hids.
  assert (exists st',
             add (Author_authors author) ids st = (Return (), st')
             /\ (forall t, t ∈ all (Author_authors author) st'
                           <-> t ∈ ids \/ t ∈ all (Author_authors author) st)
             /\ (all (Author_authors author) st = [] ->
                 NoDup (all (Author_authors author) st')))
    as (st' & Hadd & Hall & _).
  { manager_add (Author_authors author)
      (fun st0 : State => author ∈ dom (authors st0)) st ids. }
  exists st'. split; [done|]. intros entry.
  assert (Hmusicians : musicians st' = musicians st).
  { assert (exists t, (add (Author_authors author) ids st).2
                      = set_author_musicians t st) as [t Ht].
    { apply (add_keeps (fun st0 => exists t, st0 = set_author_musicians t st));
        [intros st0 k row [t ->] _; by eexists|].
      exists (author_musicians st). by destruct st. }
    rewrite Hadd in Ht. simpl in Ht. by rewrite Ht. }
  rewrite (proj1 (Musician_filter_authors_id_all author st')).
  rewrite list_elem_of_omap. setoid_rewrite Hall. rewrite Hmusicians.
  split.
  - intros (m & Hm & Hentry). apply fmap_Some in Hentry as (player & Hp & ->).
    by exists m, player.
  - intros (m & player & Hm & Hp & ->). exists m. split; [done|].
    by rewrite Hp.
Qed.

(** Author 40 has no musicians yet; after adding 1 and 2 the query
    lists the clarinet of Noah Garcia and the piano of Liam Perez. *)
Lemma musicians_of_author_query_witness :
  exists st',
    add (Author_authors 40) [1; 2] catalogue = (Return (), st')
    /\ (forall entry,
          entry ∈ Musician_filter_authors_id_values 40 st'
          <-> exists m player,
                (m ∈ [1; 2] \/ m ∈ all (Author_authors 40) catalogue)
                /\ musicians catalogue !! m = Some player
                /\ entry = (Musician.name player, Musician.instrument player))
    /\ Musician_filter_authors_id_values 40 st'
       = [(Some "Noah Garcia", Some "clarinet");
          (Some "Liam Perez", Some "piano")].
Proof.
  destruct (musicians_of_author_query catalogue 40 [1; 2])
    as (st' & Hadd & Hquery).
  - by vm_compute.
  - intros m Hm.
    repeat (apply elem_of_cons in Hm as [-> | Hm]; [by vm_compute|]).
    by apply not_elem_of_nil in Hm.
  - exists st'. split; [done|]. split; [done|].
    assert (st' = (add (Author_authors 40) [1; 2] catalogue).2) as ->
      by (by rewrite Hadd).
    by vm_compute.
Defined.
